(** * vindstyrka_logger/log_values.py: the serial/ZHA logging loop

    A shallow embedding of [ZHAReader] and [main] from
    [src/vindstyrka_logger/log_values.py], and the properties of the
    logging loop proved over it.

    Conventions of the embedding.
    - Python [bytes] are [list byte]; a Python [str] is a [string] holding
      the UTF-8 encoding of its code points, so [bytes.decode()] is UTF-8
      validation.  A lone surrogate, which a JSON escape can put into a
      [str], is held in the same three-byte form: such a string is not
      well-formed UTF-8, and it cannot be written to the output file, whose
      encoding is UTF-8.  The characters the script inspects (['!'], ['#'], [','])
      are ASCII, and an ASCII byte never occurs inside a multi-byte UTF-8
      sequence, so [rstrip(',')] and [s[0] in ('!', '#')] act on the
      encoding exactly as on the code points.
    - The serial port is the list of results of successive [readline()]
      calls; when it is exhausted the loop is blocked in [readline()].
    - Every [websockets.connect] consumes the next scripted connection: a
      list of inbound events, each with the delay, in the time units of
      [asyncio.wait_for], after which it arrives once the client waits for
      it.  Sending and computing take no time.  An event that arrives
      before the time of a [wait_for] is up is received; one that would
      arrive when it is up, or later, stays pending when the wait is
      cancelled.
    - [datetime.now().isoformat()] is a function of the number of earlier
      calls, so that runs under different clocks can be compared.
    - [logger] output is kept as structured entries. *)

From Stdlib Require Import List String Ascii ZArith Lia Bool Arith.
From Stdlib.Strings Require Import Byte.
From Stdlib Require Import DecimalString PrimFloat Uint63.
Import ListNotations.

Local Open Scope list_scope.
Local Open Scope string_scope.

(** ** Python strings and bytes *)

Module Py.

Definition bytes := list byte.

(** [bytes.strip()]: ASCII whitespace is space, TAB, LF, VT, FF and CR. *)
Definition is_space (b : byte) : bool :=
  match b with
  | x20 | x09 | x0a | x0b | x0c | x0d => true
  | _ => false
  end.

Fixpoint lstrip (b : bytes) : bytes :=
  match b with
  | [] => []
  | c :: b' => if is_space c then lstrip b' else b
  end.

Definition strip (b : bytes) : bytes := rev (lstrip (rev (lstrip b))).

(** Truth value of a [bytes] object: non-empty. *)
Definition bytes_truthy (b : bytes) : bool :=
  match b with [] => false | _ :: _ => true end.

(** *** [bytes.decode()]: strict UTF-8 *)

Definition in_range (lo hi : N) (b : byte) : bool :=
  (lo <=? Byte.to_N b)%N && (Byte.to_N b <=? hi)%N.

Definition cont : byte -> bool := in_range 128 191.

(** [utf8_valid b]: [b] is well-formed UTF-8 (shortest form, no surrogates,
    at most U+10FFFF). *)
Fixpoint utf8_valid (b : bytes) : bool :=
  match b with
  | [] => true
  | b0 :: r0 =>
    if in_range 0 127 b0 then utf8_valid r0
    else match r0 with
    | [] => false
    | b1 :: r1 =>
      if in_range 194 223 b0 then cont b1 && utf8_valid r1
      else match r1 with
      | [] => false
      | b2 :: r2 =>
        if in_range 224 239 b0 then
          (if in_range 224 224 b0 then in_range 160 191 b1
           else if in_range 237 237 b0 then in_range 128 159 b1
           else cont b1) && cont b2 && utf8_valid r2
        else match r2 with
        | [] => false
        | b3 :: r3 =>
          in_range 240 244 b0 &&
          (if in_range 240 240 b0 then in_range 144 191 b1
           else if in_range 244 244 b0 then in_range 128 143 b1
           else cont b1) && cont b2 && cont b3 && utf8_valid r3
        end
      end
    end
  end.

(** [None] stands for [UnicodeDecodeError]. *)
Definition decode (b : bytes) : option string :=
  if utf8_valid b then Some (string_of_list_byte b) else None.

(** [text.encode()], as writing to the output file needs it: a [str] with a
    lone surrogate has none. *)
Definition encodable (text : string) : bool :=
  utf8_valid (list_byte_of_string text).

(** *** [str] operations *)

(** [s.rstrip(',')] *)
Fixpoint rstrip_comma (s : string) : string :=
  match s with
  | EmptyString => EmptyString
  | String c s' =>
    match rstrip_comma s' with
    | EmptyString => if Ascii.eqb c "," then EmptyString else String c EmptyString
    | t => String c t
    end
  end.

(** [s[0]]: [None] stands for [IndexError]. *)
Definition first_char (s : string) : option ascii :=
  match s with
  | EmptyString => None
  | String c _ => Some c
  end.

(** [str(n)] for a non-negative [int]. *)
Definition str_of_nat (n : nat) : string :=
  NilEmpty.string_of_uint (Nat.to_uint n).

(** [sep.join(l)] on a list of [str]. *)
Fixpoint join (sep : string) (l : list string) : string :=
  match l with
  | [] => ""
  | [s] => s
  | s :: l' => s ++ sep ++ join sep l'
  end.

End Py.

(** ** JSON values, as [json.loads] builds them *)

#[local] Set Warnings "-register-all".
Inductive json : Type :=
| JNull
| JBool (b : bool)
| JInt (n : Z)
| JFloat (f : float)
| JStr (s : string)
| JArr (l : list json)
| JObj (kv : list (string * json)).

(** The exceptions the script can meet. *)
Inductive exn : Type :=
| AuthFailed (auth_response : json)  (* Exception(f'Auth failed: {auth_response}') *)
| KeyError (key : string)
| TypeError
| JSONDecodeError
| ConnectionClosed
| OSError
| TimeoutError
| UnicodeDecodeError
| UnicodeEncodeError
| IndexError.

(** A [dict] built from a JSON object keeps the last binding of a key. *)
Fixpoint dict_get (key : string) (kv : list (string * json)) : option json :=
  match kv with
  | [] => None
  | (k, v) :: kv' =>
    match dict_get key kv' with
    | Some v' => Some v'
    | None => if String.eqb k key then Some v else None
    end
  end.

(** [message[key]] for a string key: only a [dict] can be indexed by it. *)
Definition getitem (message : json) (key : string) : exn + json :=
  match message with
  | JObj kv =>
    match dict_get key kv with
    | Some v => inr v
    | None => inl (KeyError key)
    end
  | _ => inl TypeError
  end.

(** Truth value of a JSON value, for [not response['success']]. *)
Definition truthy (j : json) : bool :=
  match j with
  | JNull => false
  | JBool b => b
  | JInt n => negb (n =? 0)%Z
  | JFloat f => negb (PrimFloat.eqb f PrimFloat.zero)
  | JStr s => negb (String.eqb s "")
  | JArr l => match l with [] => false | _ => true end
  | JObj kv => match kv with [] => false | _ => true end
  end.

(** [j == s] for a [str] [s]. *)
Definition eq_str (j : json) (s : string) : bool :=
  match j with
  | JStr t => String.eqb t s
  | _ => false
  end.

(** [j == n] for an [int] [n] ([True == 1] and [1.0 == 1] hold in Python).
    The float case is exact for [0 <= n < 2^53]; request ids are 1 to 4. *)
Definition eq_int (j : json) (n : Z) : bool :=
  match j with
  | JInt m => (m =? n)%Z
  | JBool b => ((if b then 1 else 0) =? n)%Z
  | JFloat f => PrimFloat.eqb f (PrimFloat.of_uint63 (Uint63.of_Z n))
  | _ => false
  end.

(** ** The state a fetch runs over *)

(** What the server side of a connection does next. *)
Inductive event : Type :=
| Frame (message : json)   (* a text frame holding this JSON document *)
| Garbage                  (* a frame that is not JSON *)
| Closed.                  (* the connection is closed by the peer *)

(** A scripted connection: each event arrives [delay] time units after the
    client starts waiting for it. *)
Definition script := list (nat * event).

Inductive log_entry : Type :=
| ErrorResponse (response : json)     (* logger.error(f'Response: {response}') *)
| ErrorTimedOut                       (* logger.error('Response timed out') *)
| WarningDataError (sen54log : string). (* logger.warning(f'Data error: {sen54log}') *)

(** The websocket [ws] (pending inbound events, frames sent, whether it has
    been closed), the time left under the enclosing [asyncio.wait_for], and
    what the fetch has logged. *)
Record task : Type := mkTask {
  inbox : script;
  sent : list json;
  closed : bool;
  deadline : option nat;
  logged : list log_entry
}.

Definition connect (server : script) : task :=
  mkTask server [] false None [].

Definition set_inbox (i : script) (s : task) : task :=
  mkTask i (sent s) (closed s) (deadline s) (logged s).
Definition set_deadline (d : option nat) (s : task) : task :=
  mkTask (inbox s) (sent s) (closed s) d (logged s).
Definition push_sent (m : json) (s : task) : task :=
  mkTask (inbox s) (sent s ++ [m])%list (closed s) (deadline s) (logged s).
Definition push_log (l : log_entry) (s : task) : task :=
  mkTask (inbox s) (sent s) (closed s) (deadline s) (logged s ++ [l])%list.
Definition close (s : task) : task :=
  mkTask (inbox s) (sent s) true (deadline s) (logged s).

(** How a computation ends: with a value, with an exception, blocked for ever
    on input that never comes, or out of the fuel of a [while True] loop. *)
Inductive outcome (A : Type) : Type :=
| Done (a : A)
| Raise (e : exn)
| Blocked
| OutOfFuel.
Arguments Done {A} a.
Arguments Raise {A} e.
Arguments Blocked {A}.
Arguments OutOfFuel {A}.

Definition M (A : Type) : Type := task -> outcome A * task.

Definition ret {A} (a : A) : M A := fun s => (Done a, s).
Definition raise {A} (e : exn) : M A := fun s => (Raise e, s).
Definition bind {A B} (m : M A) (k : A -> M B) : M B :=
  fun s =>
    match m s with
    | (Done a, s') => k a s'
    | (Raise e, s') => (Raise e, s')
    | (Blocked, s') => (Blocked, s')
    | (OutOfFuel, s') => (OutOfFuel, s')
    end.

Notation "x <- m ;; k" := (bind m (fun x => k))
  (at level 61, m at next level, right associativity).
Notation "m ;; k" := (bind m (fun _ => k))
  (at level 61, right associativity).

Definition lift {A} (r : exn + A) : M A :=
  match r with
  | inl e => raise e
  | inr a => ret a
  end.

Definition log (l : log_entry) : M unit := fun s => (Done tt, push_log l s).

(** ** [ZHAReader] *)

Record ZHAReader : Type := mkZHAReader { uri : string; token : string }.

(** [ws.send(json.dumps({'type': event_type, **data}))] *)
Definition ha_send (event_type : string) (data : list (string * json)) : M unit :=
  fun s => (Done tt, push_sent (JObj (("type", JStr event_type) :: data)) s).

Definition deliver (ev : event) : M json :=
  match ev with
  | Frame message => ret message
  | Garbage => raise JSONDecodeError
  | Closed => raise ConnectionClosed
  end.

(** [json.loads(await ws.recv())].  Under a [wait_for] deadline the next
    event is received if it arrives before the time left is up; otherwise
    (when the time is up the timeout comes first) the wait is cancelled
    with [TimeoutError] and the event stays pending, the time already
    waited taken off its delay. *)
Definition ha_recv : M json :=
  fun s =>
    match inbox s, deadline s with
    | [], None => (Blocked, s)
    | [], Some _ => (Raise TimeoutError, set_deadline (Some 0) s)
    | (d, ev) :: rest, None => deliver ev (set_inbox rest s)
    | (d, ev) :: rest, Some t =>
      if (d <? t)%nat
      then deliver ev (set_deadline (Some (t - d)) (set_inbox rest s))
      else (Raise TimeoutError,
            set_deadline (Some 0) (set_inbox ((d - t, ev) :: rest) s))
    end.

(** [ha_await]: the [while True] loop, one iteration per unit of fuel. *)
Fixpoint ha_await_loop (fuel : nat) (message_id : Z) : M json :=
  match fuel with
  | O => fun s => (OutOfFuel, s)
  | S fuel' =>
    message <- ha_recv ;;
    id <- lift (getitem message "id") ;;
    if eq_int id message_id then ret message
    else ha_await_loop fuel' message_id
  end.

(** Every iteration that goes round again has consumed one inbound event, so
    one more unit of fuel than there are pending events is enough (see
    [ha_await_fuel]). *)
Definition ha_await (message_id : Z) : M json :=
  fun s => ha_await_loop (S (List.length (inbox s))) message_id s.

(** [asyncio.wait_for(aw, timeout)] *)
Definition wait_for {A} (aw : M A) (timeout : nat) : M A :=
  fun s =>
    let (r, s') := aw (set_deadline (Some timeout) s) in
    (r, set_deadline (deadline s) s').

(** [try: body except asyncio.TimeoutError: handler] *)
Definition try_except_timeout {A} (body handler : M A) : M A :=
  fun s =>
    match body s with
    | (Raise TimeoutError, s') => handler s'
    | r => r
    end.

(** [async with websockets.connect(...) as ws: body]: the connection is
    closed whenever the body is left, by a return or by an exception. *)
Definition async_with {A} (body : M A) : M A :=
  fun s =>
    match body s with
    | (Done a, s') => (Done a, close s')
    | (Raise e, s') => (Raise e, close s')
    | r => r
    end.

Definition clusters : list Z :=
  [ 0x042a    (* PM2.5 *)
  ; 0xfc7e    (* VOC index *)
  ; 0x0405    (* Humidity *)
  ; 0x0402    (* Temperature *)
  ]%Z.

Definition event_data (message_id : Z) (ieee : string) (cluster : Z)
  : list (string * json) :=
  [ ("id", JInt message_id)
  ; ("ieee", JStr ieee)
  ; ("endpoint_id", JInt 1)
  ; ("cluster_id", JInt cluster)
  ; ("cluster_type", JStr "in")
  ; ("attribute", JInt 0) ].

(** How one turn of the [for cluster in clusters] loop ends: it goes on to
    the next cluster with the values so far, or [get_values] returns. *)
Inductive flow : Type :=
| Next (values : list json)
| Return (v : option (list json)).

(** The body of the loop from the [try] on. *)
Definition await_response (message_id : Z) (values : list json) : M flow :=
  try_except_timeout
    (response <- wait_for (ha_await message_id) 5 ;;
     success <- lift (getitem response "success") ;;
     if negb (truthy success) then
       log (ErrorResponse response) ;;
       ret (Return None)
     else
       result <- lift (getitem response "result") ;;
       ret (Next (values ++ [result])%list))
    (log ErrorTimedOut ;;
     ret (Next values)).

(** [for cluster in clusters: ...] followed by [return values]. *)
Fixpoint for_clusters (ieee : string) (cs : list Z) (message_id : Z)
    (values : list json) : M (option (list json)) :=
  match cs with
  | [] => ret (Some values)
  | cluster :: cs' =>
    let message_id := (message_id + 1)%Z in
    ha_send "zha/devices/clusters/attributes/value"
            (event_data message_id ieee cluster) ;;
    fl <- await_response message_id values ;;
    match fl with
    | Return v => ret v
    | Next values' => for_clusters ieee cs' message_id values'
    end
  end.

(** Authorize with HA *)
Definition authorize (self : ZHAReader) : M unit :=
  first <- ha_recv ;;
  ty <- lift (getitem first "type") ;;
  if eq_str ty "auth_required" then
    ha_send "auth" [("access_token", JStr (token self))] ;;
    auth_response <- ha_recv ;;
    ty' <- lift (getitem auth_response "type") ;;
    if negb (eq_str ty' "auth_ok") then raise (AuthFailed auth_response)
    else ret tt
  else ret tt.

(** [None] is Python's [None] (a bare [return]). *)
Definition get_values (self : ZHAReader) (ieee : string)
  : M (option (list json)) :=
  async_with
    (authorize self ;;
     for_clusters ieee clusters 0 []).

(** ** [main] *)

Record config : Type := mkConfig {
  c_uri : string;
  c_token : string;
  c_serial : string;
  c_output_file : string;
  c_vindstyrka : string
}.

(** What the loop runs over: the text appended to the output file, the
    logger's output, how often the clock has been read, the connections the
    server side will still accept, and the tasks of the fetches made so far
    (oldest first). *)
Record world : Type := mkWorld {
  log_file : string;
  logger : list log_entry;
  clock_reads : nat;
  servers : list script;
  fetches : list task
}.

Definition warn (l : log_entry) (w : world) : world :=
  mkWorld (log_file w) (logger w ++ [l])%list (clock_reads w) (servers w)
          (fetches w).
Definition tick (w : world) : world :=
  mkWorld (log_file w) (logger w) (S (clock_reads w)) (servers w) (fetches w).
Definition write (text : string) (w : world) : world :=
  mkWorld (log_file w ++ text) (logger w) (clock_reads w) (servers w)
          (fetches w).

(** [await zha.get_values(ieee)] from the loop: the fetch runs on the next
    connection; connecting fails when the server accepts no more. *)
Definition fetch (zha : ZHAReader) (ieee : string) (w : world)
  : outcome (option (list json)) * world :=
  match servers w with
  | [] => (Raise OSError, w)
  | server :: servers' =>
    let (r, t) := get_values zha ieee (connect server) in
    (r, mkWorld (log_file w) (logger w ++ logged t)%list (clock_reads w)
                servers' (fetches w ++ [t])%list)
  end.

(** The items of [zha_values] as [str], as [','.join] needs them: [None]
    stands for its [TypeError] on an item that is not a [str]. *)
Fixpoint strs (values : list json) : option (list string) :=
  match values with
  | [] => Some []
  | JStr v :: values' => option_map (cons v) (strs values')
  | _ :: _ => None
  end.

Definition nl : string := String "010"%char "".

(** One turn of the [while(True)] loop, on the result of [ser.readline()].
    [now n] is [datetime.now().isoformat()] at the [n]-th reading of the
    clock. *)
Definition main_iter (cfg : config) (now : nat -> string) (line : Py.bytes)
    (w : world) : outcome unit * world :=
  let zha := mkZHAReader (c_uri cfg) (c_token cfg) in
  let sen54log := Py.strip line in
  if Py.bytes_truthy sen54log then
    match Py.decode sen54log with
    | None => (Raise UnicodeDecodeError, w)
    | Some text =>
      let sen54log := Py.rstrip_comma text in
      match Py.first_char sen54log with
      | None => (Raise IndexError, w)
      | Some c =>
        if (Ascii.eqb c "!" || Ascii.eqb c "#")%bool then
          (Done tt, warn (WarningDataError sen54log) w)
        else
          let ts := now (clock_reads w) in
          match fetch zha (c_vindstyrka cfg) (tick w) with
          | (Done (Some ((_ :: _) as zha_values)), w') =>
            match strs zha_values with
            | None => (Raise TypeError, w')
            | Some items =>
              let zha_log := Py.join "," items in
              let log_line :=
                ts ++ ";" ++ sen54log ++ ",ZHA,"
                   ++ Py.str_of_nat (List.length zha_values) ++ "," ++ zha_log in
              (* Write to log file: the timestamp is ASCII and the fragment
                 was decoded from UTF-8, so the line can be encoded when the
                 values can. *)
              if Py.encodable zha_log
              then (Done tt, write nl (write log_line w'))
              else (Raise UnicodeEncodeError, w')
            end
          | (Done _, w') => (Done tt, w')
          | (Raise e, w') => (Raise e, w')
          | (Blocked, w') => (Blocked, w')
          | (OutOfFuel, w') => (OutOfFuel, w')
          end
      end
    end
  else (Done tt, w).

(** The loop over the lines the serial port delivers; when they are used up
    it is blocked in [readline()].  An exception leaves the loop (and
    [main]): nothing in [main] catches one. *)
Fixpoint main_loop (cfg : config) (now : nat -> string)
    (lines : list Py.bytes) (w : world) : outcome unit * world :=
  match lines with
  | [] => (Blocked, w)
  | line :: lines' =>
    match main_iter cfg now line w with
    | (Done _, w') => main_loop cfg now lines' w'
    | r => r
    end
  end.

(** [main(config)], with the output file holding [existing] when it is
    opened for appending. *)
Definition main (cfg : config) (now : nat -> string) (existing : string)
    (lines : list Py.bytes) (srv : list script) : outcome unit * world :=
  main_loop cfg now lines (mkWorld existing [] 0 srv []).

(** ** Examples *)

Module Examples.

Definition cfg : config :=
  mkConfig "ws://ha.local:8123/api/websocket" "secret" "/dev/ttyUSB0"
           "vindstyrka.log" "00:11:22:33:44:55:66:77".

Definition now (n : nat) : string :=
  "2023-06-25T15:24:4" ++ Py.str_of_nat n ++ ".362165".

Definition bytes_of (s : string) : Py.bytes := list_byte_of_string s.

Definition typed (ty : string) : json := JObj [("type", JStr ty)].

Definition response (id : Z) (success : bool) (result : string) : json :=
  JObj [("id", JInt id); ("type", JStr "result"); ("success", JBool success);
        ("result", JStr result)].

Definition handshake : script :=
  [(0, Frame (typed "auth_required")); (1, Frame (typed "auth_ok"))].

Definition all_four : script :=
  (handshake ++
   [ (1, Frame (response 1 true "23.0")); (1, Frame (response 2 true "81.0"))
   ; (1, Frame (response 3 true "4900")); (1, Frame (response 4 true "2500")) ])%list.

Definition sen54 : Py.bytes :=
  (bytes_of "1455130,1347;PRO,8,202,232,MYS,3,3194,6448,64479," ++ [x0d; x0a])%list.

(** The first response comes a time unit too late; it is still pending when
    the second request is awaited. *)
Definition late_first : script :=
  (handshake ++
   [ (6, Frame (response 1 true "23.0")); (1, Frame (response 2 true "81.0"))
   ; (1, Frame (response 3 true "4900")); (1, Frame (response 4 true "2500")) ])%list.

(** The server turns the credential down. *)
Definition rejecting : script :=
  [(0, Frame (typed "auth_required")); (1, Frame (typed "auth_invalid"))].

(** The server opens with something else than a challenge. *)
Definition unchallenged : script :=
  [ (0, Frame (typed "auth_ok"))
  ; (1, Frame (response 1 true "23.0")); (1, Frame (response 2 true "81.0"))
  ; (1, Frame (response 3 true "4900")); (1, Frame (response 4 true "2500")) ].

(** The second response reports a failure. *)
Definition failing : script :=
  (handshake ++
   [ (1, Frame (response 1 true "23.0")); (1, Frame (response 2 false ""))
   ; (1, Frame (response 3 true "4900")); (1, Frame (response 4 true "2500")) ])%list.

(** A line the sensor firmware marks as an error. *)
Definition marked : Py.bytes :=
  (bytes_of "!ERR sensor fault" ++ [x0d; x0a])%list.

(** The device reports numbers, not strings. *)
Definition numeric : script :=
  (handshake ++
   [ (1, Frame (JObj [("id", JInt 1); ("success", JBool true);
                      ("result", JInt 23)])) ])%list.

(** Messages for other subscribers come in between. *)
Definition chatter (id : Z) : nat * event :=
  (2, Frame (JObj [("id", JInt id); ("type", JStr "event")])).

(** A connection on which only [inbound] is still to come. *)
Definition pending (inbound : script) : task := mkTask inbound [] false None [].

Definition world0 (srv : list script) : world := mkWorld "" [] 0 srv [].

Definition zha : ZHAReader := mkZHAReader (c_uri cfg) (c_token cfg).

(** A turn of the loop on the sample line, against one scripted server. *)
Definition turn (server : script) : outcome unit * world :=
  main_iter cfg now sen54 (world0 [server]).

Definition fetched (server : script) : outcome (option (list json)) * task :=
  get_values zha (c_vindstyrka cfg) (connect server).

End Examples.

(** ** What a fetch leaves behind *)

(** The request frame for one cluster. *)
Definition request (ieee : string) (message_id cluster : Z) : json :=
  JObj (("type", JStr "zha/devices/clusters/attributes/value")
          :: event_data message_id ieee cluster).

(** The requests for the clusters [cs], when [message_id] was the last id
    given out. *)
Fixpoint requests (ieee : string) (message_id : Z) (cs : list Z) : list json :=
  match cs with
  | [] => []
  | c :: cs' =>
    request ieee (message_id + 1) c :: requests ieee (message_id + 1) cs'
  end.

Definition auth_frame (self : ZHAReader) : json :=
  JObj [("type", JStr "auth"); ("access_token", JStr (token self))].

(** [response] answers the request [message_id]. *)
Definition answers (response : json) (message_id : Z) : Prop :=
  exists id, getitem response "id" = inr id /\ eq_int id message_id = true.

(** [response['success']] is false (or any other falsy value). *)
Definition unsuccessful (response : json) : Prop :=
  exists success,
    getitem response "success" = inr success /\ truthy success = false.

(** How the turn of the loop for one cluster went. *)
Inductive attempt : Type :=
| Answered (response result : json)
| TimedOut
| Failed (response : json).

Definition attempt_ok (message_id : Z) (a : attempt) : Prop :=
  match a with
  | Answered response result =>
    answers response message_id /\
    (exists success,
        getitem response "success" = inr success /\ truthy success = true) /\
    getitem response "result" = inr result
  | TimedOut => True
  | Failed response => answers response message_id /\ unsuccessful response
  end.

(** The turns [tr], the first of them for the id after [message_id]. *)
Fixpoint attempts_ok (message_id : Z) (tr : list attempt) : Prop :=
  match tr with
  | [] => True
  | a :: tr' =>
    attempt_ok (message_id + 1) a /\ attempts_ok (message_id + 1) tr'
  end.

Definition log_of (a : attempt) : list log_entry :=
  match a with
  | Answered _ _ => []
  | TimedOut => [ErrorTimedOut]
  | Failed response => [ErrorResponse response]
  end.

Definition value_of (a : attempt) : list json :=
  match a with
  | Answered _ result => [result]
  | _ => []
  end.

Definition is_failed (a : attempt) : bool :=
  match a with Failed _ => true | _ => false end.

Definition is_timeout (l : log_entry) : bool :=
  match l with ErrorTimedOut => true | _ => false end.

Definition timeouts (l : list log_entry) : nat :=
  List.length (filter is_timeout l).

(** What a run of the loop amounts to: a list of turns [tr], one for each
    cluster gone through, with the requests sent, the entries logged and the
    values collected that they stand for.  The loop never blocks. *)
Definition run_of (ieee : string) (cs : list Z) (message_id : Z)
    (values : list json) (s : task) (r : outcome (option (list json)))
    (s' : task) (tr : list attempt) : Prop :=
  attempts_ok message_id tr /\
  logged s' = (logged s ++ flat_map log_of tr)%list /\
  match r with
  | Done (Some vs) =>
    existsb is_failed tr = false /\ List.length tr = List.length cs /\
    vs = (values ++ flat_map value_of tr)%list /\
    sent s' = (sent s ++ requests ieee message_id cs)%list
  | Done None =>
    (exists tr0 response,
        tr = (tr0 ++ [Failed response])%list /\ existsb is_failed tr0 = false) /\
    List.length tr <= List.length cs /\
    sent s' =
      (sent s ++ requests ieee message_id (firstn (List.length tr) cs))%list
  | Raise e =>
    existsb is_failed tr = false /\ List.length tr < List.length cs /\
    sent s' =
      (sent s ++ requests ieee message_id (firstn (S (List.length tr)) cs))%list
  | Blocked | OutOfFuel => False
  end.

(** [message['type'] == 'auth_required'] *)
Definition challenge (message : json) : Prop :=
  exists ty, getitem message "type" = inr ty /\ eq_str ty "auth_required" = true.

(** [message] has a type, and it is not ['auth_ok']. *)
Definition rejection (message : json) : Prop :=
  exists ty, getitem message "type" = inr ty /\ eq_str ty "auth_ok" = false.

(** The loop accepts [line] as the serial fragment [sen54log]: it is not
    blank, decodes, is not made of commas only, and does not start with one
    of the markers ['!'] and ['#']. *)
Definition accepts (line : Py.bytes) (sen54log : string) : Prop :=
  exists text c,
    Py.decode (Py.strip line) = Some text /\
    sen54log = Py.rstrip_comma text /\
    Py.first_char sen54log = Some c /\
    c <> "!"%char /\ c <> "#"%char.

(** What the loop does with the result of the fetch, once the line is
    accepted and the clock read. *)
Definition emit (ts sen54log : string)
    (fetched : outcome (option (list json)) * world) : outcome unit * world :=
  match fetched with
  | (Done (Some ((_ :: _) as zha_values)), w') =>
    match strs zha_values with
    | None => (Raise TypeError, w')
    | Some items =>
      if Py.encodable (Py.join "," items)
      then (Done tt,
            write nl
              (write (ts ++ ";" ++ sen54log ++ ",ZHA,"
                         ++ Py.str_of_nat (List.length zha_values) ++ ","
                         ++ Py.join "," items) w'))
      else (Raise UnicodeEncodeError, w')
    end
  | (Done _, w') => (Done tt, w')
  | (Raise e, w') => (Raise e, w')
  | (Blocked, w') => (Blocked, w')
  | (OutOfFuel, w') => (OutOfFuel, w')
  end.

(** The output file as a list of records: for each line, which reading of
    the clock stamps it, and the rest of the line from the [;] on.
    [render now records] is the text of these lines under the clock [now]. *)
Fixpoint render (now : nat -> string) (records : list (nat * string)) : string :=
  match records with
  | [] => ""
  | (n, body) :: records' => now n ++ body ++ nl ++ render now records'
  end.

(** Two states of the loop that differ at most in the output file. *)
Definition same_but_file (w1 w2 : world) : Prop :=
  logger w1 = logger w2 /\ clock_reads w1 = clock_reads w2 /\
  servers w1 = servers w2 /\ fetches w1 = fetches w2.

(** [message['type'] == 'auth_ok'] *)
Definition acceptance (message : json) : Prop :=
  exists ty, getitem message "type" = inr ty /\ eq_str ty "auth_ok" = true.

(** An inbound event that [ha_await message_id] passes over: a message with
    an id, and not this one. *)
Definition other_id (message_id : Z) (te : nat * event) : Prop :=
  exists message id,
    snd te = Frame message /\ getitem message "id" = inr id /\
    eq_int id message_id = false.

(** The time a list of events takes to come in, one after the other. *)
Definition delays (l : script) : nat := list_sum (map fst l).

(** Nothing comes in for more than [n] time units. *)
Definition quiet_for (n : nat) (inbound : script) : Prop :=
  match inbound with
  | [] => True
  | (d, _) :: _ => n < d
  end.

(** The pending events after [n] time units of waiting in vain. *)
Definition age (n : nat) (inbound : script) : script :=
  match inbound with
  | [] => []
  | (d, ev) :: rest => (d - n, ev) :: rest
  end.

(** The event [ev] makes [ha_recv] or the look at the message's id raise
    [e]: it is not JSON, or the connection is closed, or the message has no
    ['id'] to be looked up. *)
Definition breaks (ev : event) (e : exn) : Prop :=
  match ev with
  | Frame message => getitem message "id" = inl e
  | Garbage => e = JSONDecodeError
  | Closed => e = ConnectionClosed
  end.

(** Nothing comes in before [n] time units are up. *)
Definition silent (n : nat) (inbound : script) : Prop :=
  match inbound with
  | [] => True
  | (d, _) :: _ => n <= d
  end.

(** What the turn for the request [message_id] takes from the connection,
    [before] being what is to come in when the request has been sent and
    [after] what is still to come when the turn is over.  A turn that is
    answered (or fails) has passed over messages with other ids and then
    received its response, all of it before five time units were up.  A
    turn that times out has passed over messages with other ids, after
    which nothing came in until the five time units were up; what is
    pending is then nearer by the time waited for it. *)
Definition exchange (message_id : Z) (a : attempt) (before after : script) : Prop :=
  match a with
  | Answered response _ | Failed response =>
    exists skipped d,
      before = (skipped ++ (d, Frame response) :: after)%list /\
      Forall (other_id message_id) skipped /\
      delays skipped + d < 5
  | TimedOut =>
    exists skipped pending,
      before = (skipped ++ pending)%list /\
      Forall (other_id message_id) skipped /\
      delays skipped < 5 /\
      silent (5 - delays skipped) pending /\
      after = age (5 - delays skipped) pending
  end.

(** The turns [tr], one after the other, the first of them for the id after
    [message_id]: each is as [attempt_ok] says and takes from the
    connection what [exchange] says. *)
Fixpoint exchanges (message_id : Z) (tr : list attempt) (before after : script)
  : Prop :=
  match tr with
  | [] => before = after
  | a :: tr' =>
    exists between,
      attempt_ok (message_id + 1) a /\
      exchange (message_id + 1) a before between /\
      exchanges (message_id + 1) tr' between after
  end.

(** The response lacks ['success'], or is a success and lacks ['result']:
    looking the key up raises [e]. *)
Definition incomplete (response : json) (e : exn) : Prop :=
  getitem response "success" = inl e \/
  ((exists success,
       getitem response "success" = inr success /\ truthy success = true) /\
   getitem response "result" = inl e).

(** The turn for the request [message_id] ends with the exception [e]:
    after messages with other ids, and before five time units are up, comes
    an event that breaks off the wait, or a response to the request that is
    incomplete. *)
Definition broke (message_id : Z) (e : exn) (before after : script) : Prop :=
  exists skipped d ev,
    before = (skipped ++ (d, ev) :: after)%list /\
    Forall (other_id message_id) skipped /\
    delays skipped + d < 5 /\
    (breaks ev e \/
     exists response,
       ev = Frame response /\ answers response message_id /\
       incomplete response e).

(** The handshake [hs] goes well, and [pre] is what the client sends in it:
    either the server opens with a message that is no challenge, and
    nothing is sent, or it opens with a challenge and accepts the
    credential sent in answer. *)
Definition shook (self : ZHAReader) (hs : script) (pre : list json) : Prop :=
  (exists d first ty,
      hs = [(d, Frame first)] /\ getitem first "type" = inr ty /\
      eq_str ty "auth_required" = false /\ pre = []) \/
  (exists d first d' auth_response,
      hs = [(d, Frame first); (d', Frame auth_response)] /\
      challenge first /\ acceptance auth_response /\
      pre = [auth_frame self]).

(** The bytes that occur in no UTF-8 text: 0xC0, 0xC1 and 0xF5 to 0xFF. *)
Definition never_utf8 (c : byte) : bool :=
  Py.in_range 192 193 c || Py.in_range 245 255 c.

(** A line of whitespace only (an empty one included). *)
Definition blank (line : Py.bytes) : Prop :=
  Forall (fun c => Py.is_space c = true) line.

(** A line the loop takes for a message of the sensor firmware. *)
Definition marked (line : Py.bytes) : Prop :=
  exists text c,
    Py.decode (Py.strip line) = Some text /\
    Py.first_char (Py.rstrip_comma text) = Some c /\
    (c = "!"%char \/ c = "#"%char).

(** The state of the loop after a fetch on the connection [server] that
    ended in the task [t]: the clock has been read, the connection is used
    up, the fetch and what it logged are on record. *)
Definition fetched_world (w : world) (servers' : list script) (t : task) : world :=
  mkWorld (log_file w) (logger w ++ logged t)%list (S (clock_reads w))
          servers' (fetches w ++ [t])%list.

(** ** Lemmas on the primitives *)

(** A sample run is settled by running it. *)
Ltac runs := vm_compute; reflexivity.

(** Both sides are the same computation, and it has not run out of fuel. *)
Ltac same_run := split; [reflexivity|discriminate].

(** A computation leaves the connection as it was, apart from its inbox. *)
Definition quiet (s s' : task) : Prop :=
  sent s' = sent s /\ logged s' = logged s /\ closed s' = closed s.

Lemma quiet_trans s1 s2 s3 : quiet s1 s2 -> quiet s2 s3 -> quiet s1 s3.
Proof.
  intros (A1 & A2 & A3) (B1 & B2 & B3).
  repeat split; congruence.
Qed.

Lemma deliver_inv ev s r s' :
  deliver ev s = (r, s') ->
  s' = s /\ r <> Blocked /\ r <> OutOfFuel /\
  (forall message, r = Done message -> ev = Frame message).
Proof.
  destruct ev; cbn; intros H; inversion H; subst;
    repeat split; try discriminate; congruence.
Qed.

(** Under a deadline [ha_recv] never blocks; it keeps the deadline set, and
    when it returns a message it has taken one event off the inbox. *)
Lemma ha_recv_timed s t r s' :
  deadline s = Some t ->
  ha_recv s = (r, s') ->
  quiet s s' /\ (exists t', deadline s' = Some t') /\
  r <> Blocked /\ r <> OutOfFuel /\
  (forall message, r = Done message ->
     List.length (inbox s) = S (List.length (inbox s'))).
Proof.
  intros Hd H. unfold ha_recv in H. rewrite Hd in H.
  destruct (inbox s) as [|[d ev] rest] eqn:Hi.
  - inversion H; subst; cbn.
    repeat split; try discriminate; eauto.
  - destruct (d <? t)%nat.
    + apply deliver_inv in H. destruct H as (-> & Hb & Hf & _).
      cbn. repeat split; eauto.
    + inversion H; subst; cbn.
      repeat split; try discriminate; eauto.
Qed.

Lemma lift_inv {A} (x : exn + A) s r s' :
  lift x s = (r, s') ->
  s' = s /\ (x = inl TimeoutError \/ r <> Raise TimeoutError) /\
  match r with
  | Done a => x = inr a
  | Raise e => x = inl e
  | _ => False
  end.
Proof.
  destruct x as [e|a]; cbn; intros H; inversion H; subst; repeat split.
  - destruct e; (right; discriminate) || (now left).
  - right; discriminate.
Qed.

Lemma getitem_not_timeout message key :
  getitem message key <> inl TimeoutError.
Proof.
  destruct message; cbn; try discriminate.
  destruct (dict_get key kv); discriminate.
Qed.

(** [ha_await] with enough fuel, under a deadline: it does not run out of
    fuel and does not block; what it returns answers [message_id]. *)
Lemma ha_await_loop_timed fuel message_id : forall s t r s',
  deadline s = Some t ->
  List.length (inbox s) < fuel ->
  ha_await_loop fuel message_id s = (r, s') ->
  quiet s s' /\ (exists t', deadline s' = Some t') /\
  r <> Blocked /\ r <> OutOfFuel /\
  (forall message, r = Done message -> answers message message_id).
Proof.
  induction fuel as [|fuel IH]; intros s t r s' Hd Hlen H; [lia|].
  cbn [ha_await_loop] in H. unfold bind at 1 in H.
  destruct (ha_recv s) as [r1 s1] eqn:Hr.
  destruct (ha_recv_timed _ _ _ _ Hd Hr) as (Q1 & (t1 & Hd1) & Hb & Hf & Hl).
  destruct r1 as [message|e| |]; try congruence.
  - unfold bind at 1 in H.
    destruct (lift (getitem message "id") s1) as [r2 s2] eqn:Hg.
    apply lift_inv in Hg. destruct Hg as (-> & _ & Hg).
    destruct r2 as [id|e| |]; try contradiction.
    + destruct (eq_int id message_id) eqn:Heq.
      * inversion H; subst. repeat split; eauto; try apply Q1; try discriminate.
        intros m Hm. inversion Hm; subst. exists id. split; assumption.
      * specialize (Hl message eq_refl).
        destruct (IH s1 t1 r s' Hd1 ltac:(lia) H) as (Q2 & D2 & R2).
        split; [eapply quiet_trans; eassumption|]. split; assumption.
    + inversion H; subst. repeat split; eauto; try apply Q1; discriminate.
  - inversion H; subst. repeat split; eauto; try apply Q1; discriminate.
Qed.

(** A message received is an event taken off the inbox. *)
Lemma ha_recv_done s message s' :
  ha_recv s = (Done message, s') ->
  List.length (inbox s) = S (List.length (inbox s')).
Proof.
  unfold ha_recv.
  destruct (inbox s) as [|[d ev] rest], (deadline s) as [t|];
    try discriminate.
  - destruct (d <? t)%nat; [|discriminate].
    intros H. apply deliver_inv in H. destruct H as (-> & _). reflexivity.
  - intros H. apply deliver_inv in H. destruct H as (-> & _). reflexivity.
Qed.

Lemma ha_await_loop_S fuel message_id s :
  ha_await_loop (S fuel) message_id s =
  match ha_recv s with
  | (Done message, s1) =>
    match getitem message "id" with
    | inl e => (Raise e, s1)
    | inr id =>
      if eq_int id message_id then (Done message, s1)
      else ha_await_loop fuel message_id s1
    end
  | (Raise e, s1) => (Raise e, s1)
  | (Blocked, s1) => (Blocked, s1)
  | (OutOfFuel, s1) => (OutOfFuel, s1)
  end.
Proof.
  cbn [ha_await_loop]. unfold bind at 1.
  destruct (ha_recv s) as [[message|e| |] s1]; try reflexivity.
  unfold bind at 1.
  destruct (getitem message "id") as [e|id]; cbn [lift raise ret];
    [reflexivity|].
  destruct (eq_int id message_id); reflexivity.
Qed.

(** The fuel [ha_await] takes is enough: with any amount of fuel above the
    number of pending events the loop does the same, and it never runs out
    of fuel. *)
Lemma ha_await_fuel message_id : forall fuel s,
  List.length (inbox s) < fuel ->
  ha_await_loop fuel message_id s = ha_await message_id s /\
  fst (ha_await message_id s) <> OutOfFuel.
Proof.
  assert (Hstable : forall fuel1 fuel2 s,
             List.length (inbox s) < fuel1 ->
             List.length (inbox s) < fuel2 ->
             ha_await_loop fuel1 message_id s = ha_await_loop fuel2 message_id s /\
             fst (ha_await_loop fuel1 message_id s) <> OutOfFuel).
  { induction fuel1 as [|fuel1 IH]; intros fuel2 s H1 H2; [lia|].
    destruct fuel2 as [|fuel2]; [lia|].
    rewrite !ha_await_loop_S.
    destruct (ha_recv s) as [[message|e| |] s1] eqn:Hr;
      try same_run.
    - apply ha_recv_done in Hr.
      destruct (getitem message "id") as [e|id]; [same_run|].
      destruct (eq_int id message_id); [same_run|].
      apply IH; lia.
    - exfalso. unfold ha_recv in Hr.
      destruct (inbox s) as [|[d ev] rest], (deadline s) as [t|];
        try discriminate;
        [destruct (d <? t)%nat; [|discriminate]|];
        apply deliver_inv in Hr; destruct Hr as (_ & _ & Hf & _); congruence. }
  intros fuel s H. unfold ha_await.
  destruct (Hstable fuel (S (List.length (inbox s))) s H ltac:(lia)) as (E & Hf).
  split; [exact E|]. rewrite <- E. exact Hf.
Qed.

Lemma wait_for_ha_await message_id s r s' :
  wait_for (ha_await message_id) 5 s = (r, s') ->
  quiet s s' /\ deadline s' = deadline s /\
  r <> Blocked /\ r <> OutOfFuel /\
  (forall message, r = Done message -> answers message message_id).
Proof.
  unfold wait_for, ha_await. intros H.
  destruct (ha_await_loop _ _ _) as [r1 s1] eqn:Hl in H.
  inversion H; subst; clear H.
  apply (ha_await_loop_timed _ _ _ 5) in Hl; [|reflexivity|cbn; lia].
  destruct Hl as ((Q1 & Q2 & Q3) & _ & R).
  split; [|split; [reflexivity|exact R]].
  repeat split; cbn in *; assumption.
Qed.

(** One turn of the loop, from the [try] on: it sends nothing; it either
    answers, times out or fails as an [attempt] says, or it raises. *)
Lemma await_response_inv message_id values s r s' :
  await_response message_id values s = (r, s') ->
  sent s' = sent s /\ closed s' = closed s /\ deadline s' = deadline s /\
  match r with
  | Done (Next values') =>
    exists a, attempt_ok message_id a /\ is_failed a = false /\
      values' = (values ++ value_of a)%list /\
      logged s' = (logged s ++ log_of a)%list
  | Done (Return v) =>
    v = None /\
    exists response, attempt_ok message_id (Failed response) /\
      logged s' = (logged s ++ [ErrorResponse response])%list
  | Raise e => logged s' = logged s
  | Blocked | OutOfFuel => False
  end.
Proof.
  unfold await_response, try_except_timeout. unfold bind at 1.
  destruct (wait_for (ha_await message_id) 5 s) as [r1 s1] eqn:Hw.
  destruct (wait_for_ha_await _ _ _ _ Hw) as ((Q1 & Q2 & Q3) & Hd & Hb & Hf & Ha).
  destruct r1 as [response|e| |]; try congruence.
  - specialize (Ha response eq_refl).
    unfold bind at 1.
    destruct (getitem response "success") as [e|success] eqn:Hs; cbn.
    + pose proof (getitem_not_timeout response "success") as Hn.
      rewrite Hs in Hn.
      destruct e; intros H; inversion H; subst; try tauto; congruence.
    + destruct (truthy success) eqn:Ht; cbn.
      * destruct (getitem response "result") as [e|result] eqn:Hres; cbn.
        -- pose proof (getitem_not_timeout response "result") as Hn.
           rewrite Hres in Hn.
           destruct e; intros H; inversion H; subst; try tauto; congruence.
        -- intros H; inversion H; subst.
           repeat split; try assumption.
           exists (Answered response result). cbn.
           rewrite Q2, app_nil_r. repeat split; eauto.
      * intros H; inversion H; subst. cbn.
        repeat split; try assumption.
        exists response. rewrite Q2. repeat split; try assumption.
        exists success. split; assumption.
  - destruct e; intros H; inversion H; subst; cbn;
      repeat split; try assumption.
    exists TimedOut. cbn. rewrite Q2, app_nil_r. repeat split.
Qed.

(** ** The loop over the clusters *)

Lemma for_clusters_run ieee : forall cs message_id values s r s',
  for_clusters ieee cs message_id values s = (r, s') ->
  closed s' = closed s /\ deadline s' = deadline s /\
  exists tr, run_of ieee cs message_id values s r s' tr.
Proof.
  induction cs as [|c cs IH]; intros message_id values s r s' H.
  - inversion H; subst. repeat split. exists []. unfold run_of. cbn.
    rewrite ?app_nil_r. repeat split.
  - cbn [for_clusters] in H. unfold bind at 1, ha_send at 1 in H.
    unfold bind at 1 in H.
    set (s0 := push_sent _ s) in H.
    destruct (await_response (message_id + 1) values s0) as [r1 s1] eqn:Ha.
    apply await_response_inv in Ha. destruct Ha as (Hs0 & Hc & Hd & Ha).
    subst s0. cbn [push_sent sent closed deadline logged] in Hs0, Hc, Hd, Ha.
    fold (request ieee (message_id + 1) c) in Hs0.
    destruct r1 as [[values'|v]|e| |]; try contradiction.
    + destruct Ha as (a & Hok & Hnf & -> & Hlog).
      apply IH in H. destruct H as (Hc' & Hd' & tr & Hatt & Hlog' & Hr).
      split; [congruence|]. split; [congruence|].
      exists (a :: tr). split; [split; assumption|].
      split; [rewrite Hlog', Hlog; cbn; rewrite <- app_assoc; reflexivity|].
      cbn [existsb List.length firstn requests flat_map]. rewrite Hnf. cbn [orb].
      destruct r as [[vs|]|e| |]; try contradiction.
      * destruct Hr as (Hf & Hl & -> & Hsent).
        repeat split; try assumption; try (f_equal; assumption).
        -- rewrite <- app_assoc. reflexivity.
        -- rewrite Hsent, Hs0, <- app_assoc. reflexivity.
      * destruct Hr as ((tr0 & response & -> & Hf) & Hl & Hsent).
        split; [|split].
        -- exists (a :: tr0), response. cbn. rewrite Hnf. split; auto.
        -- lia.
        -- rewrite Hsent, Hs0, <- app_assoc. reflexivity.
      * destruct Hr as (Hf & Hl & Hsent).
        repeat split; try assumption; try lia.
        rewrite Hsent, Hs0, <- app_assoc. reflexivity.
    + destruct Ha as (-> & response & Hok & Hlog).
      inversion H; subst.
      repeat split; try assumption.
      exists [Failed response]. split; [split; [exact Hok|exact I]|].
      split; [rewrite Hlog; reflexivity|].
      split; [exists [], response; split; reflexivity|].
      split; [cbn; lia|]. cbn. rewrite Hs0. reflexivity.
    + inversion H; subst.
      repeat split; try assumption.
      exists []. split; [exact I|].
      split; [cbn; rewrite app_nil_r; assumption|].
      split; [reflexivity|]. split; [cbn; lia|].
      cbn. rewrite Hs0. reflexivity.
Qed.

(** ** Authorization and the whole fetch *)

Lemma ha_recv_untimed s r s' :
  deadline s = None ->
  ha_recv s = (r, s') ->
  quiet s s' /\ deadline s' = None /\ r <> OutOfFuel.
Proof.
  intros Hd H. unfold ha_recv in H. rewrite Hd in H.
  destruct (inbox s) as [|[d ev] rest] eqn:Hi.
  - inversion H; subst. repeat split; try assumption; discriminate.
  - apply deliver_inv in H. destruct H as (-> & _ & Hf & _).
    cbn. repeat split; assumption.
Qed.

(** [authorize] logs nothing and sends at most the credential. *)
Lemma authorize_inv self s r s' :
  deadline s = None ->
  authorize self s = (r, s') ->
  logged s' = logged s /\ closed s' = closed s /\ deadline s' = None /\
  r <> OutOfFuel /\
  (sent s' = sent s \/ sent s' = (sent s ++ [auth_frame self])%list).
Proof.
  intros Hd H. unfold authorize in H. unfold bind at 1 in H.
  destruct (ha_recv s) as [r1 s1] eqn:H1.
  destruct (ha_recv_untimed _ _ _ Hd H1) as ((A1 & A2 & A3) & Hd1 & Hf1).
  destruct r1 as [first|e| |]; try congruence;
    try (inversion H; subst; repeat split; try assumption;
         try discriminate; now left).
  unfold bind at 1 in H.
  destruct (getitem first "type") as [e|ty]; cbn [lift raise ret] in H.
  { inversion H; subst. repeat split; try assumption; try discriminate.
    now left. }
  destruct (eq_str ty "auth_required").
  2:{ inversion H; subst. repeat split; try assumption; try discriminate.
      now left. }
  unfold bind at 1, ha_send at 1 in H. unfold bind at 1 in H.
  set (s2 := push_sent _ s1) in H.
  destruct (ha_recv s2) as [r3 s3] eqn:H3.
  assert (Hd2 : deadline s2 = None) by exact Hd1.
  destruct (ha_recv_untimed _ _ _ Hd2 H3) as ((B1 & B2 & B3) & Hd3 & Hf3).
  subst s2. cbn [push_sent sent logged closed] in B1, B2, B3.
  fold (auth_frame self) in B1.
  assert (Hs : sent s3 = (sent s ++ [auth_frame self])%list) by congruence.
  assert (Hl : logged s3 = logged s) by congruence.
  assert (Hc : closed s3 = closed s) by congruence.
  destruct r3 as [auth_response|e| |]; try congruence;
    try (inversion H; subst; repeat split; try assumption;
         try discriminate; now right).
  unfold bind at 1 in H.
  destruct (getitem auth_response "type") as [e|ty']; cbn [lift raise ret] in H.
  { inversion H; subst. repeat split; try assumption; try discriminate.
    now right. }
  destruct (negb (eq_str ty' "auth_ok")); inversion H; subst;
    repeat split; try assumption; try discriminate; now right.
Qed.

Lemma get_values_unfold self ieee s :
  get_values self ieee s =
  match authorize self s with
  | (Done _, sa) =>
    match for_clusters ieee clusters 0 [] sa with
    | (Done v, t) => (Done v, close t)
    | (Raise e, t) => (Raise e, close t)
    | r => r
    end
  | (Raise e, sa) => (Raise e, close sa)
  | (Blocked, sa) => (Blocked, sa)
  | (OutOfFuel, sa) => (OutOfFuel, sa)
  end.
Proof.
  unfold get_values, async_with, bind.
  destruct (authorize self s) as [[[]|e| |] sa]; reflexivity.
Qed.

(** A fetch on a fresh connection: it never runs out of fuel; unless it is
    blocked (waiting for the handshake) it leaves the connection closed; it
    sends the credential or not and then, if it gets as far as the loop,
    what the turns [tr] of the loop say. *)
Lemma get_values_run self ieee server r t :
  get_values self ieee (connect server) = (r, t) ->
  r <> OutOfFuel /\ (r <> Blocked -> closed t = true) /\
  exists ra sa,
    authorize self (connect server) = (ra, sa) /\
    (sent sa = [] \/ sent sa = [auth_frame self]) /\ logged sa = [] /\
    ((sent t = sent sa /\ logged t = [] /\
      (r = Blocked \/ exists e, r = Raise e)) \/
     exists tr, run_of ieee clusters 0 [] sa r t tr).
Proof.
  rewrite get_values_unfold. intros H.
  destruct (authorize self (connect server)) as [ra sa] eqn:Ha.
  apply authorize_inv in Ha; [|reflexivity].
  destruct Ha as (Hl & Hc & Hd & Hf & Hs). cbn in Hl, Hc, Hs.
  destruct ra as [[]|e| |]; try congruence.
  - destruct (for_clusters ieee clusters 0 [] sa) as [r0 t0] eqn:Hfc.
    apply for_clusters_run in Hfc.
    destruct Hfc as (Hc' & Hd' & tr & Hatt & Hlog & Hr).
    assert (Hrun : forall t', sent t' = sent t0 -> logged t' = logged t0 ->
              run_of ieee clusters 0 [] sa r0 t' tr).
    { intros t' E1 E2. unfold run_of. rewrite E1, E2.
      split; [assumption|]. split; assumption. }
    destruct r0 as [v|e| |]; try contradiction; inversion H; subst;
      (split; [discriminate|]); (split; [reflexivity|]);
      exists (Done tt), sa; (split; [reflexivity|]);
      (split; [assumption|]); (split; [assumption|]);
      right; exists tr; apply Hrun; reflexivity.
  - inversion H; subst. split; [discriminate|]. split; [reflexivity|].
    exists (Raise e), sa. split; [reflexivity|].
    split; [assumption|]. split; [assumption|].
    left. repeat split; eauto.
  - inversion H; subst. split; [discriminate|]. split; [congruence|].
    exists Blocked, t. split; [reflexivity|].
    split; [assumption|]. split; [assumption|].
    left. repeat split; eauto.
Qed.

(** ** Strings *)

Lemma append_assoc (a b c : string) : (a ++ b) ++ c = a ++ b ++ c.
Proof. induction a as [|x a IH]; cbn; [reflexivity|now rewrite IH]. Qed.

Lemma append_nil_r (a : string) : a ++ "" = a.
Proof. induction a as [|x a IH]; cbn; [reflexivity|now rewrite IH]. Qed.

(** ** The turns of a run *)

Lemma strs_map values : forall items,
  strs values = Some items -> values = map JStr items.
Proof.
  induction values as [|v values IH]; intros items H.
  - inversion H; reflexivity.
  - destruct v; try discriminate. cbn in H.
    destruct (strs values) as [items'|]; [|discriminate].
    inversion H; subst. cbn. f_equal. apply IH. reflexivity.
Qed.

(** Without a failed turn, every turn either gave a value or logged a
    timeout. *)
Lemma turns_count tr :
  existsb is_failed tr = false ->
  List.length (flat_map value_of tr) + timeouts (flat_map log_of tr)
  = List.length tr.
Proof.
  unfold timeouts. induction tr as [|a tr IH]; [reflexivity|].
  destruct a; cbn; intros H; try discriminate; rewrite <- (IH H); lia.
Qed.

(** Without a failed turn and without a timeout, every turn was answered. *)
Lemma turns_all_answered tr :
  existsb is_failed tr = false ->
  timeouts (flat_map log_of tr) = 0 ->
  Forall (fun a => exists response result, a = Answered response result) tr.
Proof.
  unfold timeouts. induction tr as [|a tr IH]; [constructor|].
  destruct a; cbn; intros H Ht; try discriminate.
  constructor; [eauto|]. apply IH; assumption.
Qed.

(** ** One turn of the main loop *)

Lemma fetch_log_file zha ieee w r w' :
  fetch zha ieee w = (r, w') -> log_file w' = log_file w.
Proof.
  unfold fetch. destruct (servers w) as [|server servers'].
  - intros H; inversion H; reflexivity.
  - destruct (get_values zha ieee (connect server)) as [r0 t].
    intros H; inversion H; reflexivity.
Qed.

(** A turn that changes the output file has accepted its line, fetched a
    non-empty list of strings on the next connection, and appended exactly
    one line made of the timestamp read before the fetch, the serial
    fragment, [ZHA], the number of values and the values. *)
Lemma main_iter_written cfg now line w r w' :
  main_iter cfg now line w = (r, w') ->
  log_file w' <> log_file w ->
  exists text server servers' t item items,
    Py.decode (Py.strip line) = Some text /\
    servers w = server :: servers' /\
    get_values (mkZHAReader (c_uri cfg) (c_token cfg)) (c_vindstyrka cfg)
               (connect server)
      = (Done (Some (map JStr (item :: items))), t) /\
    r = Done tt /\
    fetches w' = (fetches w ++ [t])%list /\
    log_file w' =
      log_file w
      ++ (now (clock_reads w) ++ ";" ++ Py.rstrip_comma text ++ ",ZHA,"
            ++ Py.str_of_nat (List.length (item :: items)) ++ ","
            ++ Py.join "," (item :: items))
      ++ nl.
Proof.
  unfold main_iter. intros H Hneq.
  destruct (Py.bytes_truthy (Py.strip line)); [|inversion H; subst; tauto].
  destruct (Py.decode (Py.strip line)) as [text|]; [|inversion H; subst; tauto].
  destruct (Py.first_char (Py.rstrip_comma text)) as [c|];
    [|inversion H; subst; tauto].
  destruct (Ascii.eqb c "!" || Ascii.eqb c "#")%bool;
    [inversion H; subst; cbn in Hneq; tauto|].
  destruct (fetch _ _ (tick w)) as [rf wf] eqn:Hf.
  pose proof (fetch_log_file _ _ _ _ _ Hf) as Hlf. cbn in Hlf.
  destruct rf as [[[|v values]|]|e| |];
    try (inversion H; subst; tauto).
  destruct (strs (v :: values)) as [items|] eqn:Hs;
    [|inversion H; subst; tauto].
  apply strs_map in Hs.
  destruct (Py.encodable (Py.join "," items)); [|inversion H; subst; tauto].
  destruct items as [|item items]; [discriminate|].
  unfold fetch in Hf. cbn [servers tick] in Hf.
  destruct (servers w) as [|server servers'] eqn:Hsrv; [discriminate|].
  destruct (get_values _ _ (connect server)) as [r0 t] eqn:Hg.
  inversion Hf; subst r0 wf; clear Hf.
  inversion H; subst r w'; clear H.
  cbn [map] in Hs. injection Hs as -> ->.
  exists text, server, servers', t, item, items.
  cbn [log_file write fetches map List.length].
  rewrite length_map, append_assoc. repeat split. exact Hg.
Qed.

(** Neither a turn of the main loop nor the loop runs out of fuel. *)
Lemma main_iter_fuel cfg now line w :
  fst (main_iter cfg now line w) <> OutOfFuel.
Proof.
  unfold main_iter.
  destruct (Py.bytes_truthy _); [|discriminate].
  destruct (Py.decode _) as [text|]; [|discriminate].
  destruct (Py.first_char _) as [c|]; [|discriminate].
  destruct (_ || _)%bool; [discriminate|].
  unfold fetch. cbn [servers tick].
  destruct (servers w) as [|server servers']; [discriminate|].
  destruct (get_values _ _ (connect server)) as [rf t] eqn:Hg.
  apply get_values_run in Hg. destruct Hg as (Hf & _).
  destruct rf as [[[|v vs]|]|e| |]; try discriminate; [|congruence].
  destruct (strs (v :: vs)) as [items|]; [|discriminate].
  destruct (Py.encodable _); discriminate.
Qed.

Lemma main_loop_fuel cfg now lines : forall w,
  fst (main_loop cfg now lines w) <> OutOfFuel.
Proof.
  induction lines as [|line lines IH]; intros w; [discriminate|].
  cbn [main_loop]. pose proof (main_iter_fuel cfg now line w) as Hf.
  destruct (main_iter cfg now line w) as [[[]|e| |] w'];
    try discriminate; [apply IH|contradiction].
Qed.

(** ** Which turns write a line *)

Lemma bytes_truthy_decode line text c :
  Py.decode (Py.strip line) = Some text ->
  Py.first_char (Py.rstrip_comma text) = Some c ->
  Py.bytes_truthy (Py.strip line) = true.
Proof.
  destruct (Py.strip line); [|reflexivity].
  cbn. intros H; inversion H; subst. discriminate.
Qed.

(** On an accepted line the loop reads the clock, fetches and emits. *)
Lemma main_iter_accepted cfg now line w sen54log :
  accepts line sen54log ->
  main_iter cfg now line w =
  emit (now (clock_reads w)) sen54log
       (fetch (mkZHAReader (c_uri cfg) (c_token cfg)) (c_vindstyrka cfg)
              (tick w)).
Proof.
  intros (text & c & Hd & -> & Hc & H1 & H2). unfold main_iter.
  rewrite (bytes_truthy_decode _ _ _ Hd Hc), Hd, Hc.
  destruct (Ascii.eqb_spec c "!"); [contradiction|].
  destruct (Ascii.eqb_spec c "#"); [contradiction|].
  reflexivity.
Qed.

Lemma no_failure_no_error_response tr response :
  existsb is_failed tr = false ->
  ~ In (ErrorResponse response) (flat_map log_of tr).
Proof.
  induction tr as [|a tr IH]; cbn; [tauto|].
  destruct a; cbn; intros H; try discriminate; [auto|].
  intros [E|E]; [discriminate|]. exact (IH H E).
Qed.

(** A fetch that logs an unsuccessful response returns [None]. *)
Lemma get_values_failed self ieee server r t response :
  get_values self ieee (connect server) = (r, t) ->
  In (ErrorResponse response) (logged t) ->
  r = Done None.
Proof.
  intros H Hin.
  destruct (get_values_run _ _ _ _ _ H) as (_ & _ & ra & sa & _ & _ & Hl & Hrun).
  destruct Hrun as [(_ & E & _)|(tr & _ & Hlg & Hr)].
  - rewrite E in Hin. destruct Hin.
  - rewrite Hlg, Hl in Hin. cbn in Hin.
    destruct r as [[vs|]|e| |]; try contradiction; [ |reflexivity| ];
      destruct Hr as (Hnf & _);
      elim (no_failure_no_error_response _ _ Hnf Hin).
Qed.




(** A turn of the main loop whose fetch did not return a list writes
    nothing. *)
Lemma main_iter_aborted cfg now line w r w' server rf t :
  main_iter cfg now line w = (r, w') ->
  hd_error (servers w) = Some server ->
  get_values (mkZHAReader (c_uri cfg) (c_token cfg)) (c_vindstyrka cfg)
             (connect server) = (rf, t) ->
  (forall vs, rf <> Done (Some vs)) ->
  log_file w' = log_file w.
Proof.
  intros H Hsrv Hg Hno.
  destruct (string_dec (log_file w') (log_file w)) as [E|Hneq]; [exact E|].
  exfalso.
  destruct (main_iter_written _ _ _ _ _ _ H Hneq)
    as (text & server1 & servers' & t1 & item & items
        & _ & Hsrv1 & Hg1 & _).
  rewrite Hsrv1 in Hsrv. injection Hsrv as ->.
  rewrite Hg in Hg1. injection Hg1 as -> _. eapply Hno. reflexivity.
Qed.


(** ** Authentication *)

(** A challenge is answered with the credential, whatever comes next. *)
Lemma authorize_challenged self s d first rest r s' :
  deadline s = None ->
  inbox s = (d, Frame first) :: rest ->
  challenge first ->
  authorize self s = (r, s') ->
  sent s' = (sent s ++ [auth_frame self])%list.
Proof.
  intros Hd Hi (ty & Hty & Hc) H.
  unfold authorize in H. unfold bind at 1, ha_recv at 1 in H.
  rewrite Hi, Hd in H. cbn [deliver ret] in H.
  unfold bind at 1 in H. rewrite Hty in H. cbn [lift ret] in H.
  rewrite Hc in H.
  unfold bind at 1, ha_send at 1 in H. unfold bind at 1 in H.
  set (s2 := push_sent _ _) in H.
  destruct (ha_recv s2) as [r3 s3] eqn:H3.
  apply ha_recv_untimed in H3; [|exact Hd].
  destruct H3 as ((B1 & _) & _).
  assert (Hs : sent s3 = (sent s ++ [auth_frame self])%list) by exact B1.
  destruct r3 as [auth_response|e| |]; try (inversion H; subst; exact Hs).
  unfold bind at 1 in H.
  destruct (getitem auth_response "type") as [e|ty']; cbn [lift raise ret] in H;
    [inversion H; subst; exact Hs|].
  destruct (negb (eq_str ty' "auth_ok")); inversion H; subst; exact Hs.
Qed.

(** A rejected credential raises, with nothing sent but the credential. *)
Lemma authorize_rejected self d first d' auth_response rest snt cl lg :
  challenge first ->
  rejection auth_response ->
  authorize self
    (mkTask ((d, Frame first) :: (d', Frame auth_response) :: rest) snt cl None lg)
  = (Raise (AuthFailed auth_response),
     mkTask rest (snt ++ [auth_frame self])%list cl None lg).
Proof.
  intros (ty & Hty & Hc) (ty' & Hty' & Hr).
  unfold authorize, bind, ha_recv. cbn. rewrite Hty. cbn. rewrite Hc. cbn.
  rewrite Hty'. cbn. rewrite Hr. reflexivity.
Qed.

(** Anything else than a challenge is passed over: no credential is sent. *)
Lemma authorize_unchallenged self d first ty rest snt cl lg :
  getitem first "type" = inr ty ->
  eq_str ty "auth_required" = false ->
  authorize self (mkTask ((d, Frame first) :: rest) snt cl None lg)
  = (Done tt, mkTask rest snt cl None lg).
Proof.
  intros Hty Hc.
  unfold authorize, bind, ha_recv. cbn. rewrite Hty. cbn. rewrite Hc.
  reflexivity.
Qed.

Lemma get_values_rejected self ieee d first d' auth_response rest :
  challenge first ->
  rejection auth_response ->
  get_values self ieee
    (connect ((d, Frame first) :: (d', Frame auth_response) :: rest))
  = (Raise (AuthFailed auth_response),
     mkTask rest [auth_frame self] true None []).
Proof.
  intros Hc Hr. rewrite get_values_unfold. unfold connect.
  rewrite (authorize_rejected _ _ _ _ _ _ _ _ _ Hc Hr). reflexivity.
Qed.

(** The requests a run of the loop has sent: those for the first [k]
    clusters, at least one when there is a cluster at all, and all of them
    when the loop ran to its end. *)
Lemma run_sent ieee cs message_id values s r s' tr :
  run_of ieee cs message_id values s r s' tr ->
  exists k,
    k <= List.length cs /\ (cs <> [] -> 1 <= k) /\
    sent s' = (sent s ++ requests ieee message_id (firstn k cs))%list /\
    (forall vs, r = Done (Some vs) -> k = List.length cs).
Proof.
  intros (_ & _ & Hr).
  destruct r as [[vs|]|e| |]; try contradiction.
  - destruct Hr as (_ & Hl & _ & Hs). exists (List.length cs).
    rewrite firstn_all. repeat split; auto.
    destruct cs; [congruence|cbn; lia].
  - destruct Hr as ((tr0 & response & -> & _) & Hl & Hs).
    exists (List.length (tr0 ++ [Failed response])).
    rewrite length_app in *. cbn in *.
    repeat split; auto; try lia. discriminate.
  - destruct Hr as (_ & Hl & Hs). exists (S (List.length tr)).
    repeat split; auto; try lia. discriminate.
Qed.

(** C3, as the code has it.  When the server rejects the credential on the
    fetch for an accepted line, [get_values] raises and nothing in [main]
    catches the exception: the main loop ends with it whatever serial lines
    are still to come, no line is written, the logger gets nothing, and the
    connection of the fetch is closed. *)
Theorem C3_auth_rejected_ends_loop
    cfg now line lines w sen54log d first d' auth_response rest servers' :
  accepts line sen54log ->
  servers w = ((d, Frame first) :: (d', Frame auth_response) :: rest) :: servers' ->
  challenge first ->
  rejection auth_response ->
  exists w' t,
    main_loop cfg now (line :: lines) w = (Raise (AuthFailed auth_response), w') /\
    log_file w' = log_file w /\
    logger w' = logger w /\
    servers w' = servers' /\
    fetches w' = (fetches w ++ [t])%list /\ closed t = true.
Proof.
  intros Hacc Hsrv Hc Hr.
  cbn [main_loop]. rewrite (main_iter_accepted _ _ _ _ _ Hacc).
  unfold fetch. cbn [servers tick]. rewrite Hsrv.
  rewrite (get_values_rejected _ _ _ _ _ _ _ Hc Hr). cbn.
  eexists _, _. split; [reflexivity|]. cbn.
  rewrite app_nil_r. repeat split.
Qed.

(** C3, as stated, fails: after a rejected credential the loop does not go
    on to the second line (its server is never contacted and nothing is
    written), and nothing has been logged. *)
Lemma C3_rejected_auth_is_fatal :
  let (r, w') :=
    main Examples.cfg Examples.now "" [Examples.sen54; Examples.sen54]
         [Examples.rejecting; Examples.all_four] in
  r = Raise (AuthFailed (Examples.typed "auth_invalid")) /\
  logger w' = [] /\ log_file w' = "" /\
  servers w' = [Examples.all_four] /\ List.length (fetches w') = 1.
Proof. vm_compute. repeat split. Qed.

(** C4, as the code has it.  When the first inbound message is a challenge,
    the credential is the first frame sent, before any cluster request, and
    a response to it that is not [auth_ok] makes the call raise, with the
    connection closed and nothing else sent.  When the first message is of
    any other type, the call does not object: it sends no credential and
    starts with the cluster requests. *)
Theorem C4_authentication self ieee d first ty rest r t :
  getitem first "type" = inr ty ->
  get_values self ieee (connect ((d, Frame first) :: rest)) = (r, t) ->
  (eq_str ty "auth_required" = true ->
   (exists more, sent t = auth_frame self :: more) /\
   (forall d' auth_response rest',
      rest = (d', Frame auth_response) :: rest' ->
      rejection auth_response ->
      r = Raise (AuthFailed auth_response) /\ closed t = true /\
      sent t = [auth_frame self] /\ logged t = [])) /\
  (eq_str ty "auth_required" = false ->
   exists k, 1 <= k <= 4 /\ sent t = requests ieee 0 (firstn k clusters)).
Proof.
  intros Hty H. split.
  - intros Hc. assert (Hch : challenge first) by (exists ty; auto). split.
    + destruct (get_values_run _ _ _ _ _ H)
        as (_ & _ & ra & sa & Ha & _ & _ & Hrun).
      apply (authorize_challenged _ _ d first rest) in Ha;
        try reflexivity; try assumption.
      cbn in Ha.
      destruct Hrun as [(Hs & _)|(tr & Hrun)].
      * exists []. congruence.
      * apply run_sent in Hrun. destruct Hrun as (k & _ & _ & Hs & _).
        rewrite Hs, Ha. cbn. eauto.
    + intros d' auth_response rest' -> Hr.
      rewrite (get_values_rejected _ _ _ _ _ _ _ Hch Hr) in H.
      inversion H; subst. repeat split.
  - intros Hc. rewrite get_values_unfold in H. unfold connect in H.
    rewrite (authorize_unchallenged _ _ _ _ _ _ _ _ Hty Hc) in H.
    destruct (for_clusters ieee clusters 0 [] _) as [r0 t0] eqn:Hfc in H.
    apply for_clusters_run in Hfc. destruct Hfc as (_ & _ & tr & Hrun).
    pose proof Hrun as (_ & _ & Hr).
    apply run_sent in Hrun. destruct Hrun as (k & Hk & Hk1 & Hs & _).
    cbn in Hs, Hk. exists k. split; [split; [apply Hk1; discriminate|exact Hk]|].
    destruct r0 as [v|e| |]; try contradiction; inversion H; subst; exact Hs.
Qed.

(** C4, as stated, fails: the first inbound message is not a challenge, and
    the call goes through all the same, sending the four cluster requests
    and no credential. *)
Lemma C4_no_challenge_no_credential :
  let (r, t) := Examples.fetched Examples.unchallenged in
  r = Done (Some [JStr "23.0"; JStr "81.0"; JStr "4900"; JStr "2500"]) /\
  sent t = requests (c_vindstyrka Examples.cfg) 0 clusters /\
  ~ In (auth_frame Examples.zha) (sent t).
Proof.
  vm_compute. repeat split.
  intros [E|[E|[E|[E|[]]]]]; discriminate.
Qed.

(** ** Turns of the loop over the clusters, one at a time *)

Lemma for_clusters_cons ieee cluster cs message_id values s :
  for_clusters ieee (cluster :: cs) message_id values s =
  match await_response (message_id + 1) values
          (push_sent (request ieee (message_id + 1) cluster) s) with
  | (Done (Next values'), s1) => for_clusters ieee cs (message_id + 1) values' s1
  | (Done (Return v), s1) => (Done v, s1)
  | (Raise e, s1) => (Raise e, s1)
  | (Blocked, s1) => (Blocked, s1)
  | (OutOfFuel, s1) => (OutOfFuel, s1)
  end.
Proof.
  cbn [for_clusters]. unfold bind at 1, ha_send at 1. unfold bind at 1.
  fold (request ieee (message_id + 1) cluster).
  destruct (await_response _ _ _) as [[[values'|v]|e| |] s1]; reflexivity.
Qed.

Lemma await_response_timeout message_id values s s1 :
  wait_for (ha_await message_id) 5 s = (Raise TimeoutError, s1) ->
  await_response message_id values s
  = (Done (Next values), push_log ErrorTimedOut s1).
Proof.
  intros H. unfold await_response, try_except_timeout. unfold bind at 1.
  rewrite H. reflexivity.
Qed.

Lemma await_response_unsuccessful message_id values s response s1 :
  wait_for (ha_await message_id) 5 s = (Done response, s1) ->
  unsuccessful response ->
  await_response message_id values s
  = (Done (Return None), push_log (ErrorResponse response) s1).
Proof.
  intros H (success & Hs & Ht).
  unfold await_response, try_except_timeout. unfold bind at 1.
  rewrite H. unfold bind at 1. rewrite Hs. cbn [lift ret]. rewrite Ht.
  reflexivity.
Qed.

Lemma attempts_ok_last tr : forall message_id a,
  attempts_ok message_id (tr ++ [a]) ->
  attempt_ok (message_id + Z.of_nat (List.length (tr ++ [a]))) a.
Proof.
  induction tr as [|b tr IH]; intros message_id a; cbn [app attempts_ok].
  - intros [H _]. exact H.
  - intros [_ H]. apply IH in H.
    replace (message_id + Z.of_nat (List.length (b :: tr ++ [a])))%Z
      with (message_id + 1 + Z.of_nat (List.length (tr ++ [a])))%Z;
      [exact H|].
    cbn [List.length]. lia.
Qed.

(** C5. (1) In the turn of the loop for a cluster, when the awaited
    response arrives with a false [success], the failure is logged and
    [get_values] returns [None] there and then: of the clusters still to
    come ([cs], whatever they are) none is requested.  (2) For a turn of
    the main loop whose fetch logged such a failure: the fetch returned
    [None] with the connection closed, the failure is the last thing it
    logged, the last frame it sent is the request that the response
    answers, and no line is written. *)
Theorem C5_unsuccessful_response_aborts :
  (forall ieee cluster cs message_id values s response s1,
      wait_for (ha_await (message_id + 1)) 5
               (push_sent (request ieee (message_id + 1) cluster) s)
        = (Done response, s1) ->
      unsuccessful response ->
      for_clusters ieee (cluster :: cs) message_id values s
        = (Done None, push_log (ErrorResponse response) s1) /\
      sent s1 = (sent s ++ [request ieee (message_id + 1) cluster])%list) /\
  (forall cfg now line w r w' server rf t response,
      main_iter cfg now line w = (r, w') ->
      hd_error (servers w) = Some server ->
      get_values (mkZHAReader (c_uri cfg) (c_token cfg)) (c_vindstyrka cfg)
                 (connect server) = (rf, t) ->
      In (ErrorResponse response) (logged t) ->
      rf = Done None /\ closed t = true /\
      (exists l, logged t = (l ++ [ErrorResponse response])%list) /\
      (exists pre k,
          1 <= k <= 4 /\ answers response (Z.of_nat k) /\
          unsuccessful response /\
          sent t = (pre ++ requests (c_vindstyrka cfg) 0 (firstn k clusters))%list) /\
      log_file w' = log_file w).
Proof.
  split.
  - intros ieee cluster cs message_id values s response s1 Hw Hu.
    rewrite for_clusters_cons.
    rewrite (await_response_unsuccessful _ _ _ _ _ Hw Hu).
    split; [reflexivity|].
    apply wait_for_ha_await in Hw. destruct Hw as ((Hs & _) & _). exact Hs.
  - intros cfg now line w r w' server rf t response H Hsrv Hg Hin.
    pose proof (get_values_failed _ _ _ _ _ _ Hg Hin) as ->.
    destruct (get_values_run _ _ _ _ _ Hg)
      as (_ & Hcl & ra & sa & _ & _ & Hl & Hrun).
    split; [reflexivity|]. split; [apply Hcl; discriminate|].
    destruct Hrun as [(_ & _ & [E|[e E]])|(tr & Hatt & Hlg & Hr)];
      try discriminate.
    destruct Hr as ((tr0 & response' & -> & Hnf) & Hlen & Hs).
    rewrite Hl, flat_map_app in Hlg. cbn in Hlg.
    assert (response' = response) as ->.
    { rewrite Hlg in Hin. apply in_app_or in Hin.
      destruct Hin as [Hin|[E|[]]]; [|congruence].
      elim (no_failure_no_error_response _ _ Hnf Hin). }
    apply attempts_ok_last in Hatt. cbn [Z.add] in Hatt.
    destruct Hatt as (Hans & Hu).
    split; [eauto|]. split.
    + exists (sent sa), (List.length (tr0 ++ [Failed response])).
      rewrite length_app in *. cbn [List.length] in *. cbn in Hlen.
      repeat split; try assumption; lia.
    + apply (main_iter_aborted _ _ _ _ _ _ _ _ _ H Hsrv Hg). discriminate.
Qed.


(** C7. A serial line that, stripped of surrounding whitespace, decoded and
    stripped of trailing commas, starts with ['!'] or ['#'] gets a warning
    and nothing else: the turn ends normally, the output file is as it was,
    no connection has been opened and no fetch made, and the clock has not
    been read. *)
Theorem C7_marked_line_skipped cfg now line w text c :
  Py.decode (Py.strip line) = Some text ->
  Py.first_char (Py.rstrip_comma text) = Some c ->
  c = "!"%char \/ c = "#"%char ->
  exists w',
    main_iter cfg now line w = (Done tt, w') /\
    logger w' = (logger w ++ [WarningDataError (Py.rstrip_comma text)])%list /\
    log_file w' = log_file w /\
    fetches w' = fetches w /\
    servers w' = servers w /\
    clock_reads w' = clock_reads w.
Proof.
  intros Hd Hc Hm. unfold main_iter.
  rewrite (bytes_truthy_decode _ _ _ Hd Hc), Hd, Hc.
  assert ((Ascii.eqb c "!" || Ascii.eqb c "#")%bool = true) as ->
    by (destruct Hm as [-> | ->]; reflexivity).
  eexists. split; [reflexivity|]. repeat split.
Qed.

(** A line of commas, as [readline()] returns it. *)
Lemma strip_commas n :
  Py.strip (repeat x2c (S n) ++ [x0d; x0a])%list = repeat x2c (S n).
Proof.
  unfold Py.strip. cbn [repeat app Py.lstrip Py.is_space].
  change (x2c :: (repeat x2c n ++ [x0d; x0a])%list)
    with (repeat x2c (S n) ++ [x0d; x0a])%list.
  rewrite rev_app_distr. cbn [rev app Py.lstrip Py.is_space].
  assert (H : forall l, Py.lstrip (rev (repeat x2c (S n)) ++ l)%list
                        = (rev (repeat x2c (S n)) ++ l)%list).
  { intros l. rewrite rev_repeat. reflexivity. }
  rewrite <- (app_nil_r (rev (repeat x2c (S n)))), H, app_nil_r.
  apply rev_involutive.
Qed.

Lemma decode_commas n :
  option_map Py.rstrip_comma (Py.decode (repeat x2c n)) = Some "".
Proof.
  unfold Py.decode.
  assert (Hv : Py.utf8_valid (repeat x2c n) = true)
    by (induction n as [|n IH]; [reflexivity|exact IH]).
  rewrite Hv. clear Hv. cbn [option_map]. f_equal.
  unfold string_of_list_byte.
  induction n as [|n IH]; [reflexivity|].
  cbn [repeat map string_of_list_ascii Py.rstrip_comma]. rewrite IH.
  reflexivity.
Qed.

(** C10 fails on the code: a line of commas is not blank, so it passes the
    test on the stripped bytes; [rstrip(',')] then leaves the empty string,
    and inspecting its first character raises [IndexError], which ends the
    loop whatever lines are still to come. *)
Theorem C10_commas_only_line_raises cfg now w lines n :
  let line := (repeat x2c (S n) ++ [x0d; x0a])%list in
  Py.bytes_truthy (Py.strip line) = true /\
  option_map Py.rstrip_comma (Py.decode (Py.strip line)) = Some "" /\
  main_iter cfg now line w = (Raise IndexError, w) /\
  main_loop cfg now (line :: lines) w = (Raise IndexError, w).
Proof.
  intros line.
  assert (Hi : main_iter cfg now line w = (Raise IndexError, w)).
  { unfold main_iter, line. rewrite strip_commas.
    pose proof (decode_commas (S n)) as Hd.
    destruct (Py.decode (repeat x2c (S n))) as [text|]; [|discriminate].
    injection Hd as Hd. cbn [Py.bytes_truthy repeat]. rewrite Hd. reflexivity. }
  split; [unfold line; rewrite strip_commas; reflexivity|].
  split; [unfold line; rewrite strip_commas; apply decode_commas|].
  split; [exact Hi|].
  cbn [main_loop]. rewrite Hi. reflexivity.
Qed.

(** ** Request ids and the wait for the matching response *)


(** One turn of [ha_await]'s loop on a message with another id: the message
    is dropped, the time it took to come is taken off the deadline, and the
    loop goes round again. *)
Lemma ha_await_loop_skip fuel message_id s d message id rest t :
  inbox s = (d, Frame message) :: rest ->
  deadline s = Some t ->
  d < t ->
  getitem message "id" = inr id ->
  eq_int id message_id = false ->
  ha_await_loop (S fuel) message_id s
  = ha_await_loop fuel message_id
      (set_deadline (Some (t - d)) (set_inbox rest s)).
Proof.
  intros Hi Hd Hle Hid Hne.
  cbn [ha_await_loop]. unfold bind at 1, ha_recv at 1. rewrite Hi, Hd.
  apply Nat.ltb_lt in Hle. rewrite Hle. cbn [deliver ret].
  unfold bind at 1. rewrite Hid. cbn [lift ret]. rewrite Hne. reflexivity.
Qed.

Lemma ha_await_skip message_id s d message id rest t :
  inbox s = (d, Frame message) :: rest ->
  deadline s = Some t ->
  d < t ->
  getitem message "id" = inr id ->
  eq_int id message_id = false ->
  ha_await message_id s
  = ha_await message_id (set_deadline (Some (t - d)) (set_inbox rest s)).
Proof.
  intros Hi Hd Hle Hid Hne. unfold ha_await. rewrite Hi.
  cbn [List.length].
  rewrite (ha_await_loop_skip _ _ _ _ _ _ _ _ Hi Hd Hle Hid Hne).
  reflexivity.
Qed.

(** The next event does not come before the deadline: the wait times out
    and the event stays pending. *)
Lemma wait_for_late message_id s d ev rest :
  inbox s = (d, ev) :: rest ->
  5 <= d ->
  exists s',
    wait_for (ha_await message_id) 5 s = (Raise TimeoutError, s') /\
    inbox s' = (d - 5, ev) :: rest.
Proof.
  intros Hi Hlt. unfold wait_for, ha_await.
  cbn [set_deadline inbox]. rewrite Hi.
  cbn [List.length ha_await_loop]. unfold bind at 1, ha_recv at 1.
  cbn [set_deadline inbox deadline]. rewrite Hi.
  apply Nat.ltb_ge in Hlt. rewrite Hlt.
  eexists. split; reflexivity.
Qed.

(** ** The clock *)

Lemma render_app now r1 r2 :
  render now (r1 ++ r2)%list = render now r1 ++ render now r2.
Proof.
  induction r1 as [|[n body] r1 IH]; cbn [render app]; [reflexivity|].
  rewrite IH, !append_assoc. reflexivity.
Qed.

Section Clock.

Variable cfg : config.
Variables now1 now2 : nat -> string.

(** One turn under two clocks: the same outcome, the same state but for the
    file, and the same records appended to the file. *)
Lemma main_iter_clock line w1 w2 :
  same_but_file w1 w2 ->
  exists records,
    fst (main_iter cfg now1 line w1) = fst (main_iter cfg now2 line w2) /\
    same_but_file (snd (main_iter cfg now1 line w1))
                  (snd (main_iter cfg now2 line w2)) /\
    log_file (snd (main_iter cfg now1 line w1))
      = log_file w1 ++ render now1 records /\
    log_file (snd (main_iter cfg now2 line w2))
      = log_file w2 ++ render now2 records.
Proof.
  destruct w1 as [f1 lg1 n1 srv1 ft1], w2 as [f2 lg2 n2 srv2 ft2].
  unfold same_but_file. cbn [logger clock_reads servers fetches log_file].
  intros (-> & -> & -> & ->). unfold main_iter.
  assert (Hnone : forall (r : outcome unit) lg n srv ft,
            exists records,
              fst (r, mkWorld f1 lg n srv ft) = fst (r, mkWorld f2 lg n srv ft) /\
              same_but_file (snd (r, mkWorld f1 lg n srv ft))
                            (snd (r, mkWorld f2 lg n srv ft)) /\
              log_file (snd (r, mkWorld f1 lg n srv ft))
                = f1 ++ render now1 records /\
              log_file (snd (r, mkWorld f2 lg n srv ft))
                = f2 ++ render now2 records).
  { intros. exists []. cbn. rewrite !append_nil_r. repeat split. }
  destruct (Py.bytes_truthy _); [|apply Hnone].
  destruct (Py.decode _) as [text|]; [|apply Hnone].
  destruct (Py.first_char _) as [c|]; [|apply Hnone].
  destruct (_ || _)%bool; [apply Hnone|].
  unfold fetch. cbn [servers tick clock_reads log_file logger fetches].
  destruct srv2 as [|server srv]; [apply Hnone|].
  destruct (get_values _ _ (connect server)) as [rf t].
  destruct rf as [[[|v vs]|]|e| |]; try apply Hnone.
  destruct (strs (v :: vs)) as [items|]; [|apply Hnone].
  destruct (Py.encodable (Py.join "," items)); [|apply Hnone].
  exists [(n2, ";" ++ Py.rstrip_comma text ++ ",ZHA,"
                   ++ Py.str_of_nat (List.length (v :: vs)) ++ ","
                   ++ Py.join "," items)].
  cbn [fst snd write log_file render].
  rewrite !append_nil_r, !append_assoc. repeat split.
Qed.

Lemma main_loop_clock lines : forall w1 w2,
  same_but_file w1 w2 ->
  exists records,
    fst (main_loop cfg now1 lines w1) = fst (main_loop cfg now2 lines w2) /\
    same_but_file (snd (main_loop cfg now1 lines w1))
                  (snd (main_loop cfg now2 lines w2)) /\
    log_file (snd (main_loop cfg now1 lines w1))
      = log_file w1 ++ render now1 records /\
    log_file (snd (main_loop cfg now2 lines w2))
      = log_file w2 ++ render now2 records.
Proof.
  induction lines as [|line lines IH]; intros w1 w2 Hsame.
  - exists []. cbn. rewrite !append_nil_r. repeat split; apply Hsame.
  - destruct (main_iter_clock line w1 w2 Hsame)
      as (rec0 & Hr & Hs & H1 & H2).
    cbn [main_loop].
    destruct (main_iter cfg now1 line w1) as [r1 w1'].
    destruct (main_iter cfg now2 line w2) as [r2 w2'].
    cbn [fst snd] in Hr, Hs, H1, H2. subst r2.
    destruct r1 as [[]|e| |];
      try solve [exists rec0; cbn [fst snd]; auto].
    destruct (IH w1' w2' Hs) as (rec1 & Hr' & Hs' & H1' & H2').
    exists (rec0 ++ rec1)%list.
    rewrite render_app, render_app, H1', H2', H1, H2, !append_assoc.
    auto.
Qed.

(** C9. Under two clocks and the same serial lines and server scripts, the
    two runs of [main] end alike, log alike and make the same fetches, and
    their output files are the renderings of one and the same list of
    records, each under its own clock: they differ at most in the
    timestamps.  (Under one and the same clock the two runs are the same
    run: [main] is a function of its inputs and the clock.) *)
Theorem C9_clock_only_in_timestamps existing lines srv :
  exists records,
    log_file (snd (main cfg now1 existing lines srv))
      = existing ++ render now1 records /\
    log_file (snd (main cfg now2 existing lines srv))
      = existing ++ render now2 records /\
    fst (main cfg now1 existing lines srv)
      = fst (main cfg now2 existing lines srv) /\
    logger (snd (main cfg now1 existing lines srv))
      = logger (snd (main cfg now2 existing lines srv)) /\
    fetches (snd (main cfg now1 existing lines srv))
      = fetches (snd (main cfg now2 existing lines srv)).
Proof.
  unfold main.
  destruct (main_loop_clock lines
              (mkWorld existing [] 0 srv []) (mkWorld existing [] 0 srv []))
    as (records & Hr & (Hl & _ & _ & Hf) & H1 & H2).
  { repeat split. }
  exists records. repeat split; assumption.
Qed.

End Clock.

(** ** The theorems at work on sample runs *)

Lemma sen54_accepted :
  accepts Examples.sen54 "1455130,1347;PRO,8,202,232,MYS,3,3194,6448,64479".
Proof.
  exists "1455130,1347;PRO,8,202,232,MYS,3,3194,6448,64479,", "1"%char.
  repeat split; discriminate.
Defined.

Lemma typed_challenge : challenge (Examples.typed "auth_required").
Proof. exists (JStr "auth_required"). split; reflexivity. Defined.

Lemma typed_rejection : rejection (Examples.typed "auth_invalid").
Proof. exists (JStr "auth_invalid"). split; reflexivity. Defined.

Lemma C3_auth_rejected_ends_loop_witness :
  accepts Examples.sen54 "1455130,1347;PRO,8,202,232,MYS,3,3194,6448,64479" /\
  servers (Examples.world0 [Examples.rejecting; Examples.all_four])
    = ((0, Frame (Examples.typed "auth_required"))
         :: (1, Frame (Examples.typed "auth_invalid")) :: [])
        :: [Examples.all_four] /\
  challenge (Examples.typed "auth_required") /\
  rejection (Examples.typed "auth_invalid") /\
  exists w' t,
    main_loop Examples.cfg Examples.now [Examples.sen54; Examples.sen54]
              (Examples.world0 [Examples.rejecting; Examples.all_four])
      = (Raise (AuthFailed (Examples.typed "auth_invalid")), w') /\
    log_file w' = log_file (Examples.world0 [Examples.rejecting; Examples.all_four]) /\
    logger w' = logger (Examples.world0 [Examples.rejecting; Examples.all_four]) /\
    servers w' = [Examples.all_four] /\
    fetches w'
      = (fetches (Examples.world0 [Examples.rejecting; Examples.all_four]) ++ [t])%list /\
    closed t = true.
Proof.
  split; [exact sen54_accepted|]. split; [reflexivity|].
  split; [exact typed_challenge|]. split; [exact typed_rejection|].
  exact (C3_auth_rejected_ends_loop
           Examples.cfg Examples.now Examples.sen54 [Examples.sen54]
           (Examples.world0 [Examples.rejecting; Examples.all_four])
           _ 0 _ 1 _ [] [Examples.all_four]
           sen54_accepted eq_refl typed_challenge typed_rejection).
Defined.

Lemma C4_authentication_witness :
  getitem (Examples.typed "auth_required") "type" = inr (JStr "auth_required") /\
  get_values Examples.zha (c_vindstyrka Examples.cfg)
    (connect ((0, Frame (Examples.typed "auth_required"))
                :: [(1, Frame (Examples.typed "auth_invalid"))]))
    = (fst (Examples.fetched Examples.rejecting),
       snd (Examples.fetched Examples.rejecting)) /\
  (eq_str (JStr "auth_required") "auth_required" = true ->
   (exists more,
       sent (snd (Examples.fetched Examples.rejecting))
       = auth_frame Examples.zha :: more) /\
   (forall d' auth_response rest',
      [(1, Frame (Examples.typed "auth_invalid"))]
        = (d', Frame auth_response) :: rest' ->
      rejection auth_response ->
      fst (Examples.fetched Examples.rejecting) = Raise (AuthFailed auth_response) /\
      closed (snd (Examples.fetched Examples.rejecting)) = true /\
      sent (snd (Examples.fetched Examples.rejecting)) = [auth_frame Examples.zha] /\
      logged (snd (Examples.fetched Examples.rejecting)) = [])).
Proof.
  assert (H1 : getitem (Examples.typed "auth_required") "type"
               = inr (JStr "auth_required")) by reflexivity.
  assert (H2 : get_values Examples.zha (c_vindstyrka Examples.cfg)
                 (connect ((0, Frame (Examples.typed "auth_required"))
                             :: [(1, Frame (Examples.typed "auth_invalid"))]))
               = (fst (Examples.fetched Examples.rejecting),
                  snd (Examples.fetched Examples.rejecting)))
    by runs.
  split; [exact H1|]. split; [exact H2|].
  exact (proj1 (C4_authentication _ _ _ _ _ _ _ _ H1 H2)).
Defined.

Lemma C5_unsuccessful_response_aborts_witness :
  main_iter Examples.cfg Examples.now Examples.sen54
            (Examples.world0 [Examples.failing])
    = (fst (Examples.turn Examples.failing), snd (Examples.turn Examples.failing)) /\
  hd_error (servers (Examples.world0 [Examples.failing])) = Some Examples.failing /\
  get_values Examples.zha (c_vindstyrka Examples.cfg) (connect Examples.failing)
    = (fst (Examples.fetched Examples.failing),
       snd (Examples.fetched Examples.failing)) /\
  In (ErrorResponse (Examples.response 2 false ""))
     (logged (snd (Examples.fetched Examples.failing))) /\
  fst (Examples.fetched Examples.failing) = Done None /\
  closed (snd (Examples.fetched Examples.failing)) = true /\
  (exists l,
      logged (snd (Examples.fetched Examples.failing))
      = (l ++ [ErrorResponse (Examples.response 2 false "")])%list) /\
  (exists pre k,
      1 <= k <= 4 /\ answers (Examples.response 2 false "") (Z.of_nat k) /\
      unsuccessful (Examples.response 2 false "") /\
      sent (snd (Examples.fetched Examples.failing))
      = (pre ++ requests (c_vindstyrka Examples.cfg) 0 (firstn k clusters))%list) /\
  log_file (snd (Examples.turn Examples.failing))
    = log_file (Examples.world0 [Examples.failing]).
Proof.
  assert (H1 : main_iter Examples.cfg Examples.now Examples.sen54
                 (Examples.world0 [Examples.failing])
               = (fst (Examples.turn Examples.failing),
                  snd (Examples.turn Examples.failing)))
    by runs.
  assert (H2 : hd_error (servers (Examples.world0 [Examples.failing]))
               = Some Examples.failing) by reflexivity.
  assert (H3 : get_values Examples.zha (c_vindstyrka Examples.cfg)
                 (connect Examples.failing)
               = (fst (Examples.fetched Examples.failing),
                  snd (Examples.fetched Examples.failing)))
    by runs.
  assert (H4 : In (ErrorResponse (Examples.response 2 false ""))
                  (logged (snd (Examples.fetched Examples.failing))))
    by (vm_compute; left; reflexivity).
  split; [exact H1|]. split; [exact H2|]. split; [exact H3|].
  split; [exact H4|].
  exact (proj2 C5_unsuccessful_response_aborts _ _ _ _ _ _ _ _ _ _ H1 H2 H3 H4).
Defined.


Lemma C7_marked_line_skipped_witness :
  Py.decode (Py.strip Examples.marked) = Some "!ERR sensor fault" /\
  Py.first_char (Py.rstrip_comma "!ERR sensor fault") = Some "!"%char /\
  ("!"%char = "!"%char \/ "!"%char = "#"%char) /\
  exists w',
    main_iter Examples.cfg Examples.now Examples.marked
              (Examples.world0 [Examples.all_four]) = (Done tt, w') /\
    logger w'
      = (logger (Examples.world0 [Examples.all_four])
           ++ [WarningDataError (Py.rstrip_comma "!ERR sensor fault")])%list /\
    log_file w' = log_file (Examples.world0 [Examples.all_four]) /\
    fetches w' = fetches (Examples.world0 [Examples.all_four]) /\
    servers w' = servers (Examples.world0 [Examples.all_four]) /\
    clock_reads w' = clock_reads (Examples.world0 [Examples.all_four]).
Proof.
  assert (H1 : Py.decode (Py.strip Examples.marked) = Some "!ERR sensor fault")
    by reflexivity.
  assert (H2 : Py.first_char (Py.rstrip_comma "!ERR sensor fault")
               = Some "!"%char) by reflexivity.
  assert (H3 : "!"%char = "!"%char \/ "!"%char = "#"%char)
    by (left; reflexivity).
  split; [exact H1|]. split; [exact H2|]. split; [exact H3|].
  exact (C7_marked_line_skipped Examples.cfg Examples.now Examples.marked
           (Examples.world0 [Examples.all_four]) _ _ H1 H2 H3).
Defined.

(** [True == 1] and [1.0 == 1]: such ids match as the integer does. *)
Example eq_int_bool_float :
  eq_int (JBool true) 1 = true /\ eq_int (JFloat 1%float) 1 = true /\
  eq_int (JFloat 1.5%float) 1 = false /\ eq_int (JStr "1") 1 = false.
Proof. repeat split. Qed.

(** ** The wait for a response, event by event *)

Local Open Scope list_scope.

Lemma delays_app l1 l2 : delays (l1 ++ l2) = delays l1 + delays l2.
Proof. unfold delays. rewrite map_app, list_sum_app. reflexivity. Qed.

Lemma delays_cons d ev l : delays ((d, ev) :: l) = d + delays l.
Proof. reflexivity. Qed.

(** Messages with other ids that come within the time left are passed
    over, and the response is returned if it too comes within it. *)
Lemma ha_await_passes_over message_id response d rest snt cl lg :
  answers response message_id ->
  forall skipped t,
    Forall (other_id message_id) skipped ->
    delays skipped + d < t ->
    ha_await message_id
      (mkTask (skipped ++ (d, Frame response) :: rest) snt cl (Some t) lg)
    = (Done response,
       mkTask rest snt cl (Some (t - (delays skipped + d))) lg).
Proof.
  intros (id & Hid & Heq).
  induction skipped as [|[d0 ev0] skipped IH]; intros t Hall Hle.
  - change (delays []) with 0 in *. cbn [app].
    unfold ha_await. cbn [inbox List.length]. rewrite ha_await_loop_S.
    unfold ha_recv. cbn [inbox deadline].
    assert (Hd : (d <? t)%nat = true) by (apply Nat.ltb_lt; lia).
    rewrite Hd. unfold set_inbox, set_deadline.
    cbn [deliver ret inbox sent closed deadline logged].
    rewrite Hid, Heq. reflexivity.
  - inversion Hall as [|? ? (message & id0 & Hev & Hid0 & Hne) Hall']; subst.
    cbn [snd] in Hev. subst ev0.
    rewrite delays_cons in *. cbn [app].
    rewrite (ha_await_skip message_id
               (mkTask ((d0, Frame message)
                          :: skipped ++ (d, Frame response) :: rest)
                       snt cl (Some t) lg)
               d0 message id0 (skipped ++ (d, Frame response) :: rest) t
               eq_refl eq_refl ltac:(lia) Hid0 Hne).
    unfold set_inbox, set_deadline; cbn [inbox sent closed deadline logged].
    rewrite (IH (t - d0) Hall' ltac:(lia)).
    do 3 f_equal. lia.
Qed.

(** When the events on their way take longer than the time left, the wait
    times out, and it has then taken exactly the time left. *)
Lemma ha_await_runs_out message_id d ev rest snt cl lg :
  forall skipped t,
    Forall (other_id message_id) skipped ->
    t <= delays skipped + d ->
    exists inbound,
      ha_await message_id
        (mkTask (skipped ++ (d, ev) :: rest) snt cl (Some t) lg)
      = (Raise TimeoutError, mkTask inbound snt cl (Some 0) lg) /\
      delays inbound + t = delays (skipped ++ (d, ev) :: rest).
Proof.
  induction skipped as [|[d0 ev0] skipped IH]; intros t Hall Hlt.
  - change (delays []) with 0 in *. cbn [app].
    unfold ha_await. cbn [inbox List.length]. rewrite ha_await_loop_S.
    unfold ha_recv. cbn [inbox deadline].
    assert (Hd : (d <? t)%nat = false) by (apply Nat.ltb_ge; lia).
    rewrite Hd. eexists. split; [reflexivity|].
    unfold set_inbox, set_deadline; cbn [inbox]. rewrite !delays_cons. lia.
  - inversion Hall as [|? ? (message & id0 & Hev & Hid0 & Hne) Hall']; subst.
    cbn [snd] in Hev. subst ev0.
    rewrite delays_cons in Hlt. cbn [app].
    destruct (Nat.ltb_spec d0 t) as [Hle|Hgt].
    + rewrite (ha_await_skip message_id
                 (mkTask ((d0, Frame message) :: skipped ++ (d, ev) :: rest)
                         snt cl (Some t) lg)
                 d0 message id0 (skipped ++ (d, ev) :: rest) t
                 eq_refl eq_refl Hle Hid0 Hne).
      unfold set_inbox, set_deadline; cbn [inbox sent closed deadline logged].
      destruct (IH (t - d0) Hall' ltac:(lia)) as (inbound & E & Hsum).
      exists inbound. split; [exact E|].
      rewrite delays_cons. lia.
    + unfold ha_await. cbn [inbox List.length]. rewrite ha_await_loop_S.
      unfold ha_recv. cbn [inbox deadline].
      assert (Hd : (d0 <? t)%nat = false) by (apply Nat.ltb_ge; lia).
      rewrite Hd. eexists. split; [reflexivity|].
      unfold set_inbox, set_deadline; cbn [inbox]. rewrite !delays_cons. lia.
Qed.

Lemma wait_for_passes_over message_id skipped d response rest snt cl lg :
  Forall (other_id message_id) skipped ->
  answers response message_id ->
  delays skipped + d < 5 ->
  wait_for (ha_await message_id) 5
    (mkTask (skipped ++ (d, Frame response) :: rest) snt cl None lg)
  = (Done response, mkTask rest snt cl None lg).
Proof.
  intros Hall Hans Hle. unfold wait_for, set_deadline at 1.
  cbn [inbox sent closed deadline logged].
  rewrite (ha_await_passes_over _ _ _ _ _ _ _ Hans _ _ Hall Hle).
  reflexivity.
Qed.

Lemma wait_for_runs_out message_id skipped d ev rest snt cl lg :
  Forall (other_id message_id) skipped ->
  5 < delays skipped + d ->
  exists inbound,
    wait_for (ha_await message_id) 5
      (mkTask (skipped ++ (d, ev) :: rest) snt cl None lg)
    = (Raise TimeoutError, mkTask inbound snt cl None lg) /\
    delays inbound + 5 = delays (skipped ++ (d, ev) :: rest).
Proof.
  intros Hall Hlt. unfold wait_for, set_deadline at 1.
  cbn [inbox sent closed deadline logged].
  destruct (ha_await_runs_out message_id d ev rest snt cl lg skipped 5 Hall
              (Nat.lt_le_incl _ _ Hlt))
    as (inbound & E & Hsum).
  exists inbound. rewrite E. split; [reflexivity|exact Hsum].
Qed.

(** Nothing comes in for more than five time units: the wait times out. *)
Lemma wait_for_quiet message_id inbound snt cl lg :
  quiet_for 5 inbound ->
  wait_for (ha_await message_id) 5 (mkTask inbound snt cl None lg)
  = (Raise TimeoutError, mkTask (age 5 inbound) snt cl None lg).
Proof.
  intros Hq. unfold wait_for, set_deadline at 1, ha_await.
  cbn [inbox sent closed deadline logged].
  rewrite ha_await_loop_S. unfold ha_recv. cbn [inbox deadline].
  destruct inbound as [|[d ev] rest]; [reflexivity|].
  cbn in Hq. assert (Hd : (d <? 5)%nat = false) by (apply Nat.ltb_ge; lia).
  rewrite Hd. reflexivity.
Qed.

(** What breaks off the wait: a frame that is not JSON, the end of the
    connection, or a message that cannot be asked for its id. *)
Lemma ha_await_breaks message_id d ev e rest snt cl lg :
  breaks ev e ->
  forall skipped t,
    Forall (other_id message_id) skipped ->
    delays skipped + d < t ->
    ha_await message_id
      (mkTask (skipped ++ (d, ev) :: rest) snt cl (Some t) lg)
    = (Raise e, mkTask rest snt cl (Some (t - (delays skipped + d))) lg).
Proof.
  intros Hb.
  induction skipped as [|[d0 ev0] skipped IH]; intros t Hall Hle.
  - change (delays []) with 0 in *. cbn [app].
    unfold ha_await. cbn [inbox List.length]. rewrite ha_await_loop_S.
    unfold ha_recv. cbn [inbox deadline].
    assert (Hd : (d <? t)%nat = true) by (apply Nat.ltb_lt; lia).
    rewrite Hd. unfold set_inbox, set_deadline.
    cbn [inbox sent closed deadline logged].
    destruct ev as [message| |]; cbn in Hb; cbn [deliver ret raise].
    + rewrite Hb. reflexivity.
    + subst e. reflexivity.
    + subst e. reflexivity.
  - inversion Hall as [|? ? (message & id0 & Hev & Hid0 & Hne) Hall']; subst.
    cbn [snd] in Hev. subst ev0.
    rewrite delays_cons in *. cbn [app].
    rewrite (ha_await_skip message_id
               (mkTask ((d0, Frame message) :: skipped ++ (d, ev) :: rest)
                       snt cl (Some t) lg)
               d0 message id0 (skipped ++ (d, ev) :: rest) t
               eq_refl eq_refl ltac:(lia) Hid0 Hne).
    unfold set_inbox, set_deadline; cbn [inbox sent closed deadline logged].
    rewrite (IH (t - d0) Hall' ltac:(lia)).
    do 3 f_equal. lia.
Qed.

Lemma wait_for_breaks message_id skipped d ev e rest snt cl lg :
  Forall (other_id message_id) skipped ->
  breaks ev e ->
  delays skipped + d < 5 ->
  wait_for (ha_await message_id) 5
    (mkTask (skipped ++ (d, ev) :: rest) snt cl None lg)
  = (Raise e, mkTask rest snt cl None lg).
Proof.
  intros Hall Hb Hle. unfold wait_for, set_deadline at 1.
  cbn [inbox sent closed deadline logged].
  rewrite (ha_await_breaks _ _ _ _ _ _ _ _ Hb _ _ Hall Hle).
  reflexivity.
Qed.

Lemma breaks_not_timeout ev e : breaks ev e -> e <> TimeoutError.
Proof.
  destruct ev as [message| |]; cbn; intros H; try (subst; discriminate).
  intros ->. exact (getitem_not_timeout _ _ H).
Qed.

(** X2. Messages with other ids do not extend the wait: when the event
    after them comes later than five time units after the wait began, the
    wait times out, though each message may have come within five time
    units of the one before; nothing is sent or logged by the wait, and the
    events left pending are exactly five time units nearer. *)
Theorem X2_wait_deadline_is_cumulative
    message_id skipped d ev rest snt cl lg :
  Forall (other_id message_id) skipped ->
  5 < delays skipped + d ->
  exists inbound,
    wait_for (ha_await message_id) 5
      (mkTask (skipped ++ (d, ev) :: rest) snt cl None lg)
    = (Raise TimeoutError, mkTask inbound snt cl None lg) /\
    delays inbound + 5 = delays (skipped ++ (d, ev) :: rest).
Proof. exact (wait_for_runs_out message_id skipped d ev rest snt cl lg). Qed.

(** ** Turns of the loop over the clusters, on what comes in *)

Lemma await_response_answered message_id values s response result s1 :
  wait_for (ha_await message_id) 5 s = (Done response, s1) ->
  (exists success,
      getitem response "success" = inr success /\ truthy success = true) ->
  getitem response "result" = inr result ->
  await_response message_id values s = (Done (Next (values ++ [result])), s1).
Proof.
  intros H (success & Hs & Ht) Hr.
  unfold await_response, try_except_timeout. unfold bind at 1.
  rewrite H. unfold bind at 1. rewrite Hs. cbn [lift ret]. rewrite Ht.
  cbn [negb]. unfold bind at 1. rewrite Hr. reflexivity.
Qed.

Lemma await_response_raises message_id values s e s1 :
  wait_for (ha_await message_id) 5 s = (Raise e, s1) ->
  e <> TimeoutError ->
  await_response message_id values s = (Raise e, s1).
Proof.
  intros H He. unfold await_response, try_except_timeout. unfold bind at 1.
  rewrite H. destruct e; try reflexivity. contradiction.
Qed.

Section Turn.

Variables (ieee : string) (cluster : Z) (cs : list Z).
Variables (message_id : Z) (values : list json).
Variables (snt : list json) (cl : bool) (lg : list log_entry).

Lemma turn_answered skipped d response result rest :
  Forall (other_id (message_id + 1)) skipped ->
  delays skipped + d < 5 ->
  attempt_ok (message_id + 1) (Answered response result) ->
  for_clusters ieee (cluster :: cs) message_id values
    (mkTask (skipped ++ (d, Frame response) :: rest) snt cl None lg)
  = for_clusters ieee cs (message_id + 1) (values ++ [result])
      (mkTask rest (snt ++ [request ieee (message_id + 1) cluster]) cl None lg).
Proof.
  intros Hall Hle (Hans & Hs & Hr). rewrite for_clusters_cons.
  unfold push_sent. cbn [inbox sent closed deadline logged].
  rewrite (await_response_answered _ _ _ _ _ _
             (wait_for_passes_over _ _ _ _ _ _ _ _ Hall Hans Hle) Hs Hr).
  reflexivity.
Qed.

Lemma turn_unsuccessful skipped d response rest :
  Forall (other_id (message_id + 1)) skipped ->
  delays skipped + d < 5 ->
  attempt_ok (message_id + 1) (Failed response) ->
  for_clusters ieee (cluster :: cs) message_id values
    (mkTask (skipped ++ (d, Frame response) :: rest) snt cl None lg)
  = (Done None, mkTask rest (snt ++ [request ieee (message_id + 1) cluster]) cl None (lg ++ [ErrorResponse response])).
Proof.
  intros Hall Hle (Hans & Hu). rewrite for_clusters_cons.
  unfold push_sent. cbn [inbox sent closed deadline logged].
  rewrite (await_response_unsuccessful _ _ _ _ _
             (wait_for_passes_over _ _ _ _ _ _ _ _ Hall Hans Hle) Hu).
  reflexivity.
Qed.

Lemma turn_timed_out inbound :
  quiet_for 5 inbound ->
  for_clusters ieee (cluster :: cs) message_id values
    (mkTask inbound snt cl None lg)
  = for_clusters ieee cs (message_id + 1) values
      (mkTask (age 5 inbound) (snt ++ [request ieee (message_id + 1) cluster]) cl None (lg ++ [ErrorTimedOut])).
Proof.
  intros Hq. rewrite for_clusters_cons.
  unfold push_sent. cbn [inbox sent closed deadline logged].
  rewrite (await_response_timeout _ _ _ _ (wait_for_quiet _ _ _ _ _ Hq)).
  reflexivity.
Qed.

Lemma turn_breaks skipped d ev e rest :
  Forall (other_id (message_id + 1)) skipped ->
  delays skipped + d < 5 ->
  breaks ev e ->
  for_clusters ieee (cluster :: cs) message_id values
    (mkTask (skipped ++ (d, ev) :: rest) snt cl None lg)
  = (Raise e, mkTask rest (snt ++ [request ieee (message_id + 1) cluster]) cl None lg).
Proof.
  intros Hall Hle Hb. rewrite for_clusters_cons.
  unfold push_sent. cbn [inbox sent closed deadline logged].
  rewrite (await_response_raises _ _ _ _ _
             (wait_for_breaks _ _ _ _ _ _ _ _ _ Hall Hb Hle)
             (breaks_not_timeout _ _ Hb)).
  reflexivity.
Qed.

(** The response that answers lacks ['success'], or is a success and lacks
    ['result']. *)
Lemma turn_malformed skipped d response key rest :
  Forall (other_id (message_id + 1)) skipped ->
  delays skipped + d < 5 ->
  answers response (message_id + 1) ->
  getitem response "success" = inl (KeyError key) \/
  ((exists success,
       getitem response "success" = inr success /\ truthy success = true) /\
   getitem response "result" = inl (KeyError key)) ->
  for_clusters ieee (cluster :: cs) message_id values
    (mkTask (skipped ++ (d, Frame response) :: rest) snt cl None lg)
  = (Raise (KeyError key), mkTask rest (snt ++ [request ieee (message_id + 1) cluster]) cl None lg).
Proof.
  intros Hall Hle Hans Hbad. rewrite for_clusters_cons.
  unfold push_sent. cbn [inbox sent closed deadline logged].
  unfold await_response, try_except_timeout. unfold bind at 1.
  rewrite (wait_for_passes_over _ _ _ _ _ _ _ _ Hall Hans Hle).
  unfold bind at 1.
  destruct Hbad as [Hs|((success & Hs & Ht) & Hr)]; rewrite Hs.
  - reflexivity.
  - cbn [lift ret]. rewrite Ht. cbn [negb]. unfold bind at 1. rewrite Hr.
    reflexivity.
Qed.

End Turn.

(** ** The handshake and the turn of the main loop *)

Lemma authorize_accepted self d first d' auth_response rest snt cl lg :
  challenge first ->
  acceptance auth_response ->
  authorize self
    (mkTask ((d, Frame first) :: (d', Frame auth_response) :: rest) snt cl None lg)
  = (Done tt, mkTask rest (snt ++ [auth_frame self]) cl None lg).
Proof.
  intros (ty & Hty & Hc) (ty' & Hty' & Hr).
  unfold authorize, bind, ha_recv. cbn. rewrite Hty. cbn. rewrite Hc. cbn.
  rewrite Hty'. cbn. rewrite Hr. reflexivity.
Qed.

(** After a handshake that went well the fetch is the loop over the
    clusters, and the connection is closed when the loop is left. *)
Lemma get_values_after_handshake self ieee d first d' auth_response inbound :
  challenge first ->
  acceptance auth_response ->
  get_values self ieee
    (connect ((d, Frame first) :: (d', Frame auth_response) :: inbound))
  = match for_clusters ieee clusters 0 []
            (mkTask inbound [auth_frame self] false None []) with
    | (Done v, t) => (Done v, close t)
    | (Raise e, t) => (Raise e, close t)
    | r => r
    end.
Proof.
  intros Hc Ha. rewrite get_values_unfold. unfold connect.
  rewrite (authorize_accepted _ _ _ _ _ _ _ _ _ Hc Ha). reflexivity.
Qed.

(** An accepted line: the turn of the main loop is what [emit] makes of the
    fetch on the next connection. *)
Lemma main_iter_fetch cfg now line w sen54log server servers' rf t :
  accepts line sen54log ->
  servers w = server :: servers' ->
  get_values (mkZHAReader (c_uri cfg) (c_token cfg)) (c_vindstyrka cfg)
             (connect server) = (rf, t) ->
  main_iter cfg now line w
  = emit (now (clock_reads w)) sen54log (rf, fetched_world w servers' t).
Proof.
  intros Hacc Hsrv Hg. rewrite (main_iter_accepted _ _ _ _ _ Hacc).
  unfold fetch. cbn [servers tick]. rewrite Hsrv, Hg. reflexivity.
Qed.

Lemma turn_answered_at_once
    ieee cluster cs message_id values snt cl lg d response result rest :
  d < 5 ->
  attempt_ok (message_id + 1) (Answered response result) ->
  for_clusters ieee (cluster :: cs) message_id values
    (mkTask ((d, Frame response) :: rest) snt cl None lg)
  = for_clusters ieee cs (message_id + 1) (values ++ [result])
      (mkTask rest (snt ++ [request ieee (message_id + 1) cluster]) cl None lg).
Proof.
  intros Hle Hok.
  exact (turn_answered ieee cluster cs message_id values snt cl lg
           [] d response result rest (Forall_nil _) Hle Hok).
Qed.

(** ** A server that keeps quiet *)

Lemma age_0 inbound : age 0 inbound = inbound.
Proof. destruct inbound as [|[d ev] rest]; cbn; [|rewrite Nat.sub_0_r]; reflexivity. Qed.

Lemma age_age n m inbound : age m (age n inbound) = age (n + m) inbound.
Proof.
  destruct inbound as [|[d ev] rest]; cbn; [reflexivity|].
  f_equal. f_equal. lia.
Qed.

Lemma quiet_for_age n m inbound :
  quiet_for (n + m) inbound -> quiet_for n inbound /\ quiet_for m (age n inbound).
Proof. destruct inbound as [|[d ev] rest]; cbn; lia. Qed.

(** As long as nothing comes in, every cluster times out in its turn, each
    after five time units. *)
Lemma for_clusters_quiet ieee : forall cs message_id values inbound snt cl lg,
  quiet_for (5 * List.length cs) inbound ->
  for_clusters ieee cs message_id values (mkTask inbound snt cl None lg)
  = (Done (Some values),
     mkTask (age (5 * List.length cs) inbound)
            (snt ++ requests ieee message_id cs) cl None
            (lg ++ repeat ErrorTimedOut (List.length cs))).
Proof.
  induction cs as [|c cs IH]; intros message_id values inbound snt cl lg Hq.
  - cbn. rewrite age_0, !app_nil_r. reflexivity.
  - replace (5 * List.length (c :: cs)) with (5 + 5 * List.length cs) in *
      by (cbn [List.length]; lia).
    apply quiet_for_age in Hq. destruct Hq as (Hq5 & Hq).
    rewrite (turn_timed_out _ _ _ _ _ _ _ _ _ Hq5), (IH _ _ _ _ _ _ Hq).
    rewrite age_age, <- !app_assoc. reflexivity.
Qed.

(** X4. A server that goes through the handshake and then keeps quiet for
    more than twenty time units makes all four clusters time out: the fetch
    takes twenty time units, sends the four requests, logs four timeouts
    and returns the empty list; the main loop writes nothing for the line
    and goes on with the next one. *)
Theorem X4_quiet_server_writes_nothing
    cfg now line lines w sen54log d d' first auth_response inbound servers' :
  accepts line sen54log ->
  servers w =
    ((d, Frame first) :: (d', Frame auth_response) :: inbound) :: servers' ->
  challenge first ->
  acceptance auth_response ->
  quiet_for 20 inbound ->
  let zha := mkZHAReader (c_uri cfg) (c_token cfg) in
  let ieee := c_vindstyrka cfg in
  let t := mkTask (age 20 inbound) (auth_frame zha :: requests ieee 0 clusters)
                  true None (repeat ErrorTimedOut 4) in
  get_values zha ieee
    (connect ((d, Frame first) :: (d', Frame auth_response) :: inbound))
  = (Done (Some []), t) /\
  main_loop cfg now (line :: lines) w
  = main_loop cfg now lines (fetched_world w servers' t).
Proof.
  intros Hacc Hsrv Hc Ha Hq zha ieee t.
  assert (Hg : get_values zha ieee
                 (connect ((d, Frame first) :: (d', Frame auth_response)
                             :: inbound))
               = (Done (Some []), t)).
  { rewrite (get_values_after_handshake _ _ _ _ _ _ _ Hc Ha).
    rewrite (for_clusters_quiet ieee clusters 0 [] inbound _ _ _ Hq).
    reflexivity. }
  split; [exact Hg|].
  cbn [main_loop]. rewrite (main_iter_fetch _ _ _ _ _ _ _ _ _ Hacc Hsrv Hg).
  reflexivity.
Qed.

(** X5. How the main loop goes on after the fetch for an accepted line.
    When the fetch logged an unsuccessful response, or returned the empty
    list, the loop goes on with the next serial line, nothing written.
    When the fetch raised, whatever the exception, the loop ends with it,
    nothing written.  In each case the clock has been read once and the
    connection is used up. *)
Theorem X5_loop_after_the_fetch
    cfg now line lines w sen54log server servers' rf t :
  accepts line sen54log ->
  servers w = server :: servers' ->
  get_values (mkZHAReader (c_uri cfg) (c_token cfg)) (c_vindstyrka cfg)
             (connect server) = (rf, t) ->
  ((exists response, In (ErrorResponse response) (logged t)) \/
   rf = Done (Some []) ->
   main_loop cfg now (line :: lines) w
   = main_loop cfg now lines (fetched_world w servers' t)) /\
  (forall e, rf = Raise e ->
   main_loop cfg now (line :: lines) w = (Raise e, fetched_world w servers' t)).
Proof.
  intros Hacc Hsrv Hg.
  pose proof (main_iter_fetch cfg now _ _ _ _ _ _ _ Hacc Hsrv Hg) as Hi.
  split.
  - intros Hcase. cbn [main_loop]. rewrite Hi.
    destruct Hcase as [[response Hin]| ->].
    + rewrite (get_values_failed _ _ _ _ _ _ Hg Hin). reflexivity.
    + reflexivity.
  - intros e ->. cbn [main_loop]. rewrite Hi. reflexivity.
Qed.

(** ** Lines that do not decode *)

Lemma in_range_true lo hi c :
  Py.in_range lo hi c = true -> (lo <= Byte.to_N c <= hi)%N.
Proof.
  unfold Py.in_range. intros H. apply andb_true_iff in H.
  destruct H as [H1 H2]. apply N.leb_le in H1, H2. lia.
Qed.

Lemma in_range_false lo hi c :
  Py.in_range lo hi c = false -> (Byte.to_N c < lo \/ hi < Byte.to_N c)%N.
Proof.
  unfold Py.in_range. intros H. apply andb_false_iff in H.
  destruct H as [H|H]; apply N.leb_gt in H; lia.
Qed.

Lemma never_utf8_false c :
  (Byte.to_N c < 192 \/ 193 < Byte.to_N c < 245)%N -> never_utf8 c = false.
Proof.
  intros H. unfold never_utf8, Py.in_range. apply orb_false_iff.
  split; apply andb_false_iff.
  - destruct (N.leb_spec 192 (Byte.to_N c)); [right; apply N.leb_gt; lia|now left].
  - left. apply N.leb_gt. lia.
Qed.

Ltac range_facts :=
  repeat match goal with
  | H : (_ && _)%bool = true |- _ => apply andb_true_iff in H; destruct H
  | H : Py.cont _ = true |- _ => unfold Py.cont in H
  | H : Py.in_range _ _ _ = true |- _ => apply in_range_true in H
  | H : Py.in_range _ _ _ = false |- _ => apply in_range_false in H
  | H : (if Py.in_range ?lo ?hi ?c then _ else _) = true |- _ =>
    destruct (Py.in_range lo hi c) eqn:?
  end.

(** Well-formed UTF-8 has none of the bytes 0xC0, 0xC1, 0xF5 to 0xFF. *)
Lemma utf8_valid_bytes : forall n b,
  List.length b <= n ->
  Py.utf8_valid b = true ->
  forall c, In c b -> never_utf8 c = false.
Proof.
  induction n as [|n IH]; intros b Hlen Hv c Hin.
  - destruct b; [destruct Hin|cbn in Hlen; lia].
  - destruct b as [|b0 r0]; [destruct Hin|].
    cbn [List.length] in Hlen. cbn [Py.utf8_valid] in Hv.
    destruct (Py.in_range 0 127 b0) eqn:E0.
    { destruct Hin as [<-|Hin]; [|apply (IH r0); [lia|assumption..]].
      range_facts. apply never_utf8_false. lia. }
    destruct r0 as [|b1 r1]; [discriminate|]. cbn [List.length] in Hlen.
    destruct (Py.in_range 194 223 b0) eqn:E1.
    { apply andb_true_iff in Hv. destruct Hv as [Hc1 Hv].
      destruct Hin as [<-|[<-|Hin]]; [| |apply (IH r1); [lia|assumption..]];
        range_facts; apply never_utf8_false; lia. }
    destruct r1 as [|b2 r2]; [discriminate|]. cbn [List.length] in Hlen.
    destruct (Py.in_range 224 239 b0) eqn:E2.
    { apply andb_true_iff in Hv. destruct Hv as [Hv Hr].
      apply andb_true_iff in Hv. destruct Hv as [Hc1 Hc2].
      destruct Hin as [<-|[<-|[<-|Hin]]];
        [| | |apply (IH r2); [lia|assumption..]];
        range_facts; apply never_utf8_false; lia. }
    destruct r2 as [|b3 r3]; [discriminate|]. cbn [List.length] in Hlen.
    apply andb_true_iff in Hv. destruct Hv as [Hv Hr].
    apply andb_true_iff in Hv. destruct Hv as [Hv Hc3].
    apply andb_true_iff in Hv. destruct Hv as [Hv Hc2].
    apply andb_true_iff in Hv. destruct Hv as [Hb0 Hc1].
    destruct Hin as [<-|[<-|[<-|[<-|Hin]]]];
      [| | | |apply (IH r3); [lia|assumption..]];
      range_facts; apply never_utf8_false; lia.
Qed.

Lemma lstrip_keeps c : forall b,
  Py.is_space c = false -> In c b -> In c (Py.lstrip b).
Proof.
  induction b as [|c0 b IH]; intros Hs Hin; [destruct Hin|].
  cbn [Py.lstrip]. destruct (Py.is_space c0) eqn:E0; [|exact Hin].
  destruct Hin as [->|Hin]; [congruence|]. apply IH; assumption.
Qed.

(** Stripping takes away whitespace only. *)
Lemma strip_keeps c b :
  Py.is_space c = false -> In c b -> In c (Py.strip b).
Proof.
  intros Hs Hin. unfold Py.strip.
  apply in_rev. rewrite rev_involutive.
  apply lstrip_keeps; [exact Hs|]. apply -> in_rev.
  apply lstrip_keeps; assumption.
Qed.

Lemma never_utf8_not_space c : never_utf8 c = true -> Py.is_space c = false.
Proof. destruct c; intros H; try reflexivity; discriminate H. Qed.

(** X8. A serial line with a byte that no UTF-8 text has (0xC0, 0xC1, 0xF5
    to 0xFF), wherever in the line, does not decode: [main] ends with
    [UnicodeDecodeError], whatever lines are still to come, with nothing
    written or logged, no clock read and no connection opened. *)
Theorem X8_undecodable_line_ends_loop cfg now line lines w c :
  In c line ->
  never_utf8 c = true ->
  main_loop cfg now (line :: lines) w = (Raise UnicodeDecodeError, w).
Proof.
  intros Hin Hbad.
  pose proof (strip_keeps c line (never_utf8_not_space c Hbad) Hin) as Hs.
  assert (Hd : Py.decode (Py.strip line) = None).
  { unfold Py.decode. destruct (Py.utf8_valid (Py.strip line)) eqn:Hv;
      [|reflexivity].
    pose proof (utf8_valid_bytes _ _ (le_n _) Hv c Hs). congruence. }
  cbn [main_loop]. unfold main_iter.
  destruct (Py.strip line) as [|c0 b]; [destruct Hs|].
  cbn [Py.bytes_truthy]. rewrite Hd. reflexivity.
Qed.

(** ** Results that are not strings *)

Lemma strs_not_all v : forall values,
  In v values -> (forall s, v <> JStr s) -> strs values = None.
Proof.
  induction values as [|v0 values IH]; intros Hin Hv; [destruct Hin|].
  destruct Hin as [->|Hin].
  - destruct v; try reflexivity. elim (Hv s). reflexivity.
  - destruct v0; try reflexivity. cbn [strs]. rewrite (IH Hin Hv).
    reflexivity.
Qed.

(** X9. When one of the values the fetch returns is not a string (a JSON
    number, say), joining the values fails: [main] ends with [TypeError]
    before anything is written for the line, whatever the other values
    are. *)
Theorem X9_non_string_result_ends_loop
    cfg now line lines w sen54log server servers' values t v :
  accepts line sen54log ->
  servers w = server :: servers' ->
  get_values (mkZHAReader (c_uri cfg) (c_token cfg)) (c_vindstyrka cfg)
             (connect server) = (Done (Some values), t) ->
  In v values ->
  (forall s, v <> JStr s) ->
  main_loop cfg now (line :: lines) w
  = (Raise TypeError, fetched_world w servers' t).
Proof.
  intros Hacc Hsrv Hg Hin Hv.
  cbn [main_loop]. rewrite (main_iter_fetch _ _ _ _ _ _ _ _ _ Hacc Hsrv Hg).
  pose proof (strs_not_all v values Hin Hv) as Hs.
  destruct values as [|v0 values]; [destruct Hin|].
  unfold emit. rewrite Hs. reflexivity.
Qed.

(** ** Lines that are passed by *)

Lemma lstrip_blank b : blank b -> Py.lstrip b = [].
Proof.
  induction 1 as [|c b Hc _ IH]; [reflexivity|].
  cbn [Py.lstrip]. rewrite Hc. exact IH.
Qed.

Lemma strip_blank b : blank b -> Py.strip b = [].
Proof. intros H. unfold Py.strip. rewrite (lstrip_blank b H). reflexivity. Qed.

Lemma blank_forallb b : blank b -> forallb Py.is_space b = true.
Proof. intros H. apply forallb_forall. apply Forall_forall. exact H. Qed.

Lemma main_iter_blank cfg now line w :
  blank line -> main_iter cfg now line w = (Done tt, w).
Proof. intros H. unfold main_iter. rewrite (strip_blank line H). reflexivity. Qed.

Lemma main_iter_marked cfg now line w :
  marked line ->
  exists sen54log,
    main_iter cfg now line w = (Done tt, warn (WarningDataError sen54log) w).
Proof.
  intros (text & c & Hd & Hc & Hm). exists (Py.rstrip_comma text).
  unfold main_iter.
  rewrite (bytes_truthy_decode _ _ _ Hd Hc), Hd, Hc.
  assert ((Ascii.eqb c "!" || Ascii.eqb c "#")%bool = true) as ->
    by (destruct Hm as [-> | ->]; reflexivity).
  reflexivity.
Qed.

Lemma marked_not_blank line : marked line -> forallb Py.is_space line = false.
Proof.
  intros (text & c & Hd & Hc & _).
  destruct (forallb Py.is_space line) eqn:E; [|reflexivity].
  assert (Hb : blank line)
    by (apply Forall_forall; apply forallb_forall; exact E).
  rewrite (strip_blank line Hb) in Hd. cbn in Hd.
  injection Hd as <-. discriminate Hc.
Qed.

(** X10. Serial lines that are blank (whitespace only, or nothing at all) or
    marked with ['!'] or ['#'] never make the loop fetch: after any number
    of them the loop waits for the next line with the output file, the
    pending connections, the fetches and the clock as they were; the blank
    lines have left no trace, the marked ones a warning each. *)
Theorem X10_blank_and_marked_lines_pass cfg now lines : forall w,
  Forall (fun line => blank line \/ marked line) lines ->
  exists warnings,
    main_loop cfg now lines w
    = (Blocked,
       mkWorld (log_file w) (logger w ++ warnings) (clock_reads w)
               (servers w) (fetches w)) /\
    Forall (fun l => exists sen54log, l = WarningDataError sen54log) warnings /\
    List.length warnings
    = List.length (filter (fun line => negb (forallb Py.is_space line)) lines).
Proof.
  induction lines as [|line lines IH]; intros w Hall.
  - exists []. rewrite app_nil_r. destruct w. repeat split. constructor.
  - inversion Hall as [|? ? Hline Hall']; subst.
    cbn [main_loop filter].
    destruct Hline as [Hb|Hm].
    + rewrite (main_iter_blank _ _ _ _ Hb), (blank_forallb _ Hb).
      cbn [negb]. exact (IH w Hall').
    + destruct (main_iter_marked cfg now line w Hm) as (sen54log & ->).
      rewrite (marked_not_blank _ Hm). cbn [negb].
      destruct (IH (warn (WarningDataError sen54log) w) Hall')
        as (warnings & -> & Hw & Hlen).
      exists (WarningDataError sen54log :: warnings).
      cbn [warn log_file logger clock_reads servers fetches List.length].
      rewrite <- app_assoc. repeat split.
      * constructor; [eauto|exact Hw].
      * f_equal. exact Hlen.
Qed.

(** ** The connection of a fetch *)

Lemma for_clusters_not_blocked ieee cs message_id values s t :
  for_clusters ieee cs message_id values s <> (Blocked, t).
Proof.
  intros H. apply for_clusters_run in H.
  destruct H as (_ & _ & tr & _ & _ & []).
Qed.

(** With two events to come the handshake does not hang. *)
Lemma authorize_two_events self d first d' ev' rest snt cl lg :
  fst (authorize self
         (mkTask ((d, Frame first) :: (d', ev') :: rest) snt cl None lg))
  <> Blocked.
Proof.
  unfold authorize, bind, ha_recv. cbn.
  destruct (getitem first "type") as [e|ty]; cbn; [discriminate|].
  destruct (eq_str ty "auth_required"); cbn; [|discriminate].
  destruct ev' as [auth_response| |]; cbn; try discriminate.
  destruct (getitem auth_response "type") as [e|ty']; cbn; [discriminate|].
  destruct (eq_str ty' "auth_ok"); cbn; discriminate.
Qed.

(** X11. The handshake is the only place where a fetch can hang: the fetch
    is blocked for ever exactly when the server sends nothing at all, or a
    challenge and then nothing.  In every other case the fetch ends, by a
    return or by an exception, and leaves the connection closed; a fetch
    that hangs leaves it open. *)
Theorem X11_fetch_hangs_only_in_handshake self ieee server r t :
  get_values self ieee (connect server) = (r, t) ->
  (r = Blocked <->
   server = [] \/ exists d first, server = [(d, Frame first)] /\ challenge first) /\
  (r <> Blocked -> closed t = true) /\
  (r = Blocked -> closed t = false).
Proof.
  intros H.
  assert (Hclosed : r <> Blocked -> closed t = true)
    by (destruct (get_values_run _ _ _ _ _ H) as (_ & Hc & _); exact Hc).
  assert (Hopen : r = Blocked -> closed t = false).
  { intros ->. rewrite get_values_unfold in H.
    destruct (authorize self (connect server)) as [ra sa] eqn:Ha.
    apply authorize_inv in Ha; [|reflexivity].
    destruct Ha as (_ & Hc & _).
    destruct ra as [[]|e| |]; try discriminate.
    - destruct (for_clusters ieee clusters 0 [] sa) as [[v|e| |] t0] eqn:Hf;
        try discriminate.
      elim (for_clusters_not_blocked _ _ _ _ _ _ Hf).
    - inversion H; subst. exact Hc. }
  split; [|split; assumption].
  rewrite get_values_unfold in H. unfold connect in H.
  destruct server as [|[d ev] rest].
  { cbn in H. inversion H; subst. split; [now left|reflexivity]. }
  assert (Hne : forall P : Prop,
             ((d, ev) :: rest = [] \/ P) -> P)
    by (intros P [E|HP]; [discriminate|exact HP]).
  destruct ev as [first| |];
    [|cbn in H; inversion H; subst; split; [discriminate|];
      intros HP; apply Hne in HP; destruct HP as (? & ? & E & _); discriminate..].
  destruct (getitem first "type") as [e|ty] eqn:Hty.
  { unfold authorize, bind, ha_recv in H. cbn in H. rewrite Hty in H.
    cbn in H. inversion H; subst. split; [discriminate|].
    intros HP. apply Hne in HP.
    destruct HP as (d0 & first0 & E & (ty & Hty0 & _)).
    injection E as -> ->. congruence. }
  destruct (eq_str ty "auth_required") eqn:Hc.
  2:{ rewrite (authorize_unchallenged _ _ _ _ _ _ _ _ Hty Hc) in H.
      destruct (for_clusters ieee clusters 0 [] _) as [[v|e| |] t0] eqn:Hf in H;
        try (inversion H; subst; split; [discriminate|];
             intros HP; apply Hne in HP;
             destruct HP as (d0 & first0 & E & (ty0 & Hty0 & Hc0));
             injection E as -> ->; congruence).
      elim (for_clusters_not_blocked _ _ _ _ _ _ Hf). }
  assert (Hch : challenge first) by (exists ty; auto).
  destruct rest as [|[d' ev'] rest'].
  { unfold authorize, bind, ha_recv in H. cbn in H. rewrite Hty in H.
    cbn in H. rewrite Hc in H. cbn in H. inversion H; subst.
    split; [|reflexivity]. intros _. right. eauto. }
  assert (Hno : r <> Blocked ->
                (r = Blocked <->
                 (d, Frame first) :: (d', ev') :: rest' = [] \/
                 (exists d0 first0,
                     (d, Frame first) :: (d', ev') :: rest' = [(d0, Frame first0)] /\
                     challenge first0))).
  { intros Hr. split; [contradiction|].
    intros [E|(d0 & first0 & E & _)]; discriminate. }
  apply Hno.
  destruct (authorize self _) as [ra sa] eqn:Ha in H.
  pose proof (authorize_two_events self d first d' ev' rest' [] false []) as Hnb.
  rewrite Ha in Hnb. cbn [fst] in Hnb.
  destruct ra as [[]|e| |]; try contradiction;
    try (inversion H; subst; discriminate).
  destruct (for_clusters ieee clusters 0 [] sa) as [[v|e| |] t0] eqn:Hf in H;
    try (inversion H; subst; discriminate).
  elim (for_clusters_not_blocked _ _ _ _ _ _ Hf).
Qed.

(** ** Connections over the run of the main loop *)

Lemma emit_blocked ts sen54log rf w r w' :
  emit ts sen54log (rf, w) = (r, w') ->
  r <> Blocked -> rf <> Blocked.
Proof. intros H Hr ->. cbn in H. inversion H; subst. congruence. Qed.

Lemma emit_fetches ts sen54log rf w r w' :
  emit ts sen54log (rf, w) = (r, w') ->
  servers w' = servers w /\ fetches w' = fetches w.
Proof.
  unfold emit. destruct rf as [[[|v vs]|]|e| |];
    try (intros H; inversion H; subst; split; reflexivity).
  destruct (strs (v :: vs)) as [items|];
    [destruct (Py.encodable (Py.join "," items))|];
    intros H; inversion H; subst; split; reflexivity.
Qed.

(** A turn of the main loop opens no connection, or it opens the next one,
    fetches on it and, unless the fetch hangs, has it closed. *)
Lemma main_iter_connections cfg now line w r w' :
  main_iter cfg now line w = (r, w') ->
  (servers w' = servers w /\ fetches w' = fetches w) \/
  (exists server,
      servers w = server :: servers w' /\
      fetches w' =
        fetches w
        ++ [snd (get_values (mkZHAReader (c_uri cfg) (c_token cfg))
                            (c_vindstyrka cfg) (connect server))] /\
      (r <> Blocked ->
       closed (snd (get_values (mkZHAReader (c_uri cfg) (c_token cfg))
                               (c_vindstyrka cfg) (connect server))) = true)).
Proof.
  unfold main_iter.
  destruct (Py.bytes_truthy _); [|intros H; inversion H; now left].
  destruct (Py.decode _) as [text|]; [|intros H; inversion H; now left].
  destruct (Py.first_char _) as [c|]; [|intros H; inversion H; now left].
  destruct (_ || _)%bool; [intros H; inversion H; now left|].
  intros H.
  change (emit (now (clock_reads w)) (Py.rstrip_comma text)
               (fetch (mkZHAReader (c_uri cfg) (c_token cfg))
                      (c_vindstyrka cfg) (tick w)) = (r, w')) in H.
  unfold fetch in H. cbn [servers tick] in H.
  destruct (servers w) as [|server servers'] eqn:Hsrv.
  { apply emit_fetches in H. cbn in H. rewrite Hsrv in H. left. exact H. }
  destruct (get_values _ _ (connect server)) as [rf t] eqn:Hg.
  pose proof (emit_blocked _ _ _ _ _ _ H) as Hb.
  apply emit_fetches in H. cbn [servers fetches] in H. destruct H as (-> & ->).
  right. exists server. rewrite Hg. cbn [snd fetches tick].
  split; [reflexivity|]. split; [reflexivity|].
  intros Hr. destruct (get_values_run _ _ _ _ _ Hg) as (_ & Hc & _).
  apply Hc, Hb, Hr.
Qed.

Lemma filter_open_closed l :
  Forall (fun t => closed t = true) l ->
  filter (fun t => negb (closed t)) l = [].
Proof.
  induction 1 as [|t l Ht _ IH]; [reflexivity|].
  cbn [filter]. rewrite Ht. exact IH.
Qed.

(** X12. Over a run of the main loop every fetch has a connection of its
    own: the fetches made are, in order, those on the connections used up,
    one for each.  At no time is more than one connection open, and when the
    loop has ended with an exception, none is. *)
Theorem X12_one_connection_per_fetch cfg now lines : forall w r w',
  main_loop cfg now lines w = (r, w') ->
  Forall (fun t => closed t = true) (fetches w) ->
  exists used,
    servers w = used ++ servers w' /\
    fetches w' =
      fetches w
      ++ map (fun server =>
                snd (get_values (mkZHAReader (c_uri cfg) (c_token cfg))
                                (c_vindstyrka cfg) (connect server))) used /\
    List.length (filter (fun t => negb (closed t)) (fetches w')) <= 1 /\
    (r <> Blocked -> Forall (fun t => closed t = true) (fetches w')).
Proof.
  induction lines as [|line lines IH]; intros w r w' H Hall.
  - inversion H; subst. exists []. rewrite app_nil_r.
    rewrite (filter_open_closed _ Hall). repeat split; auto.
  - cbn [main_loop] in H.
    destruct (main_iter cfg now line w) as [r1 w1] eqn:Hi.
    apply main_iter_connections in Hi.
    assert (Hstop : r1 <> Done tt -> (r1, w1) = (r, w') ->
              exists used,
                servers w = used ++ servers w' /\
                fetches w' =
                  fetches w
                  ++ map (fun server =>
                            snd (get_values
                                   (mkZHAReader (c_uri cfg) (c_token cfg))
                                   (c_vindstyrka cfg) (connect server))) used /\
                List.length (filter (fun t => negb (closed t)) (fetches w')) <= 1 /\
                (r <> Blocked -> Forall (fun t => closed t = true) (fetches w'))).
    { intros _ E. inversion E; subst.
      destruct Hi as [(Hs & Hf)|(server & Hs & Hf & Hc)].
      - exists []. rewrite Hs, Hf, app_nil_r, (filter_open_closed _ Hall).
        repeat split; auto.
      - exists [server]. rewrite Hs, Hf, filter_app, (filter_open_closed _ Hall).
        cbn [map app]. repeat split.
        + cbn [filter]. destruct (negb _); cbn; lia.
        + intros Hr. apply Forall_app. split; [exact Hall|].
          constructor; [exact (Hc Hr)|constructor]. }
    destruct r1 as [[]|e| |]; try (apply Hstop; [discriminate|exact H]).
    assert (Hall1 : Forall (fun t => closed t = true) (fetches w1)).
    { destruct Hi as [(_ & ->)|(server & _ & -> & Hc)]; [exact Hall|].
      apply Forall_app. split; [exact Hall|].
      constructor; [apply Hc; discriminate|constructor]. }
    destruct (IH _ _ _ H Hall1) as (used & Hs' & Hf' & Hone & Hc').
    destruct Hi as [(Hs & Hf)|(server & Hs & Hf & _)].
    + exists used. rewrite <- Hs, <- Hf. repeat split; assumption.
    + exists (server :: used). rewrite Hs, Hs', Hf', Hf, <- app_assoc.
      repeat split; try assumption.
      rewrite Hf', Hf, <- app_assoc in Hone. exact Hone.
      rewrite Hf', Hf, <- app_assoc in Hc'. exact Hc'.
Qed.

(** ** The serial fragment *)

Lemma rstrip_comma_no_trailing : forall s p,
  Py.rstrip_comma s <> (p ++ ",")%string.
Proof.
  induction s as [|c s IH]; intros p.
  - destruct p; discriminate.
  - cbn [Py.rstrip_comma].
    destruct (Py.rstrip_comma s) as [|x t] eqn:E.
    + destruct (Ascii.eqb_spec c ","); [destruct p; discriminate|].
      destruct p as [|y p]; cbn; intros H; inversion H; subst;
        [congruence|destruct p; discriminate].
    + destruct p as [|y p]; cbn; intros H; [discriminate H|].
      injection H as _ H. exact (IH p H).
Qed.

Lemma rstrip_comma_split : forall s,
  exists n,
    s = (Py.rstrip_comma s ++ string_of_list_ascii (repeat ","%char n))%string.
Proof.
  induction s as [|c s (n & IH)].
  - exists 0. reflexivity.
  - cbn [Py.rstrip_comma].
    destruct (Py.rstrip_comma s) as [|x t] eqn:E.
    + cbn in IH. destruct (Ascii.eqb_spec c ",") as [->|Hc].
      * exists (S n). cbn. rewrite <- IH. reflexivity.
      * exists n. cbn. rewrite <- IH. reflexivity.
    + exists n. cbn. cbn in IH. rewrite <- IH. reflexivity.
Qed.

(** X13. The serial fragment of an accepted line is the line without the
    whitespace around it and, after that, without the commas at its end,
    byte for byte: it is not empty, does not end with a comma and starts
    with neither ['!'] nor ['#']. *)
Theorem X13_fragment_of_accepted_line line sen54log :
  accepts line sen54log ->
  exists n,
    list_byte_of_string
      (sen54log ++ string_of_list_ascii (repeat ","%char n))%string
    = Py.strip line /\
    sen54log <> ""%string /\
    (forall p, sen54log <> (p ++ ",")%string) /\
    (forall rest,
        sen54log <> String "!" rest /\ sen54log <> String "#" rest).
Proof.
  intros (text & c & Hd & -> & Hc & H1 & H2).
  destruct (rstrip_comma_split text) as (n & Hn).
  exists n. rewrite <- Hn.
  unfold Py.decode in Hd.
  destruct (Py.utf8_valid (Py.strip line)); [|discriminate].
  injection Hd as <-.
  split; [apply list_byte_of_string_of_list_byte|].
  split; [intros E; rewrite E in Hc; discriminate|].
  split; [apply rstrip_comma_no_trailing|].
  intros rest. split; intros E; rewrite E in Hc; cbn in Hc; congruence.
Qed.

(** ** The further theorems at work on sample runs *)

Lemma chatter_other id message_id :
  (id =? message_id)%Z = false -> other_id message_id (Examples.chatter id).
Proof.
  intros H. exists (JObj [("id", JInt id); ("type", JStr "event")]), (JInt id).
  repeat split. exact H.
Defined.

Lemma response_answers id success v :
  answers (Examples.response id success v) id.
Proof. exists (JInt id). split; [reflexivity|apply Z.eqb_refl]. Defined.

Lemma response_ok id v :
  attempt_ok id (Answered (Examples.response id true v) (JStr v)).
Proof.
  split; [apply response_answers|].
  split; [exists (JBool true); split; reflexivity|reflexivity].
Defined.

Lemma X2_wait_deadline_is_cumulative_witness :
  Forall (other_id 2) [Examples.chatter 7; Examples.chatter 1] /\
  5 < delays [Examples.chatter 7; Examples.chatter 1] + 2 /\
  exists inbound,
    wait_for (ha_await 2) 5
      (mkTask ([Examples.chatter 7; Examples.chatter 1]
                 ++ (2, Frame (Examples.response 2 true "81.0")) :: [])
              [] false None [])
    = (Raise TimeoutError, mkTask inbound [] false None []) /\
    delays inbound + 5
    = delays ([Examples.chatter 7; Examples.chatter 1]
                ++ (2, Frame (Examples.response 2 true "81.0")) :: []).
Proof.
  assert (H1 : Forall (other_id 2) [Examples.chatter 7; Examples.chatter 1])
    by (repeat constructor; apply chatter_other; reflexivity).
  assert (H2 : 5 < delays [Examples.chatter 7; Examples.chatter 1] + 2)
    by (cbn; lia).
  split; [exact H1|]. split; [exact H2|].
  exact (X2_wait_deadline_is_cumulative 2 _ 2 _ [] [] false [] H1 H2).
Defined.

Lemma typed_acceptance : acceptance (Examples.typed "auth_ok").
Proof. exists (JStr "auth_ok"). split; reflexivity. Defined.

Lemma X4_quiet_server_writes_nothing_witness :
  accepts Examples.sen54 "1455130,1347;PRO,8,202,232,MYS,3,3194,6448,64479" /\
  servers (Examples.world0 [Examples.handshake]) = [Examples.handshake] /\
  challenge (Examples.typed "auth_required") /\
  acceptance (Examples.typed "auth_ok") /\
  quiet_for 20 [] /\
  get_values Examples.zha (c_vindstyrka Examples.cfg)
    (connect Examples.handshake)
  = (Done (Some []),
     mkTask (age 20 [])
            (auth_frame Examples.zha
               :: requests (c_vindstyrka Examples.cfg) 0 clusters)
            true None (repeat ErrorTimedOut 4)) /\
  main_loop Examples.cfg Examples.now [Examples.sen54; Examples.marked]
            (Examples.world0 [Examples.handshake])
  = main_loop Examples.cfg Examples.now [Examples.marked]
      (fetched_world (Examples.world0 [Examples.handshake]) []
         (mkTask (age 20 [])
                 (auth_frame Examples.zha
                    :: requests (c_vindstyrka Examples.cfg) 0 clusters)
                 true None (repeat ErrorTimedOut 4))).
Proof.
  split; [exact sen54_accepted|]. split; [reflexivity|].
  split; [exact typed_challenge|]. split; [exact typed_acceptance|].
  split; [exact I|].
  exact (X4_quiet_server_writes_nothing
           Examples.cfg Examples.now Examples.sen54 [Examples.marked]
           (Examples.world0 [Examples.handshake]) _ 0 1 _ _ [] []
           sen54_accepted eq_refl typed_challenge typed_acceptance I).
Defined.

Lemma X5_loop_after_the_fetch_witness :
  accepts Examples.sen54 "1455130,1347;PRO,8,202,232,MYS,3,3194,6448,64479" /\
  servers (Examples.world0 [Examples.failing]) = [Examples.failing] /\
  get_values (mkZHAReader (c_uri Examples.cfg) (c_token Examples.cfg))
             (c_vindstyrka Examples.cfg) (connect Examples.failing)
    = (fst (Examples.fetched Examples.failing),
       snd (Examples.fetched Examples.failing)) /\
  ((exists response,
       In (ErrorResponse response)
          (logged (snd (Examples.fetched Examples.failing)))) \/
   fst (Examples.fetched Examples.failing) = Done (Some [])) /\
  main_loop Examples.cfg Examples.now [Examples.sen54; Examples.marked]
            (Examples.world0 [Examples.failing])
  = main_loop Examples.cfg Examples.now [Examples.marked]
      (fetched_world (Examples.world0 [Examples.failing]) []
         (snd (Examples.fetched Examples.failing))).
Proof.
  assert (H3 : get_values
                 (mkZHAReader (c_uri Examples.cfg) (c_token Examples.cfg))
                 (c_vindstyrka Examples.cfg) (connect Examples.failing)
               = (fst (Examples.fetched Examples.failing),
                  snd (Examples.fetched Examples.failing))) by runs.
  assert (H4 : (exists response,
                   In (ErrorResponse response)
                      (logged (snd (Examples.fetched Examples.failing)))) \/
               fst (Examples.fetched Examples.failing) = Done (Some []))
    by (left; exists (Examples.response 2 false ""); vm_compute; left;
        reflexivity).
  split; [exact sen54_accepted|]. split; [reflexivity|].
  split; [exact H3|]. split; [exact H4|].
  exact (proj1 (X5_loop_after_the_fetch
                  Examples.cfg Examples.now Examples.sen54 [Examples.marked]
                  (Examples.world0 [Examples.failing]) _ _ [] _ _
                  sen54_accepted eq_refl H3) H4).
Defined.

Lemma X8_undecodable_line_ends_loop_witness :
  In xff [x31; xff; x0a] /\
  never_utf8 xff = true /\
  main_loop Examples.cfg Examples.now ([x31; xff; x0a] :: [Examples.sen54])
            (Examples.world0 [Examples.all_four])
  = (Raise UnicodeDecodeError, Examples.world0 [Examples.all_four]).
Proof.
  assert (H1 : In xff [x31; xff; x0a]) by (right; left; reflexivity).
  assert (H2 : never_utf8 xff = true) by reflexivity.
  split; [exact H1|]. split; [exact H2|].
  exact (X8_undecodable_line_ends_loop Examples.cfg Examples.now _
           [Examples.sen54] (Examples.world0 [Examples.all_four]) xff H1 H2).
Defined.

Lemma X9_non_string_result_ends_loop_witness :
  accepts Examples.sen54 "1455130,1347;PRO,8,202,232,MYS,3,3194,6448,64479" /\
  servers (Examples.world0 [Examples.numeric]) = [Examples.numeric] /\
  get_values (mkZHAReader (c_uri Examples.cfg) (c_token Examples.cfg))
             (c_vindstyrka Examples.cfg) (connect Examples.numeric)
    = (Done (Some [JInt 23]), snd (Examples.fetched Examples.numeric)) /\
  In (JInt 23) [JInt 23] /\
  (forall s, JInt 23 <> JStr s) /\
  main_loop Examples.cfg Examples.now [Examples.sen54; Examples.marked]
            (Examples.world0 [Examples.numeric])
  = (Raise TypeError,
     fetched_world (Examples.world0 [Examples.numeric]) []
       (snd (Examples.fetched Examples.numeric))).
Proof.
  assert (H3 : get_values
                 (mkZHAReader (c_uri Examples.cfg) (c_token Examples.cfg))
                 (c_vindstyrka Examples.cfg) (connect Examples.numeric)
               = (Done (Some [JInt 23]), snd (Examples.fetched Examples.numeric)))
    by runs.
  assert (H4 : In (JInt 23) [JInt 23]) by (left; reflexivity).
  assert (H5 : forall s, JInt 23 <> JStr s) by (intros s; discriminate).
  split; [exact sen54_accepted|]. split; [reflexivity|].
  split; [exact H3|]. split; [exact H4|]. split; [exact H5|].
  exact (X9_non_string_result_ends_loop
           Examples.cfg Examples.now Examples.sen54 [Examples.marked]
           (Examples.world0 [Examples.numeric]) _ _ [] _ _ _
           sen54_accepted eq_refl H3 H4 H5).
Defined.

Lemma marked_is_marked : marked Examples.marked.
Proof.
  exists "!ERR sensor fault"%string, "!"%char.
  repeat split. left. reflexivity.
Defined.

Lemma X10_blank_and_marked_lines_pass_witness :
  Forall (fun line => blank line \/ marked line)
         [[x20; x0d; x0a]; Examples.marked; []] /\
  exists warnings,
    main_loop Examples.cfg Examples.now [[x20; x0d; x0a]; Examples.marked; []]
              (Examples.world0 [Examples.all_four])
    = (Blocked,
       mkWorld (log_file (Examples.world0 [Examples.all_four]))
               (logger (Examples.world0 [Examples.all_four]) ++ warnings)
               (clock_reads (Examples.world0 [Examples.all_four]))
               (servers (Examples.world0 [Examples.all_four]))
               (fetches (Examples.world0 [Examples.all_four]))) /\
    Forall (fun l => exists sen54log, l = WarningDataError sen54log) warnings /\
    List.length warnings
    = List.length
        (filter (fun line => negb (forallb Py.is_space line))
                [[x20; x0d; x0a]; Examples.marked; []]).
Proof.
  assert (H : Forall (fun line => blank line \/ marked line)
                     [[x20; x0d; x0a]; Examples.marked; []]).
  { constructor; [left; repeat constructor|].
    constructor; [right; exact marked_is_marked|].
    constructor; [left; constructor|constructor]. }
  split; [exact H|].
  exact (X10_blank_and_marked_lines_pass Examples.cfg Examples.now _
           (Examples.world0 [Examples.all_four]) H).
Defined.

Lemma X11_fetch_hangs_only_in_handshake_witness :
  get_values Examples.zha (c_vindstyrka Examples.cfg)
             (connect [(3, Frame (Examples.typed "auth_required"))])
    = (fst (Examples.fetched [(3, Frame (Examples.typed "auth_required"))]),
       snd (Examples.fetched [(3, Frame (Examples.typed "auth_required"))])) /\
  (fst (Examples.fetched [(3, Frame (Examples.typed "auth_required"))])
   = Blocked <->
   [(3, Frame (Examples.typed "auth_required"))] = [] \/
   exists d first,
     [(3, Frame (Examples.typed "auth_required"))] = [(d, Frame first)] /\
     challenge first) /\
  (fst (Examples.fetched [(3, Frame (Examples.typed "auth_required"))])
   <> Blocked ->
   closed (snd (Examples.fetched [(3, Frame (Examples.typed "auth_required"))]))
   = true) /\
  (fst (Examples.fetched [(3, Frame (Examples.typed "auth_required"))])
   = Blocked ->
   closed (snd (Examples.fetched [(3, Frame (Examples.typed "auth_required"))]))
   = false).
Proof.
  assert (H : get_values Examples.zha (c_vindstyrka Examples.cfg)
                (connect [(3, Frame (Examples.typed "auth_required"))])
              = (fst (Examples.fetched
                        [(3, Frame (Examples.typed "auth_required"))]),
                 snd (Examples.fetched
                        [(3, Frame (Examples.typed "auth_required"))])))
    by runs.
  split; [exact H|].
  exact (X11_fetch_hangs_only_in_handshake _ _ _ _ _ H).
Defined.

Lemma X12_one_connection_per_fetch_witness :
  let lines := [Examples.sen54; Examples.marked; Examples.sen54] in
  let w := Examples.world0 [Examples.all_four; Examples.rejecting] in
  let r := fst (main_loop Examples.cfg Examples.now lines w) in
  let w' := snd (main_loop Examples.cfg Examples.now lines w) in
  main_loop Examples.cfg Examples.now lines w = (r, w') /\
  Forall (fun t => closed t = true) (fetches w) /\
  exists used,
    servers w = used ++ servers w' /\
    fetches w' =
      fetches w
      ++ map (fun server =>
                snd (get_values
                       (mkZHAReader (c_uri Examples.cfg) (c_token Examples.cfg))
                       (c_vindstyrka Examples.cfg) (connect server))) used /\
    List.length (filter (fun t => negb (closed t)) (fetches w')) <= 1 /\
    (r <> Blocked -> Forall (fun t => closed t = true) (fetches w')).
Proof.
  intros lines w r w'.
  assert (H1 : main_loop Examples.cfg Examples.now lines w = (r, w')) by runs.
  assert (H2 : Forall (fun t => closed t = true) (fetches w)) by constructor.
  split; [exact H1|]. split; [exact H2|].
  exact (X12_one_connection_per_fetch Examples.cfg Examples.now lines w r w'
           H1 H2).
Defined.

Lemma X13_fragment_of_accepted_line_witness :
  accepts Examples.sen54 "1455130,1347;PRO,8,202,232,MYS,3,3194,6448,64479" /\
  exists n,
    list_byte_of_string
      ("1455130,1347;PRO,8,202,232,MYS,3,3194,6448,64479"
         ++ string_of_list_ascii (repeat ","%char n))%string
    = Py.strip Examples.sen54 /\
    "1455130,1347;PRO,8,202,232,MYS,3,3194,6448,64479"%string <> ""%string /\
    (forall p,
        "1455130,1347;PRO,8,202,232,MYS,3,3194,6448,64479"%string
        <> (p ++ ",")%string) /\
    (forall rest,
        "1455130,1347;PRO,8,202,232,MYS,3,3194,6448,64479"%string
        <> String "!" rest /\
        "1455130,1347;PRO,8,202,232,MYS,3,3194,6448,64479"%string
        <> String "#" rest).
Proof.
  split; [exact sen54_accepted|].
  exact (X13_fragment_of_accepted_line _ _ sen54_accepted).
Defined.

(** ** What a wait takes from the connection *)

(** [ha_await] under a deadline, read off its result: what it returns is a
    response to [message_id] that came in, after messages with other ids,
    before the time left was up; a timeout means that after such messages
    nothing came in until the time was up; any other exception comes from
    an event that breaks off the wait.  It does not block and always
    ends. *)
Lemma ha_await_taken message_id snt cl lg : forall inbound t r s',
  ha_await message_id (mkTask inbound snt cl (Some t) lg) = (r, s') ->
  exists after t',
    s' = mkTask after snt cl (Some t') lg /\
    match r with
    | Done response =>
      answers response message_id /\
      exists skipped d,
        inbound = skipped ++ (d, Frame response) :: after /\
        Forall (other_id message_id) skipped /\
        delays skipped + d < t
    | Raise e =>
      (e = TimeoutError /\
       exists skipped pending,
         inbound = skipped ++ pending /\
         Forall (other_id message_id) skipped /\
         delays skipped <= t /\ (skipped = [] \/ delays skipped < t) /\
         silent (t - delays skipped) pending /\
         after = age (t - delays skipped) pending) \/
      (exists skipped d ev,
          inbound = skipped ++ (d, ev) :: after /\
          Forall (other_id message_id) skipped /\
          delays skipped + d < t /\ breaks ev e)
    | Blocked | OutOfFuel => False
    end.
Proof.
  induction inbound as [|[d ev] rest IH]; intros t r s' H.
  - unfold ha_await in H. cbn [inbox List.length] in H.
    rewrite ha_await_loop_S in H. unfold ha_recv in H.
    cbn [inbox deadline] in H. inversion H; subst; clear H.
    exists [], 0. split; [reflexivity|]. left. split; [reflexivity|].
    exists [], []. change (delays []) with 0.
    repeat split; auto using Forall_nil with arith.
  - destruct (Nat.ltb_spec d t) as [Hlt|Hge].
    + assert (Hd : (d <? t)%nat = true) by (apply Nat.ltb_lt; exact Hlt).
      assert (Hone : forall e,
                 breaks ev e ->
                 exists skipped d0 ev0,
                   (d, ev) :: rest = skipped ++ (d0, ev0) :: rest /\
                   Forall (other_id message_id) skipped /\
                   delays skipped + d0 < t /\ breaks ev0 e).
      { intros e Hb. exists [], d, ev. change (delays []) with 0.
        repeat split; auto using Forall_nil. }
      destruct ev as [message| |].
      * destruct (getitem message "id") as [e|id] eqn:Hid.
        { unfold ha_await in H. cbn [inbox List.length] in H.
          rewrite ha_await_loop_S in H. unfold ha_recv in H.
          cbn [inbox deadline] in H. rewrite Hd in H.
          unfold set_inbox, set_deadline in H.
          cbn [deliver ret inbox sent closed deadline logged] in H.
          rewrite Hid in H. inversion H; subst; clear H.
          exists rest, (t - d). split; [reflexivity|]. right.
          apply Hone. exact Hid. }
        destruct (eq_int id message_id) eqn:Heq.
        { unfold ha_await in H. cbn [inbox List.length] in H.
          rewrite ha_await_loop_S in H. unfold ha_recv in H.
          cbn [inbox deadline] in H. rewrite Hd in H.
          unfold set_inbox, set_deadline in H.
          cbn [deliver ret inbox sent closed deadline logged] in H.
          rewrite Hid, Heq in H. inversion H; subst; clear H.
          exists rest, (t - d). split; [reflexivity|].
          split; [exists id; split; assumption|].
          exists [], d. change (delays []) with 0.
          repeat split; auto using Forall_nil. }
        rewrite (ha_await_skip message_id
                   (mkTask ((d, Frame message) :: rest) snt cl (Some t) lg)
                   d message id rest t eq_refl eq_refl Hlt Hid Heq) in H.
        unfold set_inbox, set_deadline in H.
        cbn [inbox sent closed deadline logged] in H.
        apply IH in H. destruct H as (after & t' & -> & Hr).
        exists after, t'. split; [reflexivity|].
        assert (Ho : other_id message_id (d, Frame message))
          by (exists message, id; repeat split; assumption).
        destruct r as [response|e| |]; try contradiction.
        { destruct Hr as (Hans & skipped & d0 & -> & Hall & Hsum).
          split; [exact Hans|].
          exists ((d, Frame message) :: skipped), d0.
          rewrite delays_cons.
          split; [reflexivity|]. split; [constructor; assumption|lia]. }
        { destruct Hr as [(-> & skipped & pending & -> & Hall & Hsum & Hin & Hsil & ->)
                         |(skipped & d0 & ev0 & -> & Hall & Hsum & Hb)].
          - left. split; [reflexivity|].
            exists ((d, Frame message) :: skipped), pending.
            rewrite delays_cons.
            replace (t - (d + delays skipped)) with (t - d - delays skipped)
              by lia.
            split; [reflexivity|]. split; [constructor; assumption|].
            split; [lia|]. split; [right; destruct Hin as [->|Hin];
                                     [change (delays []) with 0|]; lia|].
            split; [exact Hsil|reflexivity].
          - right. exists ((d, Frame message) :: skipped), d0, ev0.
            rewrite delays_cons.
            split; [reflexivity|]. split; [constructor; assumption|].
            split; [lia|exact Hb]. }
      * unfold ha_await in H. cbn [inbox List.length] in H.
        rewrite ha_await_loop_S in H. unfold ha_recv in H.
        cbn [inbox deadline] in H. rewrite Hd in H.
        cbn [deliver raise] in H. inversion H; subst; clear H.
        eexists rest, _. split; [reflexivity|]. right.
        apply Hone. reflexivity.
      * unfold ha_await in H. cbn [inbox List.length] in H.
        rewrite ha_await_loop_S in H. unfold ha_recv in H.
        cbn [inbox deadline] in H. rewrite Hd in H.
        cbn [deliver raise] in H. inversion H; subst; clear H.
        eexists rest, _. split; [reflexivity|]. right.
        apply Hone. reflexivity.
    + assert (Hd : (d <? t)%nat = false) by (apply Nat.ltb_ge; exact Hge).
      unfold ha_await in H. cbn [inbox List.length] in H.
      rewrite ha_await_loop_S in H. unfold ha_recv in H.
      cbn [inbox deadline] in H. rewrite Hd in H.
      inversion H; subst; clear H.
      exists ((d - t, ev) :: rest), 0. split; [reflexivity|].
      left. split; [reflexivity|].
      exists [], ((d, ev) :: rest). change (delays []) with 0.
      rewrite Nat.sub_0_r.
      repeat split; auto using Forall_nil with arith.
Qed.

(** The same for the wait of the loop, with its five time units. *)
Lemma wait_for_taken message_id inbound snt cl lg r s' :
  wait_for (ha_await message_id) 5 (mkTask inbound snt cl None lg) = (r, s') ->
  exists after,
    s' = mkTask after snt cl None lg /\
    match r with
    | Done response =>
      answers response message_id /\
      exists skipped d,
        inbound = skipped ++ (d, Frame response) :: after /\
        Forall (other_id message_id) skipped /\
        delays skipped + d < 5
    | Raise e =>
      (e = TimeoutError /\
       exists skipped pending,
         inbound = skipped ++ pending /\
         Forall (other_id message_id) skipped /\
         delays skipped < 5 /\
         silent (5 - delays skipped) pending /\
         after = age (5 - delays skipped) pending) \/
      broke message_id e inbound after
    | Blocked | OutOfFuel => False
    end.
Proof.
  unfold wait_for, set_deadline at 1.
  cbn [inbox sent closed deadline logged].
  destruct (ha_await _ _) as [r1 s1] eqn:Ha. intros H.
  inversion H; subst; clear H.
  apply ha_await_taken in Ha. destruct Ha as (after & t' & -> & Hr).
  exists after. split; [reflexivity|].
  destruct r as [response|e| |]; try contradiction; [exact Hr|].
  destruct Hr as [(-> & skipped & pending & -> & Hall & Hsum & Hin & Hsil & ->)
                 |(skipped & d & ev & -> & Hall & Hsum & Hb)].
  - left. split; [reflexivity|]. exists skipped, pending.
    split; [reflexivity|]. split; [exact Hall|].
    split; [destruct Hin as [->|Hin]; [change (delays []) with 0|]; lia|].
    split; [exact Hsil|reflexivity].
  - right. exists skipped, d, ev.
    split; [reflexivity|]. split; [exact Hall|]. split; [exact Hsum|].
    left. exact Hb.
Qed.

(** One turn of the loop, from the [try] on, read off its result: the turn
    was answered, timed out or failed as an [attempt] says, having taken
    from the connection what [exchange] says; or it raised, and not a
    timeout. *)
Lemma await_response_taken message_id values inbound snt cl lg r s' :
  await_response message_id values (mkTask inbound snt cl None lg) = (r, s') ->
  exists after,
    match r with
    | Done (Next values') =>
      exists a,
        is_failed a = false /\ attempt_ok message_id a /\
        exchange message_id a inbound after /\
        values' = values ++ value_of a /\
        s' = mkTask after snt cl None (lg ++ log_of a)
    | Done (Return v) =>
      v = None /\
      exists response,
        attempt_ok message_id (Failed response) /\
        exchange message_id (Failed response) inbound after /\
        s' = mkTask after snt cl None (lg ++ [ErrorResponse response])
    | Raise e =>
      e <> TimeoutError /\ broke message_id e inbound after /\
      s' = mkTask after snt cl None lg
    | Blocked | OutOfFuel => False
    end.
Proof.
  intros H. unfold await_response, try_except_timeout in H.
  unfold bind at 1 in H.
  destruct (wait_for (ha_await message_id) 5 _) as [r1 s1] eqn:Hw.
  apply wait_for_taken in Hw. destruct Hw as (after & -> & Hr).
  exists after. revert H.
  destruct r1 as [response|e| |]; try contradiction.
  - destruct Hr as (Hans & skipped & d & -> & Hall & Hsum).
    unfold bind at 1.
    destruct (getitem response "success") as [e|success] eqn:Hs;
      cbn [lift raise ret].
    + pose proof (getitem_not_timeout response "success") as Hn.
      rewrite Hs in Hn.
      assert (Hb : broke message_id e
                     (skipped ++ (d, Frame response) :: after) after).
      { exists skipped, d, (Frame response).
        repeat split; try assumption.
        right. exists response. repeat split; try assumption.
        left. exact Hs. }
      destruct e; intros H; inversion H; subst;
        try (split; [discriminate|split; [exact Hb|reflexivity]]).
      congruence.
    + destruct (truthy success) eqn:Ht; cbn [negb].
      * unfold bind at 1.
        destruct (getitem response "result") as [e|result] eqn:Hres;
          cbn [lift raise ret].
        -- pose proof (getitem_not_timeout response "result") as Hn.
           rewrite Hres in Hn.
           assert (Hb : broke message_id e
                          (skipped ++ (d, Frame response) :: after) after).
           { exists skipped, d, (Frame response).
             repeat split; try assumption.
             right. exists response. repeat split; try assumption.
             right. split; [exists success; split; assumption|exact Hres]. }
           destruct e; intros H; inversion H; subst;
             try (split; [discriminate|split; [exact Hb|reflexivity]]).
           congruence.
        -- intros H; inversion H; subst.
           exists (Answered response result). cbn [is_failed value_of log_of].
           rewrite app_nil_r.
           split; [reflexivity|].
           split; [split; [exact Hans|split; [exists success; split; assumption
                                            |exact Hres]]|].
           split; [exists skipped, d; repeat split; assumption|].
           split; reflexivity.
      * unfold bind at 1, log at 1. cbn [ret]. unfold push_log.
        cbn [inbox sent closed deadline logged].
        intros H; inversion H; subst.
        split; [reflexivity|]. exists response.
        split; [split; [exact Hans|exists success; split; assumption]|].
        split; [exists skipped, d; repeat split; assumption|reflexivity].
  - destruct Hr as [(-> & skipped & pending & -> & Hall & Hsum & Hsil & ->)
                   |Hb].
    + unfold bind at 1, log at 1. cbn [ret]. unfold push_log.
      cbn [inbox sent closed deadline logged].
      intros H; inversion H; subst.
      exists TimedOut. cbn [is_failed value_of log_of attempt_ok].
      rewrite app_nil_r.
      split; [reflexivity|]. split; [exact I|].
      split; [exists skipped, pending; repeat split; assumption|].
      split; reflexivity.
    + assert (Hn : e <> TimeoutError).
      { destruct Hb as (skipped & d & ev & _ & _ & _ & [Hb|Hb]).
        - eapply breaks_not_timeout; exact Hb.
        - destruct Hb as (response & _ & _ & [Hi|(_ & Hi)]);
            intros ->; eapply getitem_not_timeout; exact Hi. }
      destruct e; intros H; inversion H; subst;
        try (split; [exact Hn|split; [exact Hb|reflexivity]]).
      congruence.
Qed.

(** The loop over the clusters, read off its result: the turns [tr] it
    went through, what they took from the connection one after the other,
    and the state it leaves; when it raised, the turn after them broke
    off. *)
Lemma for_clusters_taken ieee :
  forall cs message_id values inbound snt cl lg r s',
  for_clusters ieee cs message_id values (mkTask inbound snt cl None lg)
    = (r, s') ->
  exists tr after,
    exchanges message_id tr inbound after /\
    match r with
    | Done (Some vs) =>
      existsb is_failed tr = false /\ List.length tr = List.length cs /\
      vs = values ++ flat_map value_of tr /\
      s' = mkTask after (snt ++ requests ieee message_id cs) cl None
                  (lg ++ flat_map log_of tr)
    | Done None =>
      (exists tr0 response,
          tr = tr0 ++ [Failed response] /\ existsb is_failed tr0 = false) /\
      List.length tr <= List.length cs /\
      s' = mkTask after
             (snt ++ requests ieee message_id (firstn (List.length tr) cs))
             cl None (lg ++ flat_map log_of tr)
    | Raise e =>
      e <> TimeoutError /\
      existsb is_failed tr = false /\ List.length tr < List.length cs /\
      exists left,
        broke (message_id + Z.of_nat (S (List.length tr))) e after left /\
        s' = mkTask left
               (snt ++ requests ieee message_id
                         (firstn (S (List.length tr)) cs))
               cl None (lg ++ flat_map log_of tr)
    | Blocked | OutOfFuel => False
    end.
Proof.
  induction cs as [|c cs IH]; intros message_id values inbound snt cl lg r s' H.
  - inversion H; subst. exists [], inbound. split; [reflexivity|].
    cbn. rewrite !app_nil_r. repeat split.
  - rewrite for_clusters_cons in H. unfold push_sent in H.
    cbn [inbox sent closed deadline logged] in H.
    destruct (await_response _ _ _) as [r1 s1] eqn:Ha.
    apply await_response_taken in Ha. destruct Ha as (between & Ha).
    destruct r1 as [[values'|v]|e| |]; try contradiction.
    + destruct Ha as (a & Hnf & Hok & Hex & -> & ->).
      apply IH in H. destruct H as (tr & after & Htr & Hr).
      exists (a :: tr), after.
      split; [exists between; split; [exact Hok|split; [exact Hex|exact Htr]]|].
      cbn [existsb List.length firstn requests flat_map]. rewrite Hnf.
      cbn [orb].
      destruct r as [[vs|]|e| |]; try contradiction.
      * destruct Hr as (Hf & Hl & -> & ->).
        split; [exact Hf|]. split; [f_equal; exact Hl|].
        split; [rewrite <- app_assoc; reflexivity|].
        rewrite <- !app_assoc. reflexivity.
      * destruct Hr as ((tr0 & response & -> & Hf) & Hl & ->).
        split; [exists (a :: tr0), response; cbn; rewrite Hnf; split; auto|].
        split; [lia|]. rewrite <- !app_assoc. reflexivity.
      * destruct Hr as (Hn & Hf & Hl & left & Hb & ->).
        split; [exact Hn|]. split; [exact Hf|]. split; [lia|].
        exists left. split.
        -- replace (message_id + Z.of_nat (S (S (List.length tr))))%Z
             with (message_id + 1 + Z.of_nat (S (List.length tr)))%Z by lia.
           exact Hb.
        -- rewrite <- !app_assoc. reflexivity.
    + destruct Ha as (-> & response & Hok & Hex & ->).
      inversion H; subst.
      exists [Failed response], between.
      split; [exists between; split; [exact Hok|split; [exact Hex|reflexivity]]|].
      split; [exists [], response; split; reflexivity|].
      split; [cbn; lia|]. reflexivity.
    + destruct Ha as (Hn & Hb & ->). inversion H; subst.
      exists [], inbound. split; [reflexivity|].
      split; [exact Hn|]. split; [reflexivity|]. split; [cbn; lia|].
      exists between. split.
      * replace (message_id + Z.of_nat (S (@List.length attempt [])))%Z
          with (message_id + 1)%Z by (cbn; lia).
        exact Hb.
      * cbn. rewrite app_nil_r. reflexivity.
Qed.

(** A handshake that went well is one of the two that [shook] describes,
    and the rest of what the server sends is left for the loop. *)
Lemma authorize_taken self server sa :
  authorize self (connect server) = (Done tt, sa) ->
  exists hs inbound pre,
    server = hs ++ inbound /\ shook self hs pre /\
    sa = mkTask inbound pre false None [].
Proof.
  unfold authorize, connect. unfold bind at 1, ha_recv at 1.
  cbn [inbox deadline].
  destruct server as [|[d ev] rest]; [discriminate|].
  unfold set_inbox. cbn [inbox sent closed deadline logged].
  destruct ev as [first| |]; cbn [deliver raise ret]; try discriminate.
  unfold bind at 1.
  destruct (getitem first "type") as [e|ty] eqn:Hty; cbn [lift raise ret];
    [discriminate|].
  destruct (eq_str ty "auth_required") eqn:Hc.
  - unfold bind at 1, ha_send at 1. unfold bind at 1, ha_recv at 1.
    unfold push_sent. cbn [inbox sent closed deadline logged app].
    fold (auth_frame self).
    destruct rest as [|[d' ev'] rest]; [discriminate|].
    unfold set_inbox. cbn [inbox sent closed deadline logged].
    destruct ev' as [auth_response| |]; cbn [deliver raise ret];
      try discriminate.
    unfold bind at 1.
    destruct (getitem auth_response "type") as [e|ty'] eqn:Hty';
      cbn [lift raise ret]; [discriminate|].
    destruct (eq_str ty' "auth_ok") eqn:Hok; cbn [negb]; [|discriminate].
    intros H. inversion H; subst.
    exists [(d, Frame first); (d', Frame auth_response)], rest,
      [auth_frame self].
    split; [reflexivity|]. split; [|reflexivity].
    right. exists d, first, d', auth_response.
    split; [reflexivity|].
    split; [exists ty; split; assumption|].
    split; [exists ty'; split; assumption|reflexivity].
  - intros H. inversion H; subst.
    exists [(d, Frame first)], rest, [].
    split; [reflexivity|]. split; [|reflexivity].
    left. exists d, first, ty. repeat split; assumption.
Qed.

(** And a handshake that [shook] describes goes well. *)
Lemma authorize_shook self hs inbound pre :
  shook self hs pre ->
  authorize self (connect (hs ++ inbound))
  = (Done tt, mkTask inbound pre false None []).
Proof.
  intros [(d & first & ty & -> & Hty & Hc & ->)
         |(d & first & d' & auth_response & -> & Hc & Ha & ->)].
  - exact (authorize_unchallenged self d first ty inbound [] false [] Hty Hc).
  - exact (authorize_accepted self d first d' auth_response inbound [] false []
             Hc Ha).
Qed.


(** A fetch after a handshake that went well, read off its result. *)
Lemma get_values_taken self ieee hs inbound pre r t :
  shook self hs pre ->
  get_values self ieee (connect (hs ++ inbound)) = (r, t) ->
  exists tr after,
    exchanges 0 tr inbound after /\
    match r with
    | Done (Some vs) =>
      existsb is_failed tr = false /\ List.length tr = 4 /\
      vs = flat_map value_of tr /\
      t = mkTask after (pre ++ requests ieee 0 clusters) true None
                 (flat_map log_of tr)
    | Done None =>
      (exists tr0 response,
          tr = tr0 ++ [Failed response] /\ existsb is_failed tr0 = false) /\
      List.length tr <= 4 /\
      t = mkTask after
            (pre ++ requests ieee 0 (firstn (List.length tr) clusters))
            true None (flat_map log_of tr)
    | Raise e =>
      e <> TimeoutError /\
      existsb is_failed tr = false /\ List.length tr < 4 /\
      exists left,
        broke (Z.of_nat (S (List.length tr))) e after left /\
        t = mkTask left
              (pre ++ requests ieee 0 (firstn (S (List.length tr)) clusters))
              true None (flat_map log_of tr)
    | Blocked | OutOfFuel => False
    end.
Proof.
  intros Hs. rewrite get_values_unfold, (authorize_shook _ _ inbound _ Hs).
  destruct (for_clusters _ _ _ _ _) as [r0 t0] eqn:Hf.
  apply for_clusters_taken in Hf. destruct Hf as (tr & after & Htr & Hr).
  intros H. exists tr, after. split; [exact Htr|].
  destruct r0 as [[vs|]|e| |]; try contradiction; inversion H; subst.
  - destruct Hr as (Hf & Hl & -> & ->). repeat split; assumption.
  - destruct Hr as (Hex & Hl & ->). repeat split; assumption.
  - destruct Hr as (Hn & Hf & Hl & left & Hb & ->).
    split; [exact Hn|]. split; [exact Hf|]. split; [exact Hl|].
    exists left. split; [exact Hb|reflexivity].
Qed.

(** A fetch that returns has been through a handshake that went well. *)
Lemma get_values_shook self ieee server v t :
  get_values self ieee (connect server) = (Done v, t) ->
  exists hs inbound pre, server = hs ++ inbound /\ shook self hs pre.
Proof.
  rewrite get_values_unfold.
  destruct (authorize self (connect server)) as [[[]|e| |] sa] eqn:Ha;
    try discriminate.
  intros _. apply authorize_taken in Ha.
  destruct Ha as (hs & inbound & pre & E & Hs & _).
  exists hs, inbound, pre. split; assumption.
Qed.

(** ** What the connection brings, and what the fetch makes of it *)

(** When, after messages with other ids, nothing comes in until the time
    left is up, the wait times out, and what is pending is nearer by the
    time waited for it. *)
Lemma ha_await_silent message_id pending snt cl lg : forall skipped t,
  Forall (other_id message_id) skipped ->
  delays skipped < t ->
  silent (t - delays skipped) pending ->
  ha_await message_id (mkTask (skipped ++ pending) snt cl (Some t) lg)
  = (Raise TimeoutError,
     mkTask (age (t - delays skipped) pending) snt cl (Some 0) lg).
Proof.
  induction skipped as [|[d0 ev0] skipped IH]; intros t Hall Hlt Hsil.
  - change (delays []) with 0 in *. rewrite Nat.sub_0_r in *. cbn [app].
    destruct pending as [|[d ev] rest].
    + unfold ha_await. cbn [inbox List.length]. rewrite ha_await_loop_S.
      reflexivity.
    + unfold ha_await. cbn [inbox List.length]. rewrite ha_await_loop_S.
      unfold ha_recv. cbn [inbox deadline]. cbn [silent] in Hsil.
      assert (Hd : (d <? t)%nat = false) by (apply Nat.ltb_ge; lia).
      rewrite Hd. reflexivity.
  - inversion Hall as [|? ? (message & id0 & Hev & Hid0 & Hne) Hall']; subst.
    cbn [snd] in Hev. subst ev0.
    rewrite delays_cons in *. cbn [app].
    rewrite (ha_await_skip message_id
               (mkTask ((d0, Frame message) :: skipped ++ pending)
                       snt cl (Some t) lg)
               d0 message id0 (skipped ++ pending) t
               eq_refl eq_refl ltac:(lia) Hid0 Hne).
    unfold set_inbox, set_deadline; cbn [inbox sent closed deadline logged].
    replace (t - (d0 + delays skipped)) with (t - d0 - delays skipped) in *
      by lia.
    apply IH; [exact Hall'|lia|exact Hsil].
Qed.

Lemma wait_for_silent message_id skipped pending snt cl lg :
  Forall (other_id message_id) skipped ->
  delays skipped < 5 ->
  silent (5 - delays skipped) pending ->
  wait_for (ha_await message_id) 5
    (mkTask (skipped ++ pending) snt cl None lg)
  = (Raise TimeoutError,
     mkTask (age (5 - delays skipped) pending) snt cl None lg).
Proof.
  intros Hall Hlt Hsil. unfold wait_for, set_deadline at 1.
  cbn [inbox sent closed deadline logged].
  rewrite (ha_await_silent _ _ _ _ _ _ _ Hall Hlt Hsil). reflexivity.
Qed.

(** Turns that are answered or time out as [exchanges] says are the turns
    the loop goes through. *)
Lemma for_clusters_exchanges ieee :
  forall cs tr message_id values inbound after snt cl lg,
  List.length tr = List.length cs ->
  existsb is_failed tr = false ->
  exchanges message_id tr inbound after ->
  for_clusters ieee cs message_id values (mkTask inbound snt cl None lg)
  = (Done (Some (values ++ flat_map value_of tr)),
     mkTask after (snt ++ requests ieee message_id cs) cl None
            (lg ++ flat_map log_of tr)).
Proof.
  induction cs as [|c cs IH];
    intros [|a tr] message_id values inbound after snt cl lg Hl Hnf Hex;
    cbn [List.length] in Hl; try discriminate.
  - cbn in Hex. subst. cbn. rewrite !app_nil_r. reflexivity.
  - destruct Hex as (between & Hok & Hex & Htr).
    cbn [existsb] in Hnf. apply orb_false_iff in Hnf. destruct Hnf as [Ha Hnf].
    destruct a as [response result| |response]; [| |discriminate].
    + destruct Hex as (skipped & d & -> & Hall & Hsum).
      rewrite (turn_answered ieee c cs message_id values snt cl lg
                 skipped d response result between Hall Hsum Hok).
      rewrite (IH tr _ _ _ _ _ _ _ ltac:(lia) Hnf Htr).
      cbn [flat_map value_of log_of requests app].
      rewrite <- !app_assoc. reflexivity.
    + destruct Hex as (skipped & pending & -> & Hall & Hsum & Hsil & ->).
      rewrite for_clusters_cons. unfold push_sent.
      cbn [inbox sent closed deadline logged].
      rewrite (await_response_timeout _ _ _ _
                 (wait_for_silent _ _ _ _ _ _ Hall Hsum Hsil)).
      unfold push_log. cbn [inbox sent closed deadline logged].
      rewrite (IH tr _ _ _ _ _ _ _ ltac:(lia) Hnf Htr).
      cbn [flat_map value_of log_of requests app].
      rewrite <- !app_assoc. reflexivity.
Qed.

Lemma get_values_exchanges self ieee hs inbound pre tr after :
  shook self hs pre ->
  List.length tr = 4 ->
  existsb is_failed tr = false ->
  exchanges 0 tr inbound after ->
  get_values self ieee (connect (hs ++ inbound))
  = (Done (Some (flat_map value_of tr)),
     mkTask after (pre ++ requests ieee 0 clusters) true None
            (flat_map log_of tr)).
Proof.
  intros Hs Hl Hnf Hex.
  rewrite get_values_unfold, (authorize_shook _ _ inbound _ Hs).
  rewrite (for_clusters_exchanges ieee clusters tr 0 [] inbound after
             pre false [] Hl Hnf Hex).
  reflexivity.
Qed.


(** ** What the output file can encode *)

Lemma utf8_valid_app : forall n a b,
  List.length a <= n ->
  Py.utf8_valid a = true ->
  Py.utf8_valid (a ++ b) = Py.utf8_valid b.
Proof.
  induction n as [|n IH]; intros a b Hlen Hv.
  - destruct a; [reflexivity|cbn in Hlen; lia].
  - destruct a as [|b0 r0]; [reflexivity|].
    cbn [List.length] in Hlen. cbn [Py.utf8_valid] in Hv.
    cbn [app Py.utf8_valid].
    destruct (Py.in_range 0 127 b0). { apply IH; [lia|exact Hv]. }
    destruct r0 as [|b1 r1]; [discriminate|].
    cbn [List.length] in Hlen. cbn [app].
    destruct (Py.in_range 194 223 b0).
    { apply andb_true_iff in Hv. destruct Hv as [Hc Hv].
      rewrite Hc. cbn [andb]. apply IH; [lia|exact Hv]. }
    destruct r1 as [|b2 r2]; [discriminate|].
    cbn [List.length] in Hlen. cbn [app].
    destruct (Py.in_range 224 239 b0).
    { apply andb_true_iff in Hv. destruct Hv as [Hc Hv].
      rewrite Hc. cbn [andb]. apply IH; [lia|exact Hv]. }
    destruct r2 as [|b3 r3]; [discriminate|].
    cbn [List.length] in Hlen. cbn [app].
    apply andb_true_iff in Hv. destruct Hv as [Hc Hv].
    rewrite Hc. cbn [andb]. apply IH; [lia|exact Hv].
Qed.

Lemma list_byte_of_string_app (a b : string) :
  list_byte_of_string (a ++ b)%string
  = list_byte_of_string a ++ list_byte_of_string b.
Proof.
  induction a as [|c a IH]; [reflexivity|].
  cbn [append]. unfold list_byte_of_string in *.
  cbn [list_ascii_of_string map app]. f_equal. exact IH.
Qed.

Lemma encodable_app (a b : string) :
  Py.encodable a = true -> Py.encodable (a ++ b)%string = Py.encodable b.
Proof.
  unfold Py.encodable. rewrite list_byte_of_string_app.
  apply (utf8_valid_app (List.length (list_byte_of_string a))). lia.
Qed.

(** Strings that can be encoded can be encoded when joined by commas. *)
Lemma encodable_join items :
  Forall (fun v => Py.encodable v = true) items ->
  Py.encodable (Py.join "," items) = true.
Proof.
  induction items as [|v items IH]; intros Hall; [reflexivity|].
  inversion Hall as [|? ? Hv Hall']; subst.
  destruct items as [|v' items]; [exact Hv|].
  change (Py.join "," (v :: v' :: items))
    with (v ++ "," ++ Py.join "," (v' :: items))%string.
  rewrite (encodable_app _ _ Hv).
  rewrite (encodable_app ","%string _ eq_refl).
  exact (IH Hall').
Qed.

(** ** The wait within its five time units *)

(** X1. The five time units of [wait_for] are for the whole wait: messages
    with other ids are passed over, and the awaited response is returned,
    as long as all of them together have come in before the five time
    units are up; the passed-over messages are gone from the connection,
    and the wait sends and logs nothing. *)
Theorem X1_wait_passes_over_within_deadline
    message_id skipped d response rest snt cl lg :
  Forall (other_id message_id) skipped ->
  answers response message_id ->
  delays skipped + d < 5 ->
  wait_for (ha_await message_id) 5
    (mkTask (skipped ++ (d, Frame response) :: rest) snt cl None lg)
  = (Done response, mkTask rest snt cl None lg).
Proof. exact (wait_for_passes_over message_id skipped d response rest snt cl lg). Qed.

Lemma X1_wait_passes_over_within_deadline_witness :
  Forall (other_id 2) [Examples.chatter 7] /\
  answers (Examples.response 2 true "81.0") 2 /\
  delays [Examples.chatter 7] + 2 < 5 /\
  wait_for (ha_await 2) 5
    (mkTask ([Examples.chatter 7]
               ++ (2, Frame (Examples.response 2 true "81.0")) :: [])
            [] false None [])
  = (Done (Examples.response 2 true "81.0"), mkTask [] [] false None []).
Proof.
  assert (H1 : Forall (other_id 2) [Examples.chatter 7])
    by (repeat constructor; apply chatter_other; reflexivity).
  assert (H2 : answers (Examples.response 2 true "81.0") 2)
    by apply response_answers.
  assert (H3 : delays [Examples.chatter 7] + 2 < 5) by (cbn; lia).
  split; [exact H1|]. split; [exact H2|]. split; [exact H3|].
  exact (X1_wait_passes_over_within_deadline 2 _ 2 _ [] [] false [] H1 H2 H3).
Defined.

(** X6. What comes in during the wait for a response, before its five time
    units are up, and is not a message with an id ends the fetch: a frame
    that is not JSON, the end of the connection, a message without ['id']
    or a JSON value that is no object each raise out of the [try] (which
    catches timeouts only), whichever cluster is being asked and whatever
    clusters are left; nothing is logged and no further request is sent.
    A JSON object without ['id'] raises [KeyError]. *)
Theorem X6_broken_wait_ends_fetch
    ieee cluster cs message_id values snt cl lg skipped d ev e rest :
  Forall (other_id (message_id + 1)) skipped ->
  delays skipped + d < 5 ->
  breaks ev e ->
  for_clusters ieee (cluster :: cs) message_id values
    (mkTask (skipped ++ (d, ev) :: rest) snt cl None lg)
  = (Raise e,
     mkTask rest (snt ++ [request ieee (message_id + 1) cluster]) cl None lg) /\
  e <> TimeoutError /\
  (forall kv, ev = Frame (JObj kv) -> e = KeyError "id").
Proof.
  intros Hall Hle Hb.
  split; [exact (turn_breaks _ _ _ _ _ _ _ _ _ _ _ _ _ Hall Hle Hb)|].
  split; [exact (breaks_not_timeout _ _ Hb)|].
  intros kv ->. cbn in Hb. destruct (dict_get "id" kv); congruence.
Qed.

Lemma X6_broken_wait_ends_fetch_witness :
  Forall (other_id (0 + 1)) [Examples.chatter 7] /\
  delays [Examples.chatter 7] + 1 < 5 /\
  breaks Closed ConnectionClosed /\
  for_clusters "00:11" (0x042a :: [0xfc7e])%Z 0 []
    (mkTask ([Examples.chatter 7] ++ (1, Closed) :: []) [] false None [])
  = (Raise ConnectionClosed,
     mkTask [] ([] ++ [request "00:11" (0 + 1) 0x042a]) false None []) /\
  ConnectionClosed <> TimeoutError /\
  (forall kv, Closed = Frame (JObj kv) -> ConnectionClosed = KeyError "id").
Proof.
  assert (H1 : Forall (other_id (0 + 1)) [Examples.chatter 7])
    by (repeat constructor; apply chatter_other; reflexivity).
  assert (H2 : delays [Examples.chatter 7] + 1 < 5) by (cbn; lia).
  assert (H3 : breaks Closed ConnectionClosed) by reflexivity.
  split; [exact H1|]. split; [exact H2|]. split; [exact H3|].
  exact (X6_broken_wait_ends_fetch "00:11" 0x042a%Z [0xfc7e]%Z 0%Z [] []
           false [] _ 1 Closed ConnectionClosed [] H1 H2 H3).
Defined.

(** X7. A response that answers the request, comes in before the five time
    units of the wait are up, and is without ['success'], or has a true
    ['success'] and is without ['result'], makes the fetch raise
    [KeyError] for the missing key: it is neither logged as a failure nor
    passed over as a timeout, and no further request is sent. *)
Theorem X7_incomplete_response_raises
    ieee cluster cs message_id values snt cl lg skipped d kv key rest :
  Forall (other_id (message_id + 1)) skipped ->
  delays skipped + d < 5 ->
  answers (JObj kv) (message_id + 1) ->
  (dict_get "success" kv = None /\ key = "success"%string) \/
  ((exists success,
       dict_get "success" kv = Some success /\ truthy success = true) /\
   dict_get "result" kv = None /\ key = "result"%string) ->
  for_clusters ieee (cluster :: cs) message_id values
    (mkTask (skipped ++ (d, Frame (JObj kv)) :: rest) snt cl None lg)
  = (Raise (KeyError key),
     mkTask rest (snt ++ [request ieee (message_id + 1) cluster]) cl None lg).
Proof.
  intros Hall Hle Hans Hbad.
  apply turn_malformed; try assumption.
  destruct Hbad as [(Hs & ->)|((success & Hs & Ht) & Hr & ->)]; cbn [getitem].
  - left. rewrite Hs. reflexivity.
  - right. rewrite Hs, Hr. split; [eauto|reflexivity].
Qed.

Lemma X7_incomplete_response_raises_witness :
  Forall (other_id (0 + 1)) [] /\
  delays [] + 1 < 5 /\
  answers (JObj [("id", JInt 1); ("success", JBool true)]) (0 + 1) /\
  ((dict_get "success" [("id", JInt 1); ("success", JBool true)] = None /\
    "result"%string = "success"%string) \/
   ((exists success,
        dict_get "success" [("id", JInt 1); ("success", JBool true)]
        = Some success /\ truthy success = true) /\
    dict_get "result" [("id", JInt 1); ("success", JBool true)] = None /\
    "result"%string = "result"%string)) /\
  for_clusters "00:11" (0x042a :: [0xfc7e])%Z 0 []
    (mkTask ([] ++ (1, Frame (JObj [("id", JInt 1); ("success", JBool true)]))
                :: [])
            [] false None [])
  = (Raise (KeyError "result"),
     mkTask [] ([] ++ [request "00:11" (0 + 1) 0x042a]) false None []).
Proof.
  assert (H1 : Forall (other_id (0 + 1)) []) by constructor.
  assert (H2 : delays [] + 1 < 5) by (cbn; lia).
  assert (H3 : answers (JObj [("id", JInt 1); ("success", JBool true)]) (0 + 1))
    by (exists (JInt 1); split; reflexivity).
  assert (H4 : (dict_get "success" [("id", JInt 1); ("success", JBool true)]
                = None /\ "result"%string = "success"%string) \/
               ((exists success,
                    dict_get "success" [("id", JInt 1); ("success", JBool true)]
                    = Some success /\ truthy success = true) /\
                dict_get "result" [("id", JInt 1); ("success", JBool true)]
                = None /\ "result"%string = "result"%string))
    by (right; split; [exists (JBool true); split; reflexivity|
                       split; reflexivity]).
  split; [exact H1|]. split; [exact H2|]. split; [exact H3|].
  split; [exact H4|].
  exact (X7_incomplete_response_raises "00:11" 0x042a%Z [0xfc7e]%Z 0%Z [] []
           false [] [] 1 _ "result" [] H1 H2 H3 H4).
Defined.

(** X15. Responses are taken in the order of the requests only.  When the
    response to the second request comes in before the response to the
    first, and both before the five time units of the first wait are up,
    it is passed over during the first wait and is gone: the first cluster
    gets its value, and the second times out like the clusters after it,
    though its response did come. *)
Theorem X15_early_response_is_lost
    self ieee d d' first auth_response da r2 v2 db r1 v1 :
  challenge first ->
  acceptance auth_response ->
  attempt_ok 2 (Answered r2 v2) ->
  other_id 1 (da, Frame r2) ->
  attempt_ok 1 (Answered r1 v1) ->
  da + db < 5 ->
  get_values self ieee
    (connect [ (d, Frame first); (d', Frame auth_response)
             ; (da, Frame r2); (db, Frame r1) ])
  = (Done (Some [v1]),
     mkTask [] (auth_frame self :: requests ieee 0 clusters) true None
            (repeat ErrorTimedOut 3)).
Proof.
  intros Hc Ha _ Hother H1 Hle.
  rewrite (get_values_after_handshake _ _ _ _ _ _ _ Hc Ha).
  unfold clusters.
  assert (Hd : delays [(da, Frame r2)] + db < 5) by (cbn; lia).
  rewrite (turn_answered ieee _ _ 0 [] _ _ _ [(da, Frame r2)] db r1 v1 []
             (Forall_cons _ Hother (Forall_nil _)) Hd H1).
  rewrite (for_clusters_quiet ieee _ _ _ [] _ _ _ I).
  reflexivity.
Qed.

Lemma X15_early_response_is_lost_witness :
  challenge (Examples.typed "auth_required") /\
  acceptance (Examples.typed "auth_ok") /\
  attempt_ok 2 (Answered (Examples.response 2 true "81.0") (JStr "81.0")) /\
  other_id 1 (1, Frame (Examples.response 2 true "81.0")) /\
  attempt_ok 1 (Answered (Examples.response 1 true "23.0") (JStr "23.0")) /\
  1 + 2 < 5 /\
  get_values Examples.zha (c_vindstyrka Examples.cfg)
    (connect [ (0, Frame (Examples.typed "auth_required"))
             ; (1, Frame (Examples.typed "auth_ok"))
             ; (1, Frame (Examples.response 2 true "81.0"))
             ; (2, Frame (Examples.response 1 true "23.0")) ])
  = (Done (Some [JStr "23.0"]),
     mkTask [] (auth_frame Examples.zha
                  :: requests (c_vindstyrka Examples.cfg) 0 clusters)
            true None (repeat ErrorTimedOut 3)).
Proof.
  assert (H4 : other_id 1 (1, Frame (Examples.response 2 true "81.0")))
    by (exists (Examples.response 2 true "81.0"), (JInt 2); repeat split).
  assert (H6 : 1 + 2 < 5) by lia.
  split; [exact typed_challenge|]. split; [exact typed_acceptance|].
  split; [apply response_ok|]. split; [exact H4|].
  split; [apply response_ok|]. split; [exact H6|].
  exact (X15_early_response_is_lost Examples.zha (c_vindstyrka Examples.cfg)
           0 1 _ _ 1 _ _ 2 _ _
           typed_challenge typed_acceptance (response_ok 2 "81.0") H4
           (response_ok 1 "23.0") H6).
Defined.

(** ** Four answers *)

(** X3. A server that challenges, accepts the credential and answers each
    of the four requests before five time units are up, with a true
    [success] and as [result] a string that the output file can encode,
    gets its line written: the turn of the main loop for an accepted serial
    line ends normally with exactly the line
    [<timestamp>;<fragment>,ZHA,4,v1,v2,v3,v4] appended, nothing logged, the
    connection closed, and what the server sent beyond the four responses
    left unread. *)
Theorem X3_four_answers_write_the_line
    cfg now line w sen54log d d' first auth_response
    d1 d2 d3 d4 r1 r2 r3 r4 v1 v2 v3 v4 rest servers' :
  accepts line sen54log ->
  servers w =
    ((d, Frame first) :: (d', Frame auth_response)
       :: (d1, Frame r1) :: (d2, Frame r2) :: (d3, Frame r3)
       :: (d4, Frame r4) :: rest) :: servers' ->
  challenge first ->
  acceptance auth_response ->
  d1 < 5 -> d2 < 5 -> d3 < 5 -> d4 < 5 ->
  attempt_ok 1 (Answered r1 (JStr v1)) ->
  attempt_ok 2 (Answered r2 (JStr v2)) ->
  attempt_ok 3 (Answered r3 (JStr v3)) ->
  attempt_ok 4 (Answered r4 (JStr v4)) ->
  Forall (fun v => Py.encodable v = true) [v1; v2; v3; v4] ->
  exists w' t,
    main_iter cfg now line w = (Done tt, w') /\
    log_file w' =
      (log_file w
       ++ (now (clock_reads w) ++ ";" ++ sen54log ++ ",ZHA,4,"
             ++ v1 ++ "," ++ v2 ++ "," ++ v3 ++ "," ++ v4)
       ++ nl)%string /\
    logger w' = logger w /\
    servers w' = servers' /\
    clock_reads w' = S (clock_reads w) /\
    fetches w' = fetches w ++ [t] /\
    closed t = true /\
    inbox t = rest /\
    sent t =
      auth_frame (mkZHAReader (c_uri cfg) (c_token cfg))
        :: requests (c_vindstyrka cfg) 0 clusters.
Proof.
  intros Hacc Hsrv Hc Ha H1 H2 H3 H4 A1 A2 A3 A4 Henc.
  set (zha := mkZHAReader (c_uri cfg) (c_token cfg)).
  set (ieee := c_vindstyrka cfg).
  assert (Hg : get_values zha ieee
                 (connect ((d, Frame first) :: (d', Frame auth_response)
                             :: (d1, Frame r1) :: (d2, Frame r2)
                             :: (d3, Frame r3) :: (d4, Frame r4) :: rest))
               = (Done (Some [JStr v1; JStr v2; JStr v3; JStr v4]),
                  mkTask rest (auth_frame zha :: requests ieee 0 clusters)
                         true None [])).
  { rewrite (get_values_after_handshake _ _ _ _ _ _ _ Hc Ha).
    unfold clusters.
    rewrite (turn_answered_at_once ieee _ _ 0 _ _ _ _ d1 r1 (JStr v1) _ H1 A1).
    rewrite (turn_answered_at_once ieee _ _ 1 _ _ _ _ d2 r2 (JStr v2) _ H2 A2).
    rewrite (turn_answered_at_once ieee _ _ 2 _ _ _ _ d3 r3 (JStr v3) _ H3 A3).
    rewrite (turn_answered_at_once ieee _ _ 3 _ _ _ _ d4 r4 (JStr v4) _ H4 A4).
    reflexivity. }
  rewrite (main_iter_fetch _ _ _ _ _ _ _ _ _ Hacc Hsrv Hg).
  apply encodable_join in Henc.
  eexists _, _. split.
  - cbn [emit strs option_map]. rewrite Henc. reflexivity.
  - cbn [write fetched_world log_file logger servers
         clock_reads fetches closed inbox sent logged List.length Py.join
         Py.str_of_nat].
    rewrite app_nil_r, append_assoc. repeat split.
Qed.

Lemma X3_four_answers_write_the_line_witness :
  accepts Examples.sen54 "1455130,1347;PRO,8,202,232,MYS,3,3194,6448,64479" /\
  servers (Examples.world0 [Examples.all_four]) = [Examples.all_four] /\
  challenge (Examples.typed "auth_required") /\
  acceptance (Examples.typed "auth_ok") /\
  1 < 5 /\
  attempt_ok 1 (Answered (Examples.response 1 true "23.0") (JStr "23.0")) /\
  attempt_ok 2 (Answered (Examples.response 2 true "81.0") (JStr "81.0")) /\
  attempt_ok 3 (Answered (Examples.response 3 true "4900") (JStr "4900")) /\
  attempt_ok 4 (Answered (Examples.response 4 true "2500") (JStr "2500")) /\
  Forall (fun v => Py.encodable v = true)
         ["23.0"; "81.0"; "4900"; "2500"]%string /\
  exists w' t,
    main_iter Examples.cfg Examples.now Examples.sen54
              (Examples.world0 [Examples.all_four]) = (Done tt, w') /\
    log_file w' =
      (log_file (Examples.world0 [Examples.all_four])
       ++ (Examples.now (clock_reads (Examples.world0 [Examples.all_four]))
             ++ ";" ++ "1455130,1347;PRO,8,202,232,MYS,3,3194,6448,64479"
             ++ ",ZHA,4," ++ "23.0" ++ "," ++ "81.0" ++ "," ++ "4900" ++ ","
             ++ "2500")
       ++ nl)%string /\
    logger w' = logger (Examples.world0 [Examples.all_four]) /\
    servers w' = [] /\
    clock_reads w' = S (clock_reads (Examples.world0 [Examples.all_four])) /\
    fetches w' = fetches (Examples.world0 [Examples.all_four]) ++ [t] /\
    closed t = true /\
    inbox t = [] /\
    sent t =
      auth_frame (mkZHAReader (c_uri Examples.cfg) (c_token Examples.cfg))
        :: requests (c_vindstyrka Examples.cfg) 0 clusters.
Proof.
  assert (H5 : 1 < 5) by lia.
  assert (H6 : Forall (fun v => Py.encodable v = true)
                      ["23.0"; "81.0"; "4900"; "2500"]%string)
    by (repeat constructor).
  split; [exact sen54_accepted|]. split; [reflexivity|].
  split; [exact typed_challenge|]. split; [exact typed_acceptance|].
  split; [exact H5|].
  split; [apply response_ok|]. split; [apply response_ok|].
  split; [apply response_ok|]. split; [apply response_ok|].
  split; [exact H6|].
  exact (X3_four_answers_write_the_line
           Examples.cfg Examples.now Examples.sen54
           (Examples.world0 [Examples.all_four]) _
           0 1 _ _ 1 1 1 1 _ _ _ _ _ _ _ _ [] []
           sen54_accepted eq_refl typed_challenge typed_acceptance
           H5 H5 H5 H5
           (response_ok 1 "23.0") (response_ok 2 "81.0")
           (response_ok 3 "4900") (response_ok 4 "2500") H6).
Defined.

(** ** What a fetch returns, and what it has read for it *)

(** X14. A fetch that returns a list has been through a handshake that
    went well and then through the four clusters in their order.  Of what
    the server sent after the handshake, each turn has either received,
    after messages with other ids and before its five time units were up,
    the response that answers its request with a true [success], or found
    no such response until the five time units were up: the list holds, in
    the order of the clusters, the results of exactly the responses so
    received, and a timeout is logged for each of the other clusters.  A
    fetch that returns [None] has received in its last turn, and logged
    last, an unsuccessful response that answers the last request it
    sent. *)
Theorem X14_what_a_fetch_returns self ieee server r t :
  get_values self ieee (connect server) = (r, t) ->
  (forall values, r = Done (Some values) ->
   exists hs inbound pre tr,
     server = hs ++ inbound /\ shook self hs pre /\
     exchanges 0 tr inbound (inbox t) /\
     List.length tr = 4 /\ existsb is_failed tr = false /\
     values = flat_map value_of tr /\ logged t = flat_map log_of tr /\
     sent t = pre ++ requests ieee 0 clusters) /\
  (r = Done None ->
   exists hs inbound pre tr response,
     server = hs ++ inbound /\ shook self hs pre /\
     exchanges 0 (tr ++ [Failed response]) inbound (inbox t) /\
     List.length tr < 4 /\ existsb is_failed tr = false /\
     logged t = flat_map log_of tr ++ [ErrorResponse response] /\
     sent t = pre ++ requests ieee 0 (firstn (S (List.length tr)) clusters)).
Proof.
  intros H. split.
  - intros values ->.
    destruct (get_values_shook _ _ _ _ _ H) as (hs & inbound & pre & -> & Hs).
    destruct (get_values_taken _ _ _ _ _ _ _ Hs H)
      as (tr & after & Htr & Hnf & Hl & Hv & ->).
    exists hs, inbound, pre, tr. repeat split; assumption.
  - intros ->.
    destruct (get_values_shook _ _ _ _ _ H) as (hs & inbound & pre & -> & Hs).
    destruct (get_values_taken _ _ _ _ _ _ _ Hs H)
      as (tr & after & Htr & (tr0 & response & -> & Hnf) & Hl & ->).
    rewrite length_app in *. cbn [List.length] in *.
    replace (List.length tr0 + 1) with (S (List.length tr0)) in * by lia.
    exists hs, inbound, pre, tr0, response.
    cbn [inbox sent logged]. rewrite flat_map_app.
    repeat split; assumption || lia.
Qed.


Lemma X14_what_a_fetch_returns_witness :
  get_values Examples.zha (c_vindstyrka Examples.cfg)
             (connect Examples.late_first)
    = (fst (Examples.fetched Examples.late_first),
       snd (Examples.fetched Examples.late_first)) /\
  (forall values,
      fst (Examples.fetched Examples.late_first) = Done (Some values) ->
      exists hs inbound pre tr,
        Examples.late_first = hs ++ inbound /\ shook Examples.zha hs pre /\
        exchanges 0 tr inbound
                  (inbox (snd (Examples.fetched Examples.late_first))) /\
        List.length tr = 4 /\ existsb is_failed tr = false /\
        values = flat_map value_of tr /\
        logged (snd (Examples.fetched Examples.late_first))
        = flat_map log_of tr /\
        sent (snd (Examples.fetched Examples.late_first))
        = pre ++ requests (c_vindstyrka Examples.cfg) 0 clusters).
Proof.
  assert (H : get_values Examples.zha (c_vindstyrka Examples.cfg)
                (connect Examples.late_first)
              = (fst (Examples.fetched Examples.late_first),
                 snd (Examples.fetched Examples.late_first))) by runs.
  split; [exact H|].
  exact (proj1 (X14_what_a_fetch_returns _ _ _ _ _ H)).
Defined.

(** ** The format of a log line *)

(** C1. Whenever a turn of the main loop writes to the output file, what it
    appends is one line [<timestamp>;<serial fragment>,ZHA,<N>,<values>]
    followed by a newline, where the values are those the fetch returned,
    joined by commas, and [N] is their number.  When the fetch returned four
    values, the line reads [...,ZHA,4,v1,v2,v3,v4], and what the server sent
    is a handshake that went well followed, for [k] from 1 to 4 in this
    order, by messages with other ids and then the response [rk] that
    answers request [k] with a true [success] and the result [vk], received
    before the five time units of its wait were up; nothing more was read;
    and the requests 1 to 4 sent were those for the clusters PM2.5, VOC
    index, humidity and temperature.  And whenever the server, after a
    handshake that went well, answers the four requests in this way, with
    the results [x1] to [x4], the line written is
    [...,ZHA,4,x1,x2,x3,x4], the results being strings. *)
Theorem C1_log_line_format cfg now line w r w' :
  main_iter cfg now line w = (r, w') ->
  log_file w' <> log_file w ->
  let zha := mkZHAReader (c_uri cfg) (c_token cfg) in
  let ieee := c_vindstyrka cfg in
  exists text server t items,
    Py.decode (Py.strip line) = Some text /\
    hd_error (servers w) = Some server /\
    get_values zha ieee (connect server) = (Done (Some (map JStr items)), t) /\
    log_file w' =
      (log_file w
       ++ (now (clock_reads w) ++ ";" ++ Py.rstrip_comma text ++ ",ZHA,"
             ++ Py.str_of_nat (List.length items) ++ "," ++ Py.join "," items)
       ++ nl)%string /\
    (List.length items = 4 ->
     exists hs pre sk1 d1 r1 sk2 d2 r2 sk3 d3 r3 sk4 d4 r4 v1 v2 v3 v4,
       items = [v1; v2; v3; v4] /\
       shook zha hs pre /\
       server =
         hs ++ sk1 ++ (d1, Frame r1) :: sk2 ++ (d2, Frame r2)
            :: sk3 ++ (d3, Frame r3) :: sk4 ++ (d4, Frame r4) :: inbox t /\
       (Forall (other_id 1) sk1 /\ delays sk1 + d1 < 5 /\
        attempt_ok 1 (Answered r1 (JStr v1))) /\
       (Forall (other_id 2) sk2 /\ delays sk2 + d2 < 5 /\
        attempt_ok 2 (Answered r2 (JStr v2))) /\
       (Forall (other_id 3) sk3 /\ delays sk3 + d3 < 5 /\
        attempt_ok 3 (Answered r3 (JStr v3))) /\
       (Forall (other_id 4) sk4 /\ delays sk4 + d4 < 5 /\
        attempt_ok 4 (Answered r4 (JStr v4))) /\
       sent t = pre ++ [ request ieee 1 0x042a; request ieee 2 0xfc7e
                       ; request ieee 3 0x0405; request ieee 4 0x0402 ] /\
       log_file w' =
         (log_file w
          ++ (now (clock_reads w) ++ ";" ++ Py.rstrip_comma text ++ ",ZHA,4,"
                ++ v1 ++ "," ++ v2 ++ "," ++ v3 ++ "," ++ v4)
          ++ nl)%string) /\
    (forall hs pre sk1 d1 r1 x1 sk2 d2 r2 x2 sk3 d3 r3 x3 sk4 d4 r4 x4 rest,
       shook zha hs pre ->
       server =
         hs ++ sk1 ++ (d1, Frame r1) :: sk2 ++ (d2, Frame r2)
            :: sk3 ++ (d3, Frame r3) :: sk4 ++ (d4, Frame r4) :: rest ->
       (Forall (other_id 1) sk1 /\ delays sk1 + d1 < 5 /\
        attempt_ok 1 (Answered r1 x1)) ->
       (Forall (other_id 2) sk2 /\ delays sk2 + d2 < 5 /\
        attempt_ok 2 (Answered r2 x2)) ->
       (Forall (other_id 3) sk3 /\ delays sk3 + d3 < 5 /\
        attempt_ok 3 (Answered r3 x3)) ->
       (Forall (other_id 4) sk4 /\ delays sk4 + d4 < 5 /\
        attempt_ok 4 (Answered r4 x4)) ->
       exists v1 v2 v3 v4,
         x1 = JStr v1 /\ x2 = JStr v2 /\ x3 = JStr v3 /\ x4 = JStr v4 /\
         items = [v1; v2; v3; v4] /\ inbox t = rest /\
         log_file w' =
           (log_file w
            ++ (now (clock_reads w) ++ ";" ++ Py.rstrip_comma text ++ ",ZHA,4,"
                  ++ v1 ++ "," ++ v2 ++ "," ++ v3 ++ "," ++ v4)
            ++ nl)%string).
Proof.
  intros H Hneq zha ieee.
  destruct (main_iter_written _ _ _ _ _ _ H Hneq)
    as (text & server & servers' & t & item & items & Hdec & Hsrv & Hg & _ & _ & Hlog).
  exists text, server, t, (item :: items).
  split; [assumption|]. split; [rewrite Hsrv; reflexivity|].
  split; [assumption|]. split; [assumption|].
  split.
  2:{ intros hs pre sk1 d1 r1 x1 sk2 d2 r2 x2 sk3 d3 r3 x3 sk4 d4 r4 x4 rest
             Hs -> (F1 & S1 & A1) (F2 & S2 & A2) (F3 & S3 & A3) (F4 & S4 & A4).
      assert (Hex : exchanges 0
                      [Answered r1 x1; Answered r2 x2; Answered r3 x3;
                       Answered r4 x4]
                      (sk1 ++ (d1, Frame r1) :: sk2 ++ (d2, Frame r2)
                           :: sk3 ++ (d3, Frame r3) :: sk4 ++ (d4, Frame r4)
                           :: rest)
                      rest).
      { cbn [exchanges exchange].
        eexists. split; [exact A1|]. split; [exists sk1, d1; eauto|].
        eexists. split; [exact A2|]. split; [exists sk2, d2; eauto|].
        eexists. split; [exact A3|]. split; [exists sk3, d3; eauto|].
        eexists. split; [exact A4|]. split; [exists sk4, d4; eauto|].
        reflexivity. }
      pose proof (get_values_exchanges zha ieee hs _ pre
                    [Answered r1 x1; Answered r2 x2; Answered r3 x3;
                     Answered r4 x4] rest Hs eq_refl eq_refl Hex) as Hge.
      unfold zha, ieee in Hge. cbn [flat_map value_of log_of app] in Hge.
      rewrite Hge in Hg.
      assert (Hv : [x1; x2; x3; x4] = map JStr (item :: items))
        by congruence.
      assert (Ht : inbox t = rest) by (inversion Hg; reflexivity).
      destruct items as [|v2 [|v3 [|v4 [|v5 items]]]]; try discriminate.
      injection Hv as -> -> -> ->.
      exists item, v2, v3, v4.
      repeat (split; [reflexivity|]). split; [exact Ht|].
      rewrite Hlog. reflexivity. }
  intros Hlen.
  destruct (get_values_shook _ _ _ _ _ Hg) as (hs & inbound & pre & -> & Hs).
  destruct (get_values_taken _ _ _ _ _ _ _ Hs Hg)
    as (tr & after & Htr & Hnf & Hl & Hv & ->).
  assert (Hcount := turns_count tr Hnf).
  rewrite <- Hv, length_map, Hlen, Hl in Hcount.
  assert (Ht : timeouts (flat_map log_of tr) = 0) by lia.
  pose proof (turns_all_answered tr Hnf Ht) as Hall.
  destruct tr as [|a1 [|a2 [|a3 [|a4 [|a5 tr]]]]]; try discriminate.
  inversion Hall as [|? ? (r1 & x1 & ->) Hall1]; subst.
  inversion Hall1 as [|? ? (r2 & x2 & ->) Hall2]; subst.
  inversion Hall2 as [|? ? (r3 & x3 & ->) Hall3]; subst.
  inversion Hall3 as [|? ? (r4 & x4 & ->) _]; subst.
  cbn in Hv. destruct items as [|v2 [|v3 [|v4 [|v5 items]]]]; try discriminate.
  injection Hv as <- <- <- <-.
  cbn [exchanges exchange] in Htr.
  destruct Htr as (m1 & A1 & (sk1 & d1 & -> & F1 & S1)
                   & m2 & A2 & (sk2 & d2 & -> & F2 & S2)
                   & m3 & A3 & (sk3 & d3 & -> & F3 & S3)
                   & m4 & A4 & (sk4 & d4 & -> & F4 & S4) & ->).
  exists hs, pre, sk1, d1, r1, sk2, d2, r2, sk3, d3, r3, sk4, d4, r4,
    item, v2, v3, v4.
  split; [reflexivity|]. split; [exact Hs|].
  cbn [inbox sent]. split; [reflexivity|].
  split; [split; [exact F1|split; [exact S1|exact A1]]|].
  split; [split; [exact F2|split; [exact S2|exact A2]]|].
  split; [split; [exact F3|split; [exact S3|exact A3]]|].
  split; [split; [exact F4|split; [exact S4|exact A4]]|].
  split; [reflexivity|].
  rewrite Hlog. reflexivity.
Qed.

Lemma C1_log_line_format_witness :
  main_iter Examples.cfg Examples.now Examples.sen54
            (Examples.world0 [Examples.all_four])
    = (fst (Examples.turn Examples.all_four),
       snd (Examples.turn Examples.all_four)) /\
  log_file (snd (Examples.turn Examples.all_four))
    <> log_file (Examples.world0 [Examples.all_four]) /\
  exists text server t items,
    Py.decode (Py.strip Examples.sen54) = Some text /\
    hd_error (servers (Examples.world0 [Examples.all_four])) = Some server /\
    get_values Examples.zha (c_vindstyrka Examples.cfg) (connect server)
      = (Done (Some (map JStr items)), t) /\
    log_file (snd (Examples.turn Examples.all_four)) =
      (log_file (Examples.world0 [Examples.all_four])
       ++ (Examples.now 0 ++ ";" ++ Py.rstrip_comma text ++ ",ZHA,"
             ++ Py.str_of_nat (List.length items) ++ "," ++ Py.join "," items)
       ++ nl)%string /\
    (List.length items = 4 ->
     exists hs pre sk1 d1 r1 sk2 d2 r2 sk3 d3 r3 sk4 d4 r4 v1 v2 v3 v4,
       items = [v1; v2; v3; v4] /\
       shook Examples.zha hs pre /\
       server =
         hs ++ sk1 ++ (d1, Frame r1) :: sk2 ++ (d2, Frame r2)
            :: sk3 ++ (d3, Frame r3) :: sk4 ++ (d4, Frame r4) :: inbox t /\
       (Forall (other_id 1) sk1 /\ delays sk1 + d1 < 5 /\
        attempt_ok 1 (Answered r1 (JStr v1))) /\
       (Forall (other_id 2) sk2 /\ delays sk2 + d2 < 5 /\
        attempt_ok 2 (Answered r2 (JStr v2))) /\
       (Forall (other_id 3) sk3 /\ delays sk3 + d3 < 5 /\
        attempt_ok 3 (Answered r3 (JStr v3))) /\
       (Forall (other_id 4) sk4 /\ delays sk4 + d4 < 5 /\
        attempt_ok 4 (Answered r4 (JStr v4))) /\
       sent t =
         pre ++ [ request (c_vindstyrka Examples.cfg) 1 0x042a
                ; request (c_vindstyrka Examples.cfg) 2 0xfc7e
                ; request (c_vindstyrka Examples.cfg) 3 0x0405
                ; request (c_vindstyrka Examples.cfg) 4 0x0402 ] /\
       log_file (snd (Examples.turn Examples.all_four)) =
         (log_file (Examples.world0 [Examples.all_four])
          ++ (Examples.now 0 ++ ";" ++ Py.rstrip_comma text ++ ",ZHA,4,"
                ++ v1 ++ "," ++ v2 ++ "," ++ v3 ++ "," ++ v4)
          ++ nl)%string) /\
    (forall hs pre sk1 d1 r1 x1 sk2 d2 r2 x2 sk3 d3 r3 x3 sk4 d4 r4 x4 rest,
       shook Examples.zha hs pre ->
       server =
         hs ++ sk1 ++ (d1, Frame r1) :: sk2 ++ (d2, Frame r2)
            :: sk3 ++ (d3, Frame r3) :: sk4 ++ (d4, Frame r4) :: rest ->
       (Forall (other_id 1) sk1 /\ delays sk1 + d1 < 5 /\
        attempt_ok 1 (Answered r1 x1)) ->
       (Forall (other_id 2) sk2 /\ delays sk2 + d2 < 5 /\
        attempt_ok 2 (Answered r2 x2)) ->
       (Forall (other_id 3) sk3 /\ delays sk3 + d3 < 5 /\
        attempt_ok 3 (Answered r3 x3)) ->
       (Forall (other_id 4) sk4 /\ delays sk4 + d4 < 5 /\
        attempt_ok 4 (Answered r4 x4)) ->
       exists v1 v2 v3 v4,
         x1 = JStr v1 /\ x2 = JStr v2 /\ x3 = JStr v3 /\ x4 = JStr v4 /\
         items = [v1; v2; v3; v4] /\ inbox t = rest /\
         log_file (snd (Examples.turn Examples.all_four)) =
           (log_file (Examples.world0 [Examples.all_four])
            ++ (Examples.now 0 ++ ";" ++ Py.rstrip_comma text ++ ",ZHA,4,"
                  ++ v1 ++ "," ++ v2 ++ "," ++ v3 ++ "," ++ v4)
            ++ nl)%string).
Proof.
  assert (H1 : main_iter Examples.cfg Examples.now Examples.sen54
                 (Examples.world0 [Examples.all_four])
               = (fst (Examples.turn Examples.all_four),
                  snd (Examples.turn Examples.all_four)))
    by runs.
  assert (H2 : log_file (snd (Examples.turn Examples.all_four))
               <> log_file (Examples.world0 [Examples.all_four]))
    by (vm_compute; discriminate).
  split; [exact H1|]. split; [exact H2|].
  exact (C1_log_line_format _ _ _ _ _ _ H1 H2).
Defined.

(** ** Which values a line carries, and what a timeout does *)



(** ** Request ids and the wait for the matching response *)


